(** * Body Systems Race: the simulation engine of [app.py]

    A shallow embedding of the race engine: the competitor record
    [BodySystemRunner] with its single-tick [update], the roster
    [create_runners], the race loop of [simulate_race] with its frames, and
    of [main] the ranking [sorted(runners, key=sort_key)] and the rows of
    the results table.  The plotting of [draw_frame], the colours of
    [attach_colors] and the Streamlit calls are not part of it.

    Numbers.  A Python [float] is modelled by an exact rational [Q]; the
    decimal literals of the source ([0.8], [1.3], [1e9]) are the rationals
    they denote, and comparison is comparison of values ([Qeq], [Qlt]), so
    two representations of one number behave alike, as two equal floats do.
    Rounding, infinities and NaN are outside the model.  The one place where
    the rounding of the module constants could change a count, the clock of
    the race loop, is checked in binary64 at the end of the file.

    Failure.  Python's [/] raises [ZeroDivisionError] on a zero divisor.
    Division is therefore a fallible operation [pydiv], and every function
    that divides lives in the error monad [result].

    Loops.  The [while] loop of [simulate_race] is a fuelled recursion that
    distinguishes running out of fuel ([None]) from returning. *)

From Stdlib Require Import QArith Qround Qminmax Qabs Lqa Lia ZArith.
From Stdlib Require Import String List Bool Permutation Sorted.
From Stdlib Require Import PrimFloat DecimalString.
Import ListNotations.
Open Scope string_scope.
Open Scope Q_scope.

(* ================================================================== *)
(** * Python primitives *)
(* ================================================================== *)

Inductive exn : Type :=
| ZeroDivisionError.

Inductive result (A : Type) : Type :=
| Ok (a : A)
| Raise (e : exn).

Arguments Ok {A} a.
Arguments Raise {A} e.

Definition bind {A B : Type} (m : result A) (k : A -> result B) : result B :=
  match m with
  | Ok a => k a
  | Raise e => Raise e
  end.

Notation "x <- m ;; k" := (bind m (fun x => k))
  (at level 61, m at next level, right associativity).

(** [mapM f l] runs [f] over [l] from left to right and stops at the first
    exception, as a [for] loop whose body may raise. *)
Fixpoint mapM {A B : Type} (f : A -> result B) (l : list A) : result (list B) :=
  match l with
  | [] => Ok []
  | a :: l' => b <- f a ;; bs <- mapM f l' ;; Ok (b :: bs)
  end.

(** Comparison operators of the source, as boolean tests. *)
Definition Qltb (x y : Q) : bool := negb (Qle_bool y x).
Definition Qgtb (x y : Q) : bool := Qltb y x.
Definition Qgeb (x y : Q) : bool := Qle_bool y x.

Infix "<?" := Qltb (at level 70, no associativity) : Q_scope.
Infix ">?" := Qgtb (at level 70, no associativity) : Q_scope.
Infix ">=?" := Qgeb (at level 70, no associativity) : Q_scope.

(** [min(a, b)] and [max(a, b)] of Python: the first argument is kept unless
    the second is strictly smaller (strictly greater). *)
Definition pymin (a b : Q) : Q := if b <? a then b else a.
Definition pymax (a b : Q) : Q := if b >? a then b else a.

(** [x / y] on floats. *)
Definition pydiv (x y : Q) : result Q :=
  if Qeq_bool y 0 then Raise ZeroDivisionError else Ok (x / y).

(** [int(x)]: truncation toward zero. *)
Definition int (x : Q) : Z := Z.quot (Qnum x) (QDen x).

(** [sum(xs)]: starts from 0 and adds from the left. *)
Definition sum (xs : list Q) : Q := fold_left Qplus xs 0.

(** [all(bs)]. *)
Definition all (bs : list bool) : bool := forallb (fun b => b) bs.

(* ================================================================== *)
(** * 2. Data model *)
(* ================================================================== *)

Record BodySystemRunner : Type := mkRunner {
  name : string;
  system : string;
  lane : Z;

  acceleration : Q;
  top_speed : Q;
  stamina_max : Q;
  stamina_regen : Q;
  burst_multiplier : Q;
  fatigue_factor : Q;

  personality : string;
  ability : string;

  (* Dynamic race state *)
  position : Q;
  speed : Q;
  stamina : Q;
  finished : bool;
  finish_time : option Q
}.

(** The constructor call [BodySystemRunner(name=..., ..., ability=...)] of
    the roster: the dynamic fields take their defaults and [__post_init__]
    replaces the [None] stamina by [stamina_max]. *)
Definition new_runner (name system : string) (lane : Z)
    (acceleration top_speed stamina_max stamina_regen
     burst_multiplier fatigue_factor : Q)
    (personality ability : string) : BodySystemRunner :=
  {| name := name; system := system; lane := lane;
     acceleration := acceleration; top_speed := top_speed;
     stamina_max := stamina_max; stamina_regen := stamina_regen;
     burst_multiplier := burst_multiplier; fatigue_factor := fatigue_factor;
     personality := personality; ability := ability;
     position := 0.0; speed := 0.0; stamina := stamina_max;
     finished := false; finish_time := None |}.

(** The assignments of [update] to the dynamic fields of [self]; the static
    fields are never written. *)
Definition set_state (r : BodySystemRunner) (position speed stamina : Q)
    (finished : bool) (finish_time : option Q) : BodySystemRunner :=
  {| name := name r; system := system r; lane := lane r;
     acceleration := acceleration r; top_speed := top_speed r;
     stamina_max := stamina_max r; stamina_regen := stamina_regen r;
     burst_multiplier := burst_multiplier r;
     fatigue_factor := fatigue_factor r;
     personality := personality r; ability := ability r;
     position := position; speed := speed; stamina := stamina;
     finished := finished; finish_time := finish_time |}.

(* ================================================================== *)
(** * BodySystemRunner.update *)
(* ================================================================== *)

Section Update.

(** The module constant [RACE_DISTANCE], taken as a parameter. *)
Variable race_distance : Q.

(** ** 1. Personality-based target speed *)
Definition base_target_speed (r : BodySystemRunner) (race_progress : Q) : Q :=
  let base_target := 0.8 * top_speed r in
  if personality r =? "aggressive" then
    pymin (top_speed r) (base_target + 0.15 * top_speed r)
  else if personality r =? "calm" then
    base_target
  else if personality r =? "tactical" then
    if race_progress <? 0.4 then 0.7 * top_speed r
    else if race_progress <? 0.8 then 0.9 * top_speed r
    else top_speed r
  else if personality r =? "steady" then
    0.85 * top_speed r
  else
    base_target.

(** ** 2. Abilities

    The six independent [if] statements, in source order.  The result is the
    pair of [self.stamina] and [target_speed] as they stand afterwards. *)

(** The trigger of the lung ability: [int(self.position) % 20 == 0 and
    self.position > 0]. *)
Definition deep_inhale_trigger (r : BodySystemRunner) : bool :=
  (int (position r) mod 20 =? 0)%Z && (position r >? 0).

Definition abilities (r : BodySystemRunner)
    (dt global_time race_progress target_speed : Q) : Q * Q :=
  let stamina := stamina r in
  (* Cardio *)
  let stamina :=
    if ability r =? "heart_engine" then
      if speed r <? top_speed r then stamina + stamina_regen r * 1.2 * dt
      else stamina
    else stamina in
  (* Lungster *)
  let stamina :=
    if ability r =? "deep_inhale" then
      if deep_inhale_trigger r then stamina + stamina_regen r * 3.0 * dt
      else stamina
    else stamina in
  (* Flexor *)
  let target_speed :=
    if ability r =? "power_burst" then
      if race_progress <? 0.25 then
        pymin (top_speed r * 1.1) (target_speed * 1.15)
      else target_speed
    else target_speed in
  (* Neuron *)
  let target_speed :=
    if ability r =? "reflex_start" then
      if global_time <? 1.5 then pymin (top_speed r) (target_speed * 1.2)
      else target_speed
    else target_speed in
  (* Hormona *)
  let target_speed :=
    if ability r =? "adrenaline_surge" then
      if race_progress >? 0.6 then
        pymin (top_speed r * burst_multiplier r)
              (target_speed * burst_multiplier r)
      else target_speed
    else target_speed in
  (* Gastro *)
  let target_speed :=
    if ability r =? "energy_conversion" then
      if stamina <? 0.3 * stamina_max r then
        pymin (top_speed r * 1.05) (target_speed * 1.1)
      else target_speed
    else target_speed in
  (stamina, target_speed).

(** ** 3. Stamina mechanics *)
Definition speed_fraction (r : BodySystemRunner) : result Q :=
  if top_speed r >? 0 then pydiv (speed r) (top_speed r) else Ok 0.0.

Definition stamina_mechanics (r : BodySystemRunner)
    (stamina speed_fraction dt : Q) : Q :=
  let drain_rate := 0.5 + 1.5 * speed_fraction in
  let stamina := stamina - drain_rate * dt in
  let stamina :=
    if speed_fraction <? 0.7 then stamina + stamina_regen r * dt
    else stamina in
  pymax 0.0 (pymin stamina (stamina_max r)).

(** ** 4. Fatigue *)
Definition stamina_fraction (r : BodySystemRunner) (stamina : Q) : result Q :=
  if stamina_max r >? 0 then pydiv stamina (stamina_max r) else Ok 0.0.

Definition fatigue (r : BodySystemRunner)
    (target_speed stamina_fraction : Q) : Q :=
  let fatigue_penalty := (1.0 - stamina_fraction) * fatigue_factor r in
  let fatigue_penalty :=
    if ability r =? "fatigue_shield" then fatigue_penalty * 0.4
    else fatigue_penalty in
  let effective_target_speed :=
    pymax 0.0 (target_speed * (1.0 - fatigue_penalty)) in
  if ability r =? "structural_stability" then
    let min_speed := 0.9 * 0.85 * top_speed r in
    pymax min_speed effective_target_speed
  else effective_target_speed.

(** ** 5. Move toward target speed *)
Definition move_toward (r : BodySystemRunner)
    (effective_target_speed dt : Q) : Q :=
  let speed :=
    if speed r <? effective_target_speed then
      let speed := speed r + acceleration r * dt in
      if speed >? effective_target_speed then effective_target_speed
      else speed
    else
      let speed := speed r - acceleration r * 1.3 * dt in
      if speed <? effective_target_speed then effective_target_speed
      else speed in
  pymax 0.0 speed.

(** ** The whole tick, stage 6 included *)
Definition update (r : BodySystemRunner)
    (dt global_time race_progress : Q) : result BodySystemRunner :=
  if finished r then Ok r
  else
    let target_speed := base_target_speed r race_progress in
    let '(stamina, target_speed) :=
      abilities r dt global_time race_progress target_speed in
    speed_fraction <- speed_fraction r ;;
    let stamina := stamina_mechanics r stamina speed_fraction dt in
    stamina_fraction <- stamina_fraction r stamina ;;
    let effective_target_speed := fatigue r target_speed stamina_fraction in
    let speed := move_toward r effective_target_speed dt in
    let position := position r + speed * dt in
    if position >=? race_distance then
      Ok (set_state r race_distance speed stamina true (Some global_time))
    else
      Ok (set_state r position speed stamina (finished r) (finish_time r)).

End Update.

(* ================================================================== *)
(** * 1. Core configuration *)
(* ================================================================== *)

Definition RACE_DISTANCE : Q := 200.0.   (* meters *)
Definition DT : Q := 0.1.                (* simulation time step *)
Definition MAX_RACE_TIME : Q := 40.0.    (* safety cap in seconds *)

(* ================================================================== *)
(** * 3. Runner roster *)
(* ================================================================== *)

Definition create_runners : list BodySystemRunner :=
  [ new_runner "Cardio" "Cardiovascular" 1
      3.0 9.5 120.0 12.0 1.1 0.5 "calm" "heart_engine";
    new_runner "Lungster" "Respiratory" 2
      4.5 9.4 80.0 7.0 1.2 0.9 "aggressive" "deep_inhale";
    new_runner "Flexor" "Muscular" 3
      4.2 9.6 75.0 6.0 1.3 1.0 "aggressive" "power_burst";
    new_runner "Neuron" "Nervous" 4
      3.8 9.2 90.0 8.0 1.15 0.7 "tactical" "reflex_start";
    new_runner "Hormona" "Endocrine" 5
      3.5 9.7 85.0 7.0 1.3 0.8 "tactical" "adrenaline_surge";
    new_runner "Defenda" "Immune" 6
      2.8 9.0 130.0 11.0 1.05 0.3 "steady" "fatigue_shield";
    new_runner "Gastro" "Digestive" 7
      3.6 9.3 95.0 8.5 1.2 0.8 "tactical" "energy_conversion";
    new_runner "Bonestride" "Skeletal" 8
      2.4 9.1 110.0 10.0 1.1 0.6 "steady" "structural_stability" ].

(* ================================================================== *)
(** * 4. Simulation engine *)
(* ================================================================== *)

(** One entry of [frames]: the dict with keys ["time"], ["positions"],
    ["stamina"] and ["speeds"]. *)
Record Frame : Type := mkFrame {
  frame_time : Q;
  frame_positions : list Q;
  frame_stamina : list Q;
  frame_speeds : list Q
}.

(** The local variables of [simulate_race] that the loop reads and writes. *)
Record LoopState : Type := mkLoop {
  runners : list BodySystemRunner;
  t : Q;
  frames : list Frame
}.

Section RaceLoop.

(** The module constants [RACE_DISTANCE], [DT] and [MAX_RACE_TIME], taken as
    parameters. *)
Variables race_distance dt max_time : Q.

(** The loop test [t < MAX_RACE_TIME and not all(r.finished for r in runners)]. *)
Definition loop_cond (s : LoopState) : bool :=
  (t s <? max_time) && negb (all (map finished (runners s))).

(** The first two statements of the loop body. *)
Definition race_progress (rs : list BodySystemRunner) : result Q :=
  avg_position <-
    pydiv (sum (map position rs)) (inject_Z (Z.of_nat (length rs))) ;;
  if race_distance >? 0 then pydiv avg_position race_distance else Ok 0.0.

(** [for r in runners: r.update(dt=DT, global_time=t, race_progress=...)]. *)
Definition update_all (rs : list BodySystemRunner) (t race_progress : Q)
  : result (list BodySystemRunner) :=
  mapM (fun r => update race_distance r dt t race_progress) rs.

Definition loop_body (s : LoopState) : result LoopState :=
  race_progress <- race_progress (runners s) ;;
  rs <- update_all (runners s) (t s) race_progress ;;
  let frame :=
    {| frame_time := t s;
       frame_positions := map position rs;
       frame_stamina := map stamina rs;
       frame_speeds := map speed rs |} in
  Ok {| runners := rs; t := t s + dt; frames := frames s ++ [frame] |}.

(** The [while] loop.  [None] is fuel exhaustion; [Some (Raise e)] is an
    exception escaping the body; [Some (Ok s)] is the state on loop exit. *)
Fixpoint while_loop (fuel : nat) (s : LoopState) : option (result LoopState) :=
  match fuel with
  | O => None
  | S fuel' =>
      if loop_cond s then
        match loop_body s with
        | Ok s' => while_loop fuel' s'
        | Raise e => Some (Raise e)
        end
      else Some (Ok s)
  end.

(** [simulate_race] for a given roster: the loop is entered with [t = 0.0]
    and no frames. *)
Definition initial_loop_state (roster : list BodySystemRunner) : LoopState :=
  {| runners := roster; t := 0.0; frames := [] |}.

Definition run_race (fuel : nat) (roster : list BodySystemRunner)
  : option (result LoopState) :=
  while_loop fuel (initial_loop_state roster).

End RaceLoop.

(** [simulate_race()] itself: the roster of [create_runners] under the module
    constants.  The dict it returns holds the [frames] and the [runners] of
    the exit state. *)
Definition simulate_race (fuel : nat) : option (result LoopState) :=
  run_race RACE_DISTANCE DT MAX_RACE_TIME fuel create_runners.

(* ================================================================== *)
(** * 6. Final results: the ranking of [main] *)
(* ================================================================== *)

Definition sort_key (r : BodySystemRunner) : Q :=
  match finish_time r with
  | Some ft => ft
  | None => 1e9
  end.

(** [sorted(xs, key=key)]: Python's sort is stable and compares keys with
    [<] only.  It is modelled by the stable insertion sort: an element is
    moved right past exactly the elements whose key is strictly smaller.
    Order and stability leave no choice, so any stable sort computes the
    same list. *)
Fixpoint insert_by {A : Type} (key : A -> Q) (x : A) (l : list A) : list A :=
  match l with
  | [] => [x]
  | y :: l' => if key y <? key x then y :: insert_by key x l' else x :: l
  end.

Definition sorted {A : Type} (l : list A) (key : A -> Q) : list A :=
  fold_right (insert_by key) [] l.

(** [ordered = sorted(runners, key=sort_key)]. *)
Definition ordered (rs : list BodySystemRunner) : list BodySystemRunner :=
  sorted rs sort_key.

(** ** The results table of [main] *)

(** [enumerate(xs, start=start)]. *)
Fixpoint enumerate {A : Type} (xs : list A) (start : Z) : list (Z * A) :=
  match xs with
  | [] => []
  | x :: xs' => (start, x) :: enumerate xs' (start + 1)
  end.

(** Rounding to the nearest integer, ties to the even one: the rounding of
    float formatting. *)
Definition round_half_even (x : Q) : Z :=
  let f := Qfloor x in
  let d := x - inject_Z f in
  if d <? 1 # 2 then f
  else if (1 # 2) <? d then (f + 1)%Z
  else if Z.even f then f else (f + 1)%Z.

(** The decimal digits of a non-negative integer. *)
Definition decimal (n : Z) : string :=
  NilZero.string_of_uint (N.to_uint (Z.to_N n)).

(** [f"{x:.2f}"]: sign, integer part, point and two digits of [x] rounded
    to hundredths. *)
Definition format_2f (x : Q) : string :=
  let n := round_half_even (Qabs x * 100) in
  let cents := (n mod 100)%Z in
  (if x <? 0 then "-" else "") ++ decimal (n / 100) ++ "." ++
  (if (cents <? 10)%Z then "0" else "") ++ decimal cents.

(** [f"{r.finish_time:.2f} s" if r.finish_time is not None else "DNF"]. *)
Definition time_str (r : BodySystemRunner) : string :=
  match finish_time r with
  | Some ft => format_2f ft ++ " s"
  | None => "DNF"
  end.

(** One dict of [table_data], with its keys "Place", "Runner", "System",
    "Finish Time", "Personality" and "Ability". *)
Record TableRow : Type := mkRow {
  Place : Z;
  Runner : string;
  System : string;
  Finish_Time : string;
  Personality : string;
  Ability : string
}.

(** The loop [for idx, r in enumerate(ordered, start=1)] that fills
    [table_data]. *)
Definition table_data (runners : list BodySystemRunner) : list TableRow :=
  map (fun '(idx, r) =>
         {| Place := idx; Runner := name r; System := system r;
            Finish_Time := time_str r;
            Personality := personality r; Ability := ability r |})
      (enumerate (ordered runners) 1).

(* ================================================================== *)
(** * Vocabulary of the properties *)
(* ================================================================== *)

(** The arguments of one [update] call: [(dt, global_time, race_progress)]. *)
Definition call : Type := (Q * Q * Q)%type.

Definition call_dt (c : call) : Q := fst (fst c).

(** A sequence of [update] calls on one competitor, stopping at the first
    exception. *)
Fixpoint updates (race_distance : Q) (r : BodySystemRunner) (cs : list call)
  : result BodySystemRunner :=
  match cs with
  | [] => Ok r
  | (dt, global_time, race_progress) :: cs' =>
      r' <- update race_distance r dt global_time race_progress ;;
      updates race_distance r' cs'
  end.

(** The dynamic state of a freshly constructed competitor. *)
Definition initial (r : BodySystemRunner) : Prop :=
  position r == 0 /\ speed r == 0 /\ stamina r == stamina_max r /\
  finished r = false /\ finish_time r = None.

(** The static parameters of a competitor. *)
Definition same_static (r r' : BodySystemRunner) : Prop :=
  name r' = name r /\ system r' = system r /\ lane r' = lane r /\
  acceleration r' = acceleration r /\ top_speed r' = top_speed r /\
  stamina_max r' = stamina_max r /\ stamina_regen r' = stamina_regen r /\
  burst_multiplier r' = burst_multiplier r /\
  fatigue_factor r' = fatigue_factor r /\
  personality r' = personality r /\ ability r' = ability r.

(** The constraints the data model declares on the static parameters
    (acceleration and top speed only as far as the invariants need them). *)
Definition declared_constraints (r : BodySystemRunner) : Prop :=
  0 <= acceleration r /\ 0 < top_speed r /\ 0 < stamina_max r /\
  0 <= stamina_regen r /\ 0 <= fatigue_factor r /\ 1 <= burst_multiplier r.

(** [top_speed * max(burst_multiplier, 1.1)]. *)
Definition speed_bound (r : BodySystemRunner) : Q :=
  top_speed r * Qmax (burst_multiplier r) 1.1.

Definition in_range (r : BodySystemRunner) : Prop :=
  (0 <= stamina r /\ stamina r <= stamina_max r) /\
  (0 <= speed r /\ speed r <= speed_bound r).

(** [n] executions of the loop body in a row, the loop test left aside:
    the race as it would go on without the time cap. *)
Fixpoint iter_body (race_distance dt : Q) (n : nat) (s : LoopState)
  : result LoopState :=
  match n with
  | O => Ok s
  | S n' =>
      s' <- loop_body race_distance dt s ;; iter_body race_distance dt n' s'
  end.

(** [loop_runs n s s']: entered in state [s], the [while] loop executes its
    body exactly [n] times and exits in state [s'].  The test holds before
    each of the [n] executions and fails in [s']. *)
Inductive loop_runs (race_distance dt max_time : Q)
  : nat -> LoopState -> LoopState -> Prop :=
| loop_exit (s : LoopState) :
    loop_cond max_time s = false ->
    loop_runs race_distance dt max_time 0 s s
| loop_iter (n : nat) (s s1 s' : LoopState) :
    loop_cond max_time s = true ->
    loop_body race_distance dt s = Ok s1 ->
    loop_runs race_distance dt max_time n s1 s' ->
    loop_runs race_distance dt max_time (S n) s s'.

(** [ceil(max_time / dt)] as a number of ticks. *)
Definition max_ticks (dt max_time : Q) : nat :=
  Z.to_nat (Qceiling (max_time / dt)).

(** The number [n] of ticks as a time: [n * dt]. *)
Definition ticks_time (n : nat) (dt : Q) : Q := inject_Z (Z.of_nat n) * dt.

(** A competitor's finish record is consistent and its finish time, if set,
    lies in [0, max_time). *)
Definition timed (max_time : Q) (r : BodySystemRunner) : Prop :=
  (finished r = true -> exists ft, finish_time r = Some ft) /\
  (forall ft, finish_time r = Some ft -> 0 <= ft /\ ft < max_time).

(** The static parameters under which a competitor without positive top
    speed stays at rest: the top speed is zero, or it is negative while the
    fatigue penalty cannot exceed 1 and the burst multiplier cannot flip the
    sign of the target. *)
Definition at_rest_constraints (r : BodySystemRunner) : Prop :=
  0 <= acceleration r /\
  (top_speed r == 0 \/
   (top_speed r <= 0 /\ 0 <= burst_multiplier r /\ fatigue_factor r <= 1)).

(** ** The clock in binary64

    The clock [t] is the one variable of the race loop whose rounding could
    change the number of ticks, and it does not depend on the competitors.
    Here it is in IEEE 754 binary64, the arithmetic of Python's [float],
    for the module constants [DT = 0.1] and [MAX_RACE_TIME = 40.0]. *)

#[local] Set Warnings "-inexact-float".

(** [t] after [n] executions of [t += DT], from [t = 0.0]. *)
Fixpoint clock64 (n : nat) : float :=
  match n with
  | O => 0.0%float
  | S n' => (clock64 n' + 0.1)%float
  end.

Section Loop64.

(** The competitors, abstracted: any state, any test for "all finished",
    any loop body that returns. *)
Context {State : Type} (all_finished : State -> bool)
        (body : float -> State -> State).

(** The loop of [simulate_race] over the binary64 clock; the result counts
    the executions of the body. *)
Fixpoint while64 (fuel : nat) (t : float) (s : State)
  : option (nat * float * State) :=
  match fuel with
  | O => None
  | S fuel' =>
      if (t <? 40.0)%float && negb (all_finished s) then
        match while64 fuel' (t + 0.1)%float (body t s) with
        | Some (n, t', s') => Some (S n, t', s')
        | None => None
        end
      else Some (O, t, s)
  end.

End Loop64.

(** Competitors for the scenarios and examples. *)
Definition solo_runner : BodySystemRunner :=
  new_runner "Solo" "Test" 1 5 10 100 10 1 0 "calm" "none".
Definition still_runner : BodySystemRunner :=
  new_runner "Still" "Test" 1 5 (-10) 1 0 1 1 "calm" "none".
Definition ghost_runner : BodySystemRunner :=
  new_runner "Ghost" "Test" 1 5 (-10) 1 0 1 100 "calm" "none".


(** The trigger of the lung ability in the words of the specification:
    the floor of the position is a multiple of 20 and the position is
    positive. *)
Definition floor_trigger (r : BodySystemRunner) : bool :=
  (Qfloor (position r) mod 20 =? 0)%Z && (0 <? position r).

(** Lungster of the roster, 20 m into the race at 5 m/s. *)
Definition lungster_at_20 : BodySystemRunner :=
  set_state
    (new_runner "Lungster" "Respiratory" 2
       4.5 9.4 80.0 7.0 1.2 0.9 "aggressive" "deep_inhale")
    20 5 40 false None.

(** Two identical competitors in lanes 1 and 2 that finished on the same
    tick, and a third that did not finish. *)
Definition twin_1 : BodySystemRunner :=
  set_state (new_runner "Twin" "Test" 1 5 10 100 10 1 0 "calm" "none")
    200 8 50 true (Some 25.7).

Definition twin_2 : BodySystemRunner :=
  set_state (new_runner "Twin" "Test" 2 5 10 100 10 1 0 "calm" "none")
    200 8 50 true (Some 25.7).

Definition straggler : BodySystemRunner :=
  set_state (new_runner "Late" "Test" 3 1 2 100 10 1 0 "calm" "none")
    64 1.6 50 false None.

(** Speed and position of [solo_runner] after [k] ticks of 0.1 s, kept in
    lowest terms: the speed climbs by 0.5 per tick up to 8, the position
    advances by the new speed times 0.1. *)
Fixpoint solo_trajectory (k : nat) : Q * Q :=
  match k with
  | O => (0, 0)
  | S k' =>
      let '(v, x) := solo_trajectory k' in
      let v' := Qred (Qmin (v + 0.5) 8) in
      (v', Qred (x + v' * 0.1))
  end.

(** The static parameters that enter the arithmetic of [update]: all but
    name, system and lane. *)
Definition same_physics (r r' : BodySystemRunner) : Prop :=
  acceleration r' = acceleration r /\ top_speed r' = top_speed r /\
  stamina_max r' = stamina_max r /\ stamina_regen r' = stamina_regen r /\
  burst_multiplier r' = burst_multiplier r /\
  fatigue_factor r' = fatigue_factor r /\
  personality r' = personality r /\ ability r' = ability r.

(** [solo_runner] once more, in lane 2. *)
Definition solo_twin : BodySystemRunner :=
  new_runner "Solo" "Test" 2 5 10 100 10 1 0 "calm" "none".

(** A competitor with the physics of [solo_runner], still on its way after
    [k] ticks. *)
Definition on_the_way (k : nat) (r : BodySystemRunner) : Prop :=
  same_physics solo_runner r /\
  finished r = false /\ finish_time r = None /\
  speed r == fst (solo_trajectory k) /\
  position r == snd (solo_trajectory k).

(** The state of a race between such competitors when the loop test is
    evaluated for the [k]-th time, counting from 0. *)
Definition solo_state (k : nat) (s : LoopState) : Prop :=
  runners s <> [] /\ Forall (on_the_way k) (runners s) /\
  t s == ticks_time k DT.

(** ** Vocabulary of the further properties *)

(** The [global_time] of a call. *)
Definition call_gt (c : call) : Q := snd (fst c).

(** The time a sequence of calls advances: the sum of their [dt]. *)
Definition elapsed (cs : list call) : Q := sum (map call_dt cs).

(** A competitor whose [update] never reads [race_progress]: neither the
    "tactical" personality nor one of the two abilities that test it. *)
Definition progress_blind (r : BodySystemRunner) : Prop :=
  personality r <> "tactical" /\ ability r <> "power_burst" /\
  ability r <> "adrenaline_surge".

(** Bonestride of the roster at 7 m/s, out of stamina. *)
Definition bonestride_spent : BodySystemRunner :=
  set_state
    (new_runner "Bonestride" "Skeletal" 8
       2.4 9.1 110.0 10.0 1.1 0.6 "steady" "structural_stability")
    150 7 0 false None.

(** [solo_runner] constructed with stamina=500.0 and speed=-3.0. *)
Definition overfull_runner : BodySystemRunner :=
  set_state solo_runner 0 (-3) 500 false None.

(** The frame the loop body appends: the clock before the tick with the
    positions, stamina and speeds of the runners after it. *)
Definition snapshot (time : Q) (rs : list BodySystemRunner) : Frame :=
  {| frame_time := time;
     frame_positions := map position rs;
     frame_stamina := map stamina rs;
     frame_speeds := map speed rs |}.

(** The calls one competitor receives in a race entered at clock [t0]: one
    per tick, with the clock of the tick as global_time and the tick's
    race_progress. *)
Fixpoint tick_calls (dt t0 : Q) (ps : list Q) : list call :=
  match ps with
  | [] => []
  | p :: ps' => (dt, t0, p) :: tick_calls dt (t0 + dt) ps'
  end.

(** A competitor on the track. *)
Definition on_track (rd : Q) (r : BodySystemRunner) : Prop :=
  0 <= position r /\ position r <= rd.

(** A competitor on the track whose flag agrees with its position: while
    it is unfinished it is short of the line. *)
Definition short_of_line (rd : Q) (r : BodySystemRunner) : Prop :=
  on_track rd r /\ (finished r = false -> position r < rd).


(** No two competitors of the list have the same sort key. *)
Definition no_ties (rs : list BodySystemRunner) : Prop :=
  ForallOrdPairs (fun a b => ~ sort_key a == sort_key b) rs.

(** The race over [roster] returns the state [s]: the loop exits in [s]
    as soon as the fuel exceeds ceil(max_time / dt). *)
Definition returns (rd dt max : Q) (roster : list BodySystemRunner)
    (s : LoopState) : Prop :=
  forall fuel, (max_ticks dt max < fuel)%nat ->
    run_race rd dt max fuel roster = Some (Ok s).

(* ================================================================== *)
(** * Basic facts about the primitives *)
(* ================================================================== *)

Lemma Qltb_true (x y : Q) : (x <? y) = true <-> x < y.
Proof.
  unfold Qltb. rewrite negb_true_iff, <- not_true_iff_false, Qle_bool_iff.
  split; [apply Qnot_le_lt | apply Qlt_not_le].
Qed.

Lemma Qltb_false (x y : Q) : (x <? y) = false <-> y <= x.
Proof.
  unfold Qltb. rewrite negb_false_iff. apply Qle_bool_iff.
Qed.

Lemma Qgeb_true (x y : Q) : (x >=? y) = true <-> y <= x.
Proof. apply Qle_bool_iff. Qed.

Lemma Qgeb_false (x y : Q) : (x >=? y) = false <-> x < y.
Proof.
  unfold Qgeb. rewrite <- not_true_iff_false, Qle_bool_iff.
  split; [apply Qnot_le_lt | apply Qlt_not_le].
Qed.

(** Case analysis on the next comparison of the goal; the outcome is left as
    an order fact among the hypotheses. *)
Ltac qcase :=
  unfold Qgtb in *;
  match goal with
  | |- context [Qltb ?a ?b] =>
      let C := fresh "C" in
      destruct (Qltb a b) eqn:C;
      [apply Qltb_true in C | apply Qltb_false in C]
  | |- context [Qgeb ?a ?b] =>
      let C := fresh "C" in
      destruct (Qgeb a b) eqn:C;
      [apply Qgeb_true in C | apply Qgeb_false in C]
  end.

Ltac qcases := repeat qcase.

Lemma pymin_spec (a b : Q) :
  (b < a /\ pymin a b = b) \/ (a <= b /\ pymin a b = a).
Proof. unfold pymin. qcase; auto. Qed.

Lemma pymax_spec (a b : Q) :
  (a < b /\ pymax a b = b) \/ (b <= a /\ pymax a b = a).
Proof. unfold pymax. qcase; auto. Qed.

Lemma pymax_lower (a b : Q) : a <= pymax a b.
Proof. destruct (pymax_spec a b) as [[H ->] | [H ->]]; lra. Qed.

Lemma pydiv_Ok (x y : Q) : ~ y == 0 -> pydiv x y = Ok (x / y).
Proof.
  intros H. unfold pydiv. destruct (Qeq_bool y 0) eqn:E; [|reflexivity].
  apply Qeq_bool_iff in E. contradiction.
Qed.

Lemma div_unit_interval (x y : Q) :
  0 < y -> 0 <= x -> x <= y -> 0 <= x / y <= 1.
Proof.
  intros Hy H0 H1. split.
  - apply Qle_shift_div_l; lra.
  - apply Qle_shift_div_r; lra.
Qed.

Lemma Qmin_eq_l (a a' b : Q) : a == a' -> Qmin a b == Qmin a' b.
Proof.
  intros H.
  destruct (Q.min_spec a b) as [[? ->] | [? ->]],
           (Q.min_spec a' b) as [[? ->] | [? ->]]; lra.
Qed.

(** Case analysis on the next string test of the goal.  A test between two
    literals is evaluated; a test on a field is split, and in the equal case
    the field is replaced by the literal, which decides the later tests. *)
Ltac scase :=
  match goal with
  | |- context [(?s =? ?u)%string] =>
      let b := eval vm_compute in (s =? u)%string in
      match b with
      | true => change (s =? u)%string with true
      | false => change (s =? u)%string with false
      end
  | |- context [(?s =? ?u)%string] =>
      let E := fresh "E" in
      destruct (String.eqb_spec s u) as [E | E]; [rewrite E in * |]
  end; cbv iota.

Ltac scases := repeat scase.

(** Case analysis on every [min] and [max] of the goal and the hypotheses. *)
Ltac pym1 a b spec :=
  let H := fresh "H" in
  let E := fresh "E" in
  destruct (spec a b) as [[H E] | [H E]]; rewrite E in *; clear E.

Ltac pym :=
  repeat match goal with
  | |- context [pymin ?a ?b] => pym1 a b pymin_spec
  | |- context [pymax ?a ?b] => pym1 a b pymax_spec
  | _ : context [pymin ?a ?b] |- _ => pym1 a b pymin_spec
  | _ : context [pymax ?a ?b] |- _ => pym1 a b pymax_spec
  end.

(* ================================================================== *)
(** * The stages of [update], one lemma each *)
(* ================================================================== *)

Lemma base_target_speed_bounds (r : BodySystemRunner) (p : Q) :
  0 <= top_speed r ->
  0 <= base_target_speed r p <= top_speed r.
Proof.
  intros Htop. unfold base_target_speed.
  scases; unfold pymin; qcases; lra.
Qed.

Lemma base_target_speed_nonpos (r : BodySystemRunner) (p : Q) :
  top_speed r <= 0 -> base_target_speed r p <= 0.
Proof.
  intros Htop. unfold base_target_speed.
  scases; unfold pymin; qcases; lra.
Qed.

Lemma abilities_target_bounds (r : BodySystemRunner) (dt gt p tgt B : Q) :
  0 <= top_speed r -> 1 <= burst_multiplier r ->
  top_speed r * 1.1 <= B -> top_speed r * burst_multiplier r <= B ->
  0 <= tgt <= top_speed r ->
  0 <= snd (abilities r dt gt p tgt) <= B.
Proof.
  intros Htop Hb HB1 HB2 Ht. unfold abilities.
  assert (0 <= top_speed r * burst_multiplier r) by nra.
  scases; cbn [snd]; qcases; pym; nra.
Qed.

Lemma abilities_target_nonpos (r : BodySystemRunner) (dt gt p tgt : Q) :
  top_speed r <= 0 -> 0 <= burst_multiplier r -> tgt <= 0 ->
  snd (abilities r dt gt p tgt) <= 0.
Proof.
  intros Htop Hb Ht. unfold abilities.
  assert (top_speed r * burst_multiplier r <= 0) by nra.
  scases; cbn [snd]; qcases; pym; nra.
Qed.

Lemma abilities_deep_inhale (r : BodySystemRunner) (dt gt p tgt : Q) :
  ability r = "deep_inhale" ->
  fst (abilities r dt gt p tgt) =
    if deep_inhale_trigger r then stamina r + stamina_regen r * 3.0 * dt
    else stamina r.
Proof.
  intros E. unfold abilities. rewrite E. scases. reflexivity.
Qed.

Lemma int_floor_nonneg (x : Q) : 0 <= x -> int x = Qfloor x.
Proof.
  intros H. unfold int, Qfloor. destruct x as [n d]. cbn [Qnum Qden].
  apply Z.quot_div_nonneg; [| lia].
  unfold Qle in H. cbn in H. lia.
Qed.

Lemma deep_inhale_trigger_floor (r : BodySystemRunner) :
  deep_inhale_trigger r = floor_trigger r.
Proof.
  unfold deep_inhale_trigger, floor_trigger, Qgtb.
  destruct (0 <? position r) eqn:E.
  - apply Qltb_true in E. rewrite int_floor_nonneg by lra. reflexivity.
  - now rewrite !andb_false_r.
Qed.

Lemma stamina_mechanics_range (r : BodySystemRunner) (s sf dt : Q) :
  0 <= stamina_max r ->
  0 <= stamina_mechanics r s sf dt <= stamina_max r.
Proof.
  intros Hm. unfold stamina_mechanics. qcases; pym; lra.
Qed.

Lemma stamina_mechanics_nonneg (r : BodySystemRunner) (s sf dt : Q) :
  0 <= stamina_mechanics r s sf dt.
Proof.
  unfold stamina_mechanics.
  match goal with |- _ <= pymax ?a ?b => pose proof (pymax_lower a b) end.
  lra.
Qed.

Lemma speed_fraction_total (r : BodySystemRunner) :
  exists sf, speed_fraction r = Ok sf.
Proof.
  unfold speed_fraction. qcase; [|eauto].
  rewrite pydiv_Ok by lra. eauto.
Qed.

Lemma speed_fraction_zero (r : BodySystemRunner) :
  top_speed r <= 0 -> speed_fraction r = Ok 0.0.
Proof.
  intros H. unfold speed_fraction. qcase; [lra | reflexivity].
Qed.


(** After the clamp of stage 3 the stamina fraction exists and lies in the
    unit interval, whatever [stamina_max] is. *)
Lemma stamina_fraction_unit (r : BodySystemRunner) (s sf dt : Q) :
  exists q,
    stamina_fraction r (stamina_mechanics r s sf dt) = Ok q /\ 0 <= q <= 1.
Proof.
  unfold stamina_fraction. qcase.
  - rewrite pydiv_Ok by lra. eexists; split; [reflexivity|].
    pose proof (stamina_mechanics_range r s sf dt).
    apply div_unit_interval; lra.
  - eexists; split; [reflexivity | lra].
Qed.

Lemma fatigue_bounds (r : BodySystemRunner) (tgt stf B : Q) :
  0 <= fatigue_factor r -> 0 <= stf <= 1 ->
  0 <= tgt <= B -> 0.9 * 0.85 * top_speed r <= B ->
  0 <= fatigue r tgt stf <= B.
Proof.
  intros Hff Hs Ht HB. unfold fatigue.
  assert (HP : 0 <= (1.0 - stf) * fatigue_factor r) by nra.
  assert (0 <= tgt * ((1.0 - stf) * fatigue_factor r)) by nra.
  scases; pym; nra.
Qed.

Lemma fatigue_zero (r : BodySystemRunner) (tgt stf : Q) :
  top_speed r <= 0 -> fatigue_factor r <= 1 -> 0 <= stf <= 1 -> tgt <= 0 ->
  fatigue r tgt stf == 0.
Proof.
  intros Htop Hff Hs Ht. unfold fatigue.
  assert (HP : (1.0 - stf) * fatigue_factor r <= 1) by nra.
  assert (0 <= - tgt * (1 - (1.0 - stf) * fatigue_factor r)) by nra.
  assert (0 <= - tgt * (1 - (1.0 - stf) * fatigue_factor r * 0.4)) by nra.
  scases; pym; nra.
Qed.

Lemma move_toward_nonneg (r : BodySystemRunner) (eff dt : Q) :
  0 <= move_toward r eff dt.
Proof.
  unfold move_toward.
  match goal with |- _ <= pymax ?a ?b => pose proof (pymax_lower a b) end.
  lra.
Qed.

Lemma move_toward_bounds (r : BodySystemRunner) (eff dt B : Q) :
  0 <= acceleration r -> 0 <= dt ->
  speed r <= B -> 0 <= eff <= B ->
  0 <= move_toward r eff dt <= B.
Proof.
  intros Ha Hdt Hs He. unfold move_toward.
  assert (0 <= acceleration r * dt) by nra.
  assert (0 <= acceleration r * 1.3 * dt) by nra.
  qcases; pym; lra.
Qed.

Lemma move_toward_zero (r : BodySystemRunner) (eff dt : Q) :
  0 <= acceleration r -> 0 <= dt -> speed r == 0 -> eff == 0 ->
  move_toward r eff dt == 0.
Proof.
  intros Ha Hdt Hs He. unfold move_toward.
  assert (0 <= acceleration r * 1.3 * dt) by nra.
  qcases; pym; lra.
Qed.

(* ================================================================== *)
(** * One call of [update] *)
(* ================================================================== *)

Lemma update_finished (rd : Q) (r : BodySystemRunner) (dt gt p : Q) :
  finished r = true -> update rd r dt gt p = Ok r.
Proof. intros H. unfold update. rewrite H. reflexivity. Qed.

(** Symbolic execution of [update] on an unfinished runner: both divisions
    succeed and the result is one of the two records of stage 6. *)
Lemma update_unfinished (rd : Q) (r : BodySystemRunner) (dt gt p : Q) :
  finished r = false ->
  exists sf stf : Q,
    let ab := abilities r dt gt p (base_target_speed r p) in
    let st := stamina_mechanics r (fst ab) sf dt in
    let sp := move_toward r (fatigue r (snd ab) stf) dt in
    let pos := position r + sp * dt in
    speed_fraction r = Ok sf /\
    stamina_fraction r st = Ok stf /\ 0 <= stf <= 1 /\
    update rd r dt gt p =
      Ok (if pos >=? rd
          then set_state r rd sp st true (Some gt)
          else set_state r pos sp st false (finish_time r)).
Proof.
  intros Hf.
  destruct (speed_fraction_total r) as [sf Hsf].
  destruct (stamina_fraction_unit r
              (fst (abilities r dt gt p (base_target_speed r p))) sf dt)
    as [stf [Hstf Hunit]].
  exists sf, stf. cbv zeta. repeat split; try assumption; try apply Hunit.
  unfold update. rewrite Hf.
  destruct (abilities r dt gt p (base_target_speed r p)) as [s1 tg] eqn:Eab.
  cbn [fst snd] in *. rewrite Hsf. cbn [bind]. rewrite Hstf. cbn [bind].
  destruct (_ >=? rd); reflexivity.
Qed.

(** [update] never raises. *)
Lemma update_total (rd : Q) (r : BodySystemRunner) (dt gt p : Q) :
  exists r', update rd r dt gt p = Ok r'.
Proof.
  destruct (finished r) eqn:Hf.
  - exists r. now apply update_finished.
  - destruct (update_unfinished rd r dt gt p Hf) as (sf & stf & H).
    cbv zeta in H. destruct H as (_ & _ & _ & H). eauto.
Qed.

Lemma same_static_refl (r : BodySystemRunner) : same_static r r.
Proof. repeat split. Qed.

Lemma same_static_set_state (r : BodySystemRunner) (x v s : Q) (f : bool)
    (ft : option Q) :
  same_static r (set_state r x v s f ft).
Proof. repeat split. Qed.

Lemma update_same_static (rd : Q) (r r' : BodySystemRunner) (dt gt p : Q) :
  update rd r dt gt p = Ok r' -> same_static r r'.
Proof.
  intros H. destruct (finished r) eqn:Hf.
  - rewrite update_finished in H by assumption. inversion H; subst.
    apply same_static_refl.
  - destruct (update_unfinished rd r dt gt p Hf) as (sf & stf & H').
    cbv zeta in H'. destruct H' as (_ & _ & _ & H'). rewrite H' in H.
    inversion H; subst. destruct (_ >=? rd); apply same_static_set_state.
Qed.

Lemma same_static_trans (a b c : BodySystemRunner) :
  same_static a b -> same_static b c -> same_static a c.
Proof.
  unfold same_static.
  intros (A1 & A2 & A3 & A4 & A5 & A6 & A7 & A8 & A9 & A10 & A11)
         (B1 & B2 & B3 & B4 & B5 & B6 & B7 & B8 & B9 & B10 & B11).
  repeat split; congruence.
Qed.

(** An unfinished runner comes out of [update] as one of two [set_state]
    records; this names the parts and leaves the final test to the caller. *)
Ltac run_update rd r dt gt p Hf :=
  let sf := fresh "sf" in
  let stf := fresh "stf" in
  let Hsf := fresh "Hsf" in
  let Hstf := fresh "Hstf" in
  let Hunit := fresh "Hunit" in
  let Hup := fresh "Hup" in
  destruct (update_unfinished rd r dt gt p Hf)
    as (sf & stf & Hsf & Hstf & Hunit & Hup);
  cbv zeta in Hstf, Hup.

(* ================================================================== *)
(** * Sequences of calls *)
(* ================================================================== *)

(** Invariants of single calls carry over to every sequence of calls, and
    the sequence never raises. *)
Lemma updates_invariant (P : BodySystemRunner -> Prop) (rd : Q) :
  (forall r dt gt p, P r -> 0 < dt ->
     exists r', update rd r dt gt p = Ok r' /\ P r') ->
  forall cs r, P r -> Forall (fun c => 0 < call_dt c) cs ->
    exists r', updates rd r cs = Ok r' /\ P r'.
Proof.
  intros Hstep. induction cs as [| [[dt gt] p] cs IH]; intros r HP Hcs.
  - exists r. split; [reflexivity | assumption].
  - inversion Hcs as [| c cs' Hdt Hcs']; subst. cbn in Hdt.
    destruct (Hstep r dt gt p HP Hdt) as (r1 & Hr1 & HP1).
    destruct (IH r1 HP1 Hcs') as (r' & Hr' & HP').
    exists r'. split; [|assumption].
    cbn [updates]. rewrite Hr1. exact Hr'.
Qed.

Lemma updates_same_static (rd : Q) (cs : list call) :
  forall r r', updates rd r cs = Ok r' -> same_static r r'.
Proof.
  induction cs as [| [[dt gt] p] cs IH]; intros r r' H; cbn [updates] in H.
  - inversion H; subst. apply same_static_refl.
  - destruct (update rd r dt gt p) as [r1 | e] eqn:E; cbn [bind] in H;
      [| discriminate].
    eapply same_static_trans; [eapply update_same_static; exact E | eauto].
Qed.

Lemma declared_constraints_same_static (r r' : BodySystemRunner) :
  same_static r r' -> declared_constraints r -> declared_constraints r'.
Proof.
  unfold same_static, declared_constraints.
  intros (_ & _ & _ & -> & -> & -> & -> & -> & -> & _) H. exact H.
Qed.

Lemma speed_bound_same_static (r r' : BodySystemRunner) :
  same_static r r' -> speed_bound r' = speed_bound r.
Proof.
  unfold same_static, speed_bound.
  intros (_ & _ & _ & _ & -> & _ & _ & -> & _). reflexivity.
Qed.

(** What the bound dominates. *)
Lemma speed_bound_dominates (r : BodySystemRunner) :
  0 <= top_speed r ->
  top_speed r * 1.1 <= speed_bound r /\
  top_speed r * burst_multiplier r <= speed_bound r /\
  0.9 * 0.85 * top_speed r <= speed_bound r.
Proof.
  intros Htop. unfold speed_bound.
  pose proof (Q.le_max_l (burst_multiplier r) 1.1).
  pose proof (Q.le_max_r (burst_multiplier r) 1.1).
  repeat split; nra.
Qed.

(** One call keeps stamina and speed in their ranges. *)
Lemma update_in_range (rd : Q) (r : BodySystemRunner) (dt gt p : Q) :
  declared_constraints r /\ in_range r -> 0 < dt ->
  exists r', update rd r dt gt p = Ok r' /\
             (declared_constraints r' /\ in_range r').
Proof.
  intros [Hc Hr] Hdt. destruct (finished r) eqn:Hf.
  - exists r. split; [now apply update_finished | now split].
  - run_update rd r dt gt p Hf.
    eexists. split; [exact Hup|].
    pose proof Hc as (Ha & Htop & Hsm & Hreg & Hff & Hb).
    destruct Hr as [_ [Hv0 Hv1]].
    destruct (speed_bound_dominates r) as (B1 & B2 & B3); [lra|].
    set (ab := abilities r dt gt p (base_target_speed r p)) in *.
    assert (Htg : 0 <= snd ab <= speed_bound r).
    { apply abilities_target_bounds; try lra.
      apply base_target_speed_bounds; lra. }
    assert (Heff : 0 <= fatigue r (snd ab) stf <= speed_bound r).
    { apply fatigue_bounds; try lra. }
    pose proof (move_toward_bounds r (fatigue r (snd ab) stf) dt
                  (speed_bound r)) as Hmv.
    pose proof (stamina_mechanics_range r (fst ab) sf dt) as Hst.
    assert (Hin : forall x f ft,
               in_range (set_state r x
                           (move_toward r (fatigue r (snd ab) stf) dt)
                           (stamina_mechanics r (fst ab) sf dt) f ft)).
    { intros x f ft. unfold in_range, speed_bound. cbn.
      fold (speed_bound r). split; [apply Hst | apply Hmv]; lra. }
    destruct (_ >=? rd); (split; [| apply Hin]);
      (eapply declared_constraints_same_static;
       [apply same_static_set_state | exact Hc]).
Qed.

Lemma initial_in_range (r : BodySystemRunner) :
  declared_constraints r -> initial r -> in_range r.
Proof.
  intros (Ha & Htop & Hsm & Hreg & Hff & Hb) (Hx & Hv & Hs & _).
  destruct (speed_bound_dominates r) as (B1 & B2 & B3); [lra|].
  unfold in_range. rewrite Hv, Hs. repeat split; lra.
Qed.

(** One call moves a runner that is on the track forward, and keeps it on
    the track. *)
Lemma update_position (rd : Q) (r : BodySystemRunner) (dt gt p : Q) :
  position r <= rd -> 0 < dt ->
  exists r', update rd r dt gt p = Ok r' /\
             position r <= position r' /\ position r' <= rd.
Proof.
  intros Hx Hdt. destruct (finished r) eqn:Hf.
  - exists r. split; [now apply update_finished | lra].
  - run_update rd r dt gt p Hf.
    eexists. split; [exact Hup|].
    set (sp := move_toward r _ dt) in *.
    pose proof (move_toward_nonneg r
      (fatigue r (snd (abilities r dt gt p (base_target_speed r p))) stf) dt)
      as Hsp.
    fold sp in Hsp. assert (0 <= sp * dt) by nra.
    qcase; cbn; lra.
Qed.

(* ================================================================== *)
(** * The single-tick update: ranges, monotonicity, frame *)
(* ================================================================== *)






(** Every state reached from a fresh competitor on a track of non-negative
    length is on the track: positions never decrease all along a race. *)
Lemma updates_on_track (rd : Q) (r : BodySystemRunner) (cs : list call) :
  0 <= rd -> initial r -> Forall (fun c => 0 < call_dt c) cs ->
  exists r', updates rd r cs = Ok r' /\ position r' <= rd.
Proof.
  intros Hrd (Hx & _) Hcs.
  apply (updates_invariant (fun x => position x <= rd)); try assumption.
  - intros x dt gt p Hp Hdt.
    destruct (update_position rd x dt gt p Hp Hdt) as (x' & Hx' & _ & Hle).
    eauto.
  - cbv beta. lra.
Qed.


(** C5.  Once [finished] is true, [update] returns the competitor as it
    was, for any arguments: position, speed, stamina, [finished] and
    [finish_time] are unchanged. *)
Theorem update_is_noop_once_finished
    (rd : Q) (r : BodySystemRunner) (dt gt p : Q) :
  finished r = true ->
  exists r', update rd r dt gt p = Ok r' /\
    position r' = position r /\ speed r' = speed r /\
    stamina r' = stamina r /\ finished r' = finished r /\
    finish_time r' = finish_time r.
Proof.
  intros Hf. exists r. split; [now apply update_finished |].
  repeat split.
Qed.

Lemma update_is_noop_once_finished_witness :
  finished (set_state solo_runner 200 8 50 true (Some 25.7)) = true /\
  exists r',
    update 200 (set_state solo_runner 200 8 50 true (Some 25.7)) 0.1 30 1
      = Ok r' /\
    position r' = position (set_state solo_runner 200 8 50 true (Some 25.7)) /\
    speed r' = speed (set_state solo_runner 200 8 50 true (Some 25.7)) /\
    stamina r' = stamina (set_state solo_runner 200 8 50 true (Some 25.7)) /\
    finished r' = finished (set_state solo_runner 200 8 50 true (Some 25.7)) /\
    finish_time r' =
      finish_time (set_state solo_runner 200 8 50 true (Some 25.7)).
Proof.
  split; [reflexivity |].
  exact (update_is_noop_once_finished 200
           (set_state solo_runner 200 8 50 true (Some 25.7)) 0.1 30 1
           eq_refl).
Defined.

Lemma base_target_speed_zero (r : BodySystemRunner) (p : Q) :
  top_speed r == 0 -> base_target_speed r p == 0.
Proof.
  intros Htop. unfold base_target_speed.
  scases; unfold pymin; qcases; lra.
Qed.

Lemma abilities_target_zero (r : BodySystemRunner) (dt gt p tgt : Q) :
  top_speed r == 0 -> tgt == 0 -> snd (abilities r dt gt p tgt) == 0.
Proof.
  intros Htop Ht. unfold abilities.
  assert (top_speed r * burst_multiplier r == 0) by (rewrite Htop; ring).
  assert (tgt * burst_multiplier r == 0) by (rewrite Ht; ring).
  scases; cbn [snd]; qcases; pym; lra.
Qed.

Lemma fatigue_zero_target (r : BodySystemRunner) (tgt stf : Q) :
  top_speed r == 0 -> tgt == 0 -> fatigue r tgt stf == 0.
Proof.
  intros Htop Ht. unfold fatigue.
  assert (tgt * (1.0 - (1.0 - stf) * fatigue_factor r) == 0)
    by (rewrite Ht; ring).
  assert (tgt * (1.0 - (1.0 - stf) * fatigue_factor r * 0.4) == 0)
    by (rewrite Ht; ring).
  scases; pym; lra.
Qed.

(** Without positive top speed, one call leaves a standing runner standing. *)
Lemma update_stays_still (rd : Q) (r : BodySystemRunner) (dt gt p : Q) :
  top_speed r <= 0 -> at_rest_constraints r ->
  speed r == 0 -> 0 < dt ->
  exists r', update rd r dt gt p = Ok r' /\ speed r' == 0.
Proof.
  intros Htop [Ha Hc] Hv Hdt. destruct (finished r) eqn:Hf.
  - exists r. split; [now apply update_finished | assumption].
  - run_update rd r dt gt p Hf.
    eexists. split; [exact Hup|].
    set (ab := abilities r dt gt p (base_target_speed r p)) in *.
    assert (Heff : fatigue r (snd ab) stf == 0).
    { destruct Hc as [Hz | (_ & Hb & Hff)].
      - apply fatigue_zero_target; [assumption|].
        apply abilities_target_zero; [assumption|].
        now apply base_target_speed_zero.
      - apply fatigue_zero; try assumption.
        apply abilities_target_nonpos; try assumption.
        now apply base_target_speed_nonpos. }
    assert (Hz : move_toward r (fatigue r (snd ab) stf) dt == 0).
    { apply move_toward_zero; lra. }
    destruct (_ >=? rd); cbn; exact Hz.
Qed.

Lemma at_rest_constraints_same_static (r r' : BodySystemRunner) :
  same_static r r' -> top_speed r <= 0 /\ at_rest_constraints r ->
  top_speed r' <= 0 /\ at_rest_constraints r'.
Proof.
  unfold same_static, at_rest_constraints.
  intros (_ & _ & _ & -> & -> & _ & _ & -> & -> & _) H. exact H.
Qed.

(* ================================================================== *)
(** * Non-positive top speed *)
(* ================================================================== *)

(** C8, as the code has it.  Take a competitor with top_speed <= 0 and
    acceleration >= 0 whose top speed is exactly 0, or else whose burst
    multiplier is not negative and whose fatigue factor is at most 1.  Every
    sequence of [update] calls with dt > 0 from the initial state returns;
    the speed after it is 0, and the speed fraction the next call computes
    is 0. *)
Theorem non_positive_top_speed_stands_still
    (rd : Q) (r : BodySystemRunner) (cs : list call) :
  top_speed r <= 0 -> at_rest_constraints r ->
  initial r -> Forall (fun c => 0 < call_dt c) cs ->
  exists r', updates rd r cs = Ok r' /\
             speed r' == 0 /\ speed_fraction r' = Ok 0.0.
Proof.
  intros Htop Hc (_ & Hv & _) Hcs.
  assert (Hinv : exists r', updates rd r cs = Ok r' /\
            ((top_speed r' <= 0 /\ at_rest_constraints r') /\ speed r' == 0)).
  { apply (updates_invariant
      (fun x => (top_speed x <= 0 /\ at_rest_constraints x) /\ speed x == 0)
      rd); [| exact (conj (conj Htop Hc) Hv) | assumption].
    intros x dt gt p ((H1 & H2) & H3) Hdt.
    destruct (update_stays_still rd x dt gt p H1 H2 H3 Hdt)
      as (x' & Hx' & Hz).
    exists x'. split; [assumption|]. split; [| assumption].
    eapply at_rest_constraints_same_static;
      [eapply update_same_static; exact Hx' | now split]. }
  destruct Hinv as (r' & Hr' & (Htop' & _) & Hv').
  exists r'. repeat split; try assumption.
  now apply speed_fraction_zero.
Qed.

Lemma non_positive_top_speed_stands_still_witness :
  (top_speed still_runner <= 0 /\ at_rest_constraints still_runner /\
   initial still_runner /\
   Forall (fun c => 0 < call_dt c) [(0.1, 0, 0); (0.1, 0.1, 0)]) /\
  exists r',
    updates 200 still_runner [(0.1, 0, 0); (0.1, 0.1, 0)] = Ok r' /\
    speed r' == 0 /\ speed_fraction r' = Ok 0.0.
Proof.
  assert (H1 : top_speed still_runner <= 0) by (vm_compute; discriminate).
  assert (H2 : at_rest_constraints still_runner).
  { split; [vm_compute; discriminate |]. right.
    repeat split; vm_compute; discriminate. }
  assert (H3 : initial still_runner) by (vm_compute; repeat split).
  assert (H4 : Forall (fun c => 0 < call_dt c) [(0.1, 0, 0); (0.1, 0.1, 0)])
    by (repeat constructor).
  split; [exact (conj H1 (conj H2 (conj H3 H4))) |].
  exact (non_positive_top_speed_stands_still 200 _ _ H1 H2 H3 H4).
Defined.

(** C8, as stated, fails: a competitor with top_speed = -10 and fatigue
    factor 100 (all declared constraints but the one on top_speed hold) has
    speed 0.5 after its first [update].  The fatigue penalty exceeds 1, so
    the negative target speed is multiplied by a negative number and the
    effective target is 32. *)
Lemma negative_top_speed_runner_moves :
  top_speed ghost_runner <= 0 /\ initial ghost_runner /\
  exists r', updates 200 ghost_runner [(0.1, 0, 0)] = Ok r' /\
             speed r' == 0.5 /\ ~ speed r' == 0.
Proof.
  split; [vm_compute; discriminate |].
  split; [vm_compute; repeat split |].
  eexists. split; [vm_compute; reflexivity |].
  split; [vm_compute; reflexivity | vm_compute; discriminate].
Qed.

(* ================================================================== *)
(** * [sorted]: permutation, order, stability *)
(* ================================================================== *)

Section Sorted.

Context {A : Type} (key : A -> Q).

Lemma insert_by_perm (x : A) (l : list A) :
  Permutation (insert_by key x l) (x :: l).
Proof.
  induction l as [| y l IH]; cbn [insert_by]; [reflexivity|].
  destruct (key y <? key x); [| reflexivity].
  rewrite IH. apply perm_swap.
Qed.

Lemma sorted_perm (l : list A) : Permutation (sorted l key) l.
Proof.
  induction l as [| x l IH]; cbn; [reflexivity|].
  fold (sorted l key). rewrite insert_by_perm. now constructor.
Qed.

Lemma insert_by_sorted (x : A) (l : list A) :
  StronglySorted (fun a b => key a <= key b) l ->
  StronglySorted (fun a b => key a <= key b) (insert_by key x l).
Proof.
  induction 1 as [| y l Hl IH Hy]; cbn [insert_by].
  - repeat constructor.
  - qcase.
    + constructor; [exact IH|].
      eapply Permutation_Forall; [symmetry; apply insert_by_perm|].
      constructor; [lra | exact Hy].
    + constructor; [constructor; assumption|].
      constructor; [exact C|].
      eapply Forall_impl; [| exact Hy]. cbv beta. intros; lra.
Qed.

Lemma sorted_sorted (l : list A) :
  StronglySorted (fun a b => key a <= key b) (sorted l key).
Proof.
  induction l as [| x l IH]; cbn; [constructor|].
  now apply insert_by_sorted.
Qed.

(** Stability: elements of equal key come out in the order they went in. *)
Lemma insert_by_filter (k : Q) (x : A) (l : list A) :
  filter (fun a => Qeq_bool (key a) k) (insert_by key x l) =
  filter (fun a => Qeq_bool (key a) k) (x :: l).
Proof.
  induction l as [| y l IH]; cbn [insert_by]; [reflexivity|].
  qcase; [| reflexivity].
  cbn [filter] in *. rewrite IH.
  destruct (Qeq_bool (key y) k) eqn:Ey, (Qeq_bool (key x) k) eqn:Ex;
    try reflexivity.
  apply Qeq_bool_iff in Ey, Ex. lra.
Qed.

Lemma sorted_stable (k : Q) (l : list A) :
  filter (fun a => Qeq_bool (key a) k) (sorted l key) =
  filter (fun a => Qeq_bool (key a) k) l.
Proof.
  induction l as [| x l IH]; cbn [sorted fold_right]; [reflexivity|].
  fold (sorted l key). rewrite insert_by_filter. cbn [filter].
  now rewrite IH.
Qed.

(** The contract determines the function: two lists that are ordered by key
    and hold, for every key value, the same elements in the same order are
    equal.  Any stable sort therefore returns what [sorted] returns. *)
Lemma stable_sort_unique (l1 l2 : list A) :
  StronglySorted (fun a b => key a <= key b) l1 ->
  StronglySorted (fun a b => key a <= key b) l2 ->
  (forall k, filter (fun a => Qeq_bool (key a) k) l1 =
             filter (fun a => Qeq_bool (key a) k) l2) ->
  l1 = l2.
Proof.
  intros H1. revert l2.
  induction H1 as [| x l1 Hs1 IH Hx]; intros l2 H2 Hf.
  - destruct l2 as [| y l2]; [reflexivity|].
    specialize (Hf (key y)). cbn in Hf. rewrite Qeq_bool_refl in Hf.
    discriminate.
  - destruct H2 as [| y l2 Hs2 Hy].
    + specialize (Hf (key x)). cbn in Hf. rewrite Qeq_bool_refl in Hf.
      discriminate.
    + assert (Hk : key x == key y).
      { apply Qle_antisym.
        - pose proof (Hf (key y)) as E. cbn [filter] in E.
          rewrite (Qeq_bool_refl (key y)) in E.
          destruct (Qeq_bool (key x) (key y)) eqn:Exy;
            [apply Qeq_bool_iff in Exy; lra|].
          assert (Hin : In y (filter (fun a => Qeq_bool (key a) (key y)) l1))
            by (rewrite E; left; reflexivity).
          apply filter_In in Hin. destruct Hin as [Hin _].
          rewrite Forall_forall in Hx. apply Hx. exact Hin.
        - pose proof (Hf (key x)) as E. cbn [filter] in E.
          rewrite (Qeq_bool_refl (key x)) in E.
          destruct (Qeq_bool (key y) (key x)) eqn:Eyx;
            [apply Qeq_bool_iff in Eyx; lra|].
          assert (Hin : In x (filter (fun a => Qeq_bool (key a) (key x)) l2))
            by (rewrite <- E; left; reflexivity).
          apply filter_In in Hin. destruct Hin as [Hin _].
          rewrite Forall_forall in Hy. apply Hy. exact Hin. }
      assert (Hxy : x = y).
      { pose proof (Hf (key x)) as E. cbn [filter] in E.
        rewrite (Qeq_bool_refl (key x)) in E.
        rewrite (Qeq_eq_bool (key y) (key x)) in E by (symmetry; exact Hk).
        now inversion E. }
      subst y. f_equal. apply IH; [assumption|].
      intros k. specialize (Hf k). cbn [filter] in Hf.
      destruct (Qeq_bool (key x) k); [now inversion Hf | assumption].
Qed.

Lemma sorted_is_the_stable_sort (l l' : list A) :
  StronglySorted (fun a b => key a <= key b) l' ->
  (forall k, filter (fun a => Qeq_bool (key a) k) l' =
             filter (fun a => Qeq_bool (key a) k) l) ->
  l' = sorted l key.
Proof.
  intros Hs Hf. apply stable_sort_unique; [assumption | apply sorted_sorted |].
  intros k. rewrite Hf. symmetry. apply sorted_stable.
Qed.

End Sorted.

Lemma StronglySorted_nth {A : Type} (R : A -> A -> Prop) (l : list A) :
  StronglySorted R l ->
  forall i j a b, (i < j)%nat ->
    nth_error l i = Some a -> nth_error l j = Some b -> R a b.
Proof.
  induction 1 as [| x l Hl IH Hx]; intros i j a b Hij Hi Hj.
  - destruct i; discriminate.
  - destruct j as [| j]; [lia|]. cbn in Hj.
    destruct i as [| i]; cbn in Hi.
    + inversion Hi; subst. rewrite Forall_forall in Hx.
      apply Hx. eapply nth_error_In; eassumption.
    + apply (IH i j); [lia | assumption | assumption].
Qed.

(** In a ranking, keys never decrease from one place to the next. *)
Lemma ranking_keys_ordered (rs : list BodySystemRunner) (i j : nat)
    (a b : BodySystemRunner) :
  (i < j)%nat ->
  nth_error (ordered rs) i = Some a -> nth_error (ordered rs) j = Some b ->
  sort_key a <= sort_key b.
Proof.
  apply (StronglySorted_nth (fun a b => sort_key a <= sort_key b)).
  apply sorted_sorted.
Qed.

(** An unfinished competitor sorts after every competitor whose finish time
    is below the sentinel. *)
Lemma unfinished_after_finished (rs : list BodySystemRunner) (i j : nat)
    (a b : BodySystemRunner) (fb : Q) :
  nth_error (ordered rs) i = Some a -> nth_error (ordered rs) j = Some b ->
  finish_time a = None -> finish_time b = Some fb -> fb < 1e9 ->
  (j < i)%nat.
Proof.
  intros Hi Hj Ha Hb Hfb.
  destruct (Nat.lt_trichotomy i j) as [Hlt | [Heq | Hgt]]; [| | assumption].
  - pose proof (ranking_keys_ordered rs i j a b Hlt Hi Hj) as Hk.
    unfold sort_key in Hk. rewrite Ha, Hb in Hk. lra.
  - subst j. rewrite Hi in Hj. inversion Hj; subst. congruence.
Qed.

(* ================================================================== *)
(** * The race loop *)
(* ================================================================== *)

Lemma mapM_total {A B : Type} (f : A -> result B) (l : list A) :
  (forall a, exists b, f a = Ok b) ->
  exists bs, mapM f l = Ok bs.
Proof.
  intros Hf. induction l as [| a l [bs IH]]; cbn [mapM]; [eauto|].
  destruct (Hf a) as [b Hb]. rewrite Hb, IH. cbn [bind]. eauto.
Qed.

Lemma mapM_Forall2 {A B : Type} (f : A -> result B) (l : list A) :
  forall bs, mapM f l = Ok bs -> Forall2 (fun a b => f a = Ok b) l bs.
Proof.
  induction l as [| a l IH]; cbn [mapM]; intros bs H.
  - inversion H. constructor.
  - destruct (f a) as [b | e] eqn:Ea; cbn [bind] in H; [| discriminate].
    destruct (mapM f l) as [bs' | e] eqn:El; cbn [bind] in H;
      [| discriminate].
    inversion H; subst. constructor; auto.
Qed.

Lemma inject_nat_pos (n : nat) : (0 < n)%nat -> 0 < inject_Z (Z.of_nat n).
Proof.
  intros H. change 0 with (inject_Z 0). rewrite <- Zlt_Qlt. lia.
Qed.

Lemma ticks_time_le (k n : nat) (dt : Q) :
  0 <= dt -> (k <= n)%nat -> ticks_time k dt <= ticks_time n dt.
Proof.
  intros Hdt Hk. unfold ticks_time. apply Qmult_le_compat_r; [| assumption].
  rewrite <- Zle_Qle. lia.
Qed.

Section RaceLoopFacts.

Variables rd dt max : Q.

Lemma loop_cond_true (s : LoopState) :
  loop_cond max s = true <->
  t s < max /\ all (map finished (runners s)) = false.
Proof.
  unfold loop_cond. rewrite andb_true_iff, negb_true_iff, Qltb_true.
  reflexivity.
Qed.

Lemma loop_cond_false (s : LoopState) :
  loop_cond max s = false <->
  max <= t s \/ all (map finished (runners s)) = true.
Proof.
  unfold loop_cond. rewrite andb_false_iff, negb_false_iff, Qltb_false.
  reflexivity.
Qed.

Lemma all_nil_true (rs : list BodySystemRunner) :
  all (map finished rs) = false -> rs <> [].
Proof. intros H E. subst. discriminate. Qed.

(** With at least one runner, neither division of the progress raises. *)
Lemma race_progress_total (rs : list BodySystemRunner) :
  rs <> [] -> exists p, race_progress rd rs = Ok p.
Proof.
  intros Hne. unfold race_progress.
  rewrite pydiv_Ok.
  - cbn [bind]. qcase; [| eauto]. rewrite pydiv_Ok by lra. eauto.
  - destruct rs as [| r rs]; [contradiction|].
    cbn [length]. intros H.
    pose proof (inject_nat_pos (S (length rs)) ltac:(lia)). lra.
Qed.


(** The body of the loop on a non-empty roster: it returns, every runner
    has been updated with the same arguments, one frame has been appended
    and the clock has advanced by [dt]. *)
Lemma loop_body_total (s : LoopState) :
  runners s <> [] ->
  exists p rs f,
    loop_body rd dt s =
      Ok {| runners := rs; t := t s + dt; frames := frames s ++ [f] |} /\
    frame_time f = t s /\
    Forall2 (fun r r' => update rd r dt (t s) p = Ok r') (runners s) rs.
Proof.
  intros Hne. unfold loop_body.
  destruct (race_progress_total (runners s) Hne) as [p Hp].
  rewrite Hp. cbn [bind]. unfold update_all.
  destruct (mapM_total (fun r => update rd r dt (t s) p) (runners s))
    as [rs Hrs]; [intros r; apply update_total|].
  rewrite Hrs. cbn [bind].
  exists p, rs. eexists. split; [reflexivity|]. split; [reflexivity|].
  now apply mapM_Forall2.
Qed.

(** ** Fuel *)

Lemma loop_runs_while (n : nat) (s s' : LoopState) :
  loop_runs rd dt max n s s' ->
  forall fuel, (n < fuel)%nat -> while_loop rd dt max fuel s = Some (Ok s').
Proof.
  induction 1 as [s Hc | n s s1 s' Hc Hb _ IH]; intros fuel Hfuel;
    (destruct fuel as [| fuel]; [lia|]); cbn [while_loop]; rewrite Hc.
  - reflexivity.
  - rewrite Hb. apply IH. lia.
Qed.

Lemma loop_runs_iter (n : nat) (s s' : LoopState) :
  loop_runs rd dt max n s s' -> iter_body rd dt n s = Ok s'.
Proof.
  induction 1 as [s Hc | n s s1 s' Hc Hb _ IH]; cbn [iter_body].
  - reflexivity.
  - rewrite Hb. exact IH.
Qed.


(** ** Clock and frames *)

Lemma ticks_time_S (n : nat) : ticks_time (S n) dt == ticks_time n dt + dt.
Proof.
  unfold ticks_time. rewrite Nat2Z.inj_succ. unfold Z.succ.
  rewrite inject_Z_plus. ring.
Qed.

Lemma loop_runs_clock (n : nat) (s s' : LoopState) :
  loop_runs rd dt max n s s' ->
  t s' == t s + ticks_time n dt /\
  length (frames s') = (length (frames s) + n)%nat /\
  length (runners s') = length (runners s).
Proof.
  induction 1 as [s Hc | n s s1 s' Hc Hb _ IH].
  - unfold ticks_time. cbn. split; [ring | split; lia].
  - apply loop_cond_true in Hc. destruct Hc as [_ Hc].
    destruct (loop_body_total s (all_nil_true _ Hc))
      as (p & rs & f & Hb' & _ & Hrs).
    rewrite Hb' in Hb. inversion Hb; subst s1. cbn [t frames runners] in IH.
    destruct IH as (IH1 & IH2 & IH3).
    rewrite ticks_time_S. split; [rewrite IH1; ring|].
    rewrite IH2, IH3, length_app. cbn [length].
    split; [lia|]. symmetry. eapply Forall2_length; eassumption.
Qed.

(** ** The cap on the number of ticks *)

Lemma max_ticks_reaches_cap : 0 < dt -> max <= ticks_time (max_ticks dt max) dt.
Proof.
  intros Hdt. unfold ticks_time, max_ticks.
  pose proof (Qle_ceiling (max / dt)) as Hc.
  assert (Hz : inject_Z (Qceiling (max / dt)) <=
               inject_Z (Z.of_nat (Z.to_nat (Qceiling (max / dt))))).
  { rewrite <- Zle_Qle. lia. }
  assert (Hm : max == max / dt * dt) by (field; lra).
  rewrite Hm at 1. apply Qmult_le_compat_r; lra.
Qed.



(** From a state whose clock shows [k] ticks, the loop exits after at most
    [m] more iterations as soon as [k + m] reaches the cap. *)
Lemma loop_terminates_from (m : nat) :
  0 < dt ->
  forall (k : nat) (s : LoopState),
    t s == ticks_time k dt -> (max_ticks dt max <= k + m)%nat ->
    exists n s', (n <= m)%nat /\ loop_runs rd dt max n s s'.
Proof.
  intros Hdt. induction m as [| m IH]; intros k s Ht Hk.
  - exists 0%nat, s. split; [lia|]. constructor.
    apply loop_cond_false. left. rewrite Ht.
    pose proof max_ticks_reaches_cap Hdt as Hcap.
    assert (Hle : ticks_time (max_ticks dt max) dt <= ticks_time k dt).
    { unfold ticks_time. apply Qmult_le_compat_r; [| lra].
      rewrite <- Zle_Qle. lia. }
    lra.
  - destruct (loop_cond max s) eqn:Hc.
    + pose proof Hc as Hc'. apply loop_cond_true in Hc'.
      destruct Hc' as [_ Hne].
      destruct (loop_body_total s (all_nil_true _ Hne))
        as (p & rs & f & Hb & _).
      destruct (IH (S k)
                  {| runners := rs; t := t s + dt;
                     frames := frames s ++ [f] |})
        as (n & s' & Hn & Hruns).
      * cbn [t]. rewrite ticks_time_S, Ht. reflexivity.
      * lia.
      * exists (S n), s'. split; [lia|]. econstructor; eassumption.
    + exists 0%nat, s. split; [lia|]. now constructor.
Qed.

Lemma loop_terminates (roster : list BodySystemRunner) :
  0 < dt ->
  exists n s', (n <= max_ticks dt max)%nat /\
               loop_runs rd dt max n (initial_loop_state roster) s'.
Proof.
  intros Hdt.
  apply (loop_terminates_from (max_ticks dt max) Hdt 0).
  - unfold ticks_time. cbn. ring.
  - lia.
Qed.

End RaceLoopFacts.

(* ================================================================== *)
(** * Finish times along a race *)
(* ================================================================== *)

Lemma initial_timed (max : Q) (r : BodySystemRunner) :
  initial r -> timed max r.
Proof.
  intros (_ & _ & _ & Hf & Hft). split.
  - rewrite Hf. discriminate.
  - rewrite Hft. discriminate.
Qed.

(** [update] writes [finish_time] only together with [finished], and what
    it writes is the [global_time] it was called with. *)
Lemma update_timed (max rd : Q) (r r' : BodySystemRunner) (dt gt p : Q) :
  timed max r -> 0 <= gt -> gt < max ->
  update rd r dt gt p = Ok r' -> timed max r'.
Proof.
  intros Ht H0 H1 Hcall. destruct (finished r) eqn:Hf.
  - rewrite update_finished in Hcall by assumption. inversion Hcall; subst.
    assumption.
  - run_update rd r dt gt p Hf. rewrite Hup in Hcall.
    inversion Hcall; subst r'; clear Hcall.
    destruct (_ >=? rd); split; cbn.
    + eauto.
    + intros ft E. inversion E; subst. split; assumption.
    + discriminate.
    + apply Ht.
Qed.

Lemma Forall2_Forall {A B : Type} (R : A -> B -> Prop) (P : A -> Prop)
    (Q' : B -> Prop) (l : list A) (l' : list B) :
  (forall a b, R a b -> P a -> Q' b) ->
  Forall2 R l l' -> Forall P l -> Forall Q' l'.
Proof.
  intros HR. induction 1 as [| a b l l' Hab _ IH]; intros HP.
  - constructor.
  - inversion HP; subst. constructor; eauto.
Qed.

Section FinishTimes.

Variables rd dt max : Q.

Lemma loop_runs_exit (n : nat) (s s' : LoopState) :
  loop_runs rd dt max n s s' -> loop_cond max s' = false.
Proof. induction 1; assumption. Qed.

Lemma loop_runs_timed (n : nat) (s s' : LoopState) :
  0 <= dt ->
  loop_runs rd dt max n s s' ->
  0 <= t s -> Forall (timed max) (runners s) ->
  0 <= t s' /\ Forall (timed max) (runners s').
Proof.
  intros Hdt. induction 1 as [s Hc | n s s1 s' Hc Hb _ IH]; intros Ht Hrs.
  - split; assumption.
  - apply loop_cond_true in Hc. destruct Hc as [Hlt Hne].
    destruct (loop_body_total rd dt s (all_nil_true _ Hne))
      as (p & rs & f & Hb' & _ & Hup).
    rewrite Hb' in Hb. inversion Hb; subst s1. cbn [t runners] in IH.
    apply IH; [lra|].
    eapply Forall2_Forall; [| exact Hup | exact Hrs].
    cbv beta. intros a b Hab Ha. eapply update_timed; eauto.
Qed.

(** A race run from a fresh roster: the loop exits after at most
    [max_ticks] iterations, and in the exit state every finish time that is
    set lies in [0, max_time). *)
Lemma race_returns (roster : list BodySystemRunner) :
  0 < dt -> Forall initial roster ->
  exists n s,
    (n <= max_ticks dt max)%nat /\
    loop_runs rd dt max n (initial_loop_state roster) s /\
    Forall (timed max) (runners s).
Proof.
  intros Hdt Hinit.
  destruct (loop_terminates rd dt max roster Hdt) as (n & s & Hn & Hruns).
  exists n, s. split; [assumption|]. split; [assumption|].
  apply (loop_runs_timed n (initial_loop_state roster) s); try assumption.
  - lra.
  - cbn. lra.
  - cbn. eapply Forall_impl; [| exact Hinit]. apply initial_timed.
Qed.

End FinishTimes.

(* ================================================================== *)
(** * The lung ability *)
(* ================================================================== *)

(** C6.  For an unfinished competitor with ability "deep_inhale", the
    stamina that enters stage 3 of an [update] call is the stamina at the
    start of the call plus stamina_regen * 3.0 * dt exactly when
    floor(position) mod 20 = 0 and position > 0 at the start of the call,
    and the bare stamina otherwise; the call returns, and its stamina is
    stage 3 applied to that value.  The bonus depends on the position at the
    start of the call alone, so it is granted on every tick on which the
    condition holds. *)
Theorem deep_inhale_bonus_on_every_trigger_tick
    (rd : Q) (r : BodySystemRunner) (dt gt p : Q) :
  ability r = "deep_inhale" -> finished r = false ->
  let entering :=
    if floor_trigger r then stamina r + stamina_regen r * 3.0 * dt
    else stamina r in
  fst (abilities r dt gt p (base_target_speed r p)) = entering /\
  exists sf r',
    speed_fraction r = Ok sf /\
    update rd r dt gt p = Ok r' /\
    stamina r' = stamina_mechanics r entering sf dt.
Proof.
  intros Hab Hf entering.
  assert (He : fst (abilities r dt gt p (base_target_speed r p)) = entering).
  { rewrite abilities_deep_inhale by assumption.
    rewrite deep_inhale_trigger_floor. reflexivity. }
  split; [exact He|].
  run_update rd r dt gt p Hf. rewrite He in Hup.
  exists sf. eexists. split; [exact Hsf|]. split; [exact Hup|].
  destruct (_ >=? rd); reflexivity.
Qed.

Lemma deep_inhale_bonus_on_every_trigger_tick_witness :
  (ability lungster_at_20 = "deep_inhale" /\
   finished lungster_at_20 = false) /\
  (fst (abilities lungster_at_20 0.1 5 0.1
          (base_target_speed lungster_at_20 0.1)) =
     (if floor_trigger lungster_at_20
      then stamina lungster_at_20 + stamina_regen lungster_at_20 * 3.0 * 0.1
      else stamina lungster_at_20) /\
   exists sf r',
     speed_fraction lungster_at_20 = Ok sf /\
     update 200 lungster_at_20 0.1 5 0.1 = Ok r' /\
     stamina r' =
       stamina_mechanics lungster_at_20
         (if floor_trigger lungster_at_20
          then stamina lungster_at_20 +
               stamina_regen lungster_at_20 * 3.0 * 0.1
          else stamina lungster_at_20) sf 0.1).
Proof.
  split; [split; reflexivity |].
  exact (deep_inhale_bonus_on_every_trigger_tick 200 lungster_at_20
           0.1 5 0.1 eq_refl eq_refl).
Defined.

(** Not once per crossing: Lungster at 20 m triggers, moves on within the
    same metre in one tick of 0.1 s and triggers again, without any multiple
    of 20 crossed in between. *)
Example deep_inhale_fires_on_consecutive_ticks :
  exists r1,
    update 200 lungster_at_20 0.1 5 0.1 = Ok r1 /\
    finished r1 = false /\
    position lungster_at_20 < position r1 /\ Qfloor (position r1) = 20%Z /\
    deep_inhale_trigger lungster_at_20 = true /\
    deep_inhale_trigger r1 = true.
Proof.
  eexists. split; [vm_compute; reflexivity |].
  repeat split; vm_compute; reflexivity.
Qed.

(* ================================================================== *)
(** * The race loop: termination, totality, finish times *)
(* ================================================================== *)



(** C10.  A race run with dt > 0 from a fresh roster returns, and in the
    state it returns every finish_time that is set satisfies
    0 <= finish_time < max_time.  When max_time <= 1e9, as with
    MAX_RACE_TIME = 40, every set finish time is below the sentinel of
    [sort_key], and the ranking places no unfinished competitor before a
    finished one. *)
Theorem finish_times_below_cap
    (rd dt max : Q) (roster : list BodySystemRunner) :
  0 < dt -> Forall initial roster ->
  exists n s,
    (forall fuel, (n < fuel)%nat ->
       run_race rd dt max fuel roster = Some (Ok s)) /\
    (forall r ft, In r (runners s) -> finish_time r = Some ft ->
       0 <= ft /\ ft < max) /\
    (max <= 1e9 ->
     (forall r ft u, In r (runners s) -> finish_time r = Some ft ->
        finish_time u = None -> ft < sort_key u) /\
     (forall i j a b,
        nth_error (ordered (runners s)) i = Some a ->
        nth_error (ordered (runners s)) j = Some b ->
        finish_time a = None -> finish_time b <> None -> (j < i)%nat)).
Proof.
  intros Hdt Hinit.
  destruct (race_returns rd dt max roster Hdt Hinit)
    as (n & s & Hn & Hruns & Htimed).
  exists n, s. rewrite Forall_forall in Htimed.
  split; [intros fuel Hfuel; now apply (loop_runs_while rd dt max n)|].
  split; [intros r ft Hr Hft; now apply (Htimed r Hr)|].
  intros Hmax. split.
  - intros r ft u Hr Hft Hu. destruct (Htimed r Hr) as [_ Hb].
    destruct (Hb ft Hft). unfold sort_key. rewrite Hu. lra.
  - intros i j a b Hi Hj Ha Hb.
    destruct (finish_time b) as [fb |] eqn:Eb; [| congruence].
    apply (unfinished_after_finished (runners s) i j a b fb);
      try assumption.
    assert (Hin : In b (runners s)).
    { eapply Permutation_in; [apply sorted_perm|].
      eapply nth_error_In. exact Hj. }
    destruct (Htimed b Hin) as [_ Hbound]. destruct (Hbound fb Eb). lra.
Qed.

Lemma finish_times_below_cap_witness :
  (0 < DT /\ Forall initial create_runners /\ MAX_RACE_TIME <= 1e9) /\
  exists n s,
    (forall fuel, (n < fuel)%nat -> simulate_race fuel = Some (Ok s)) /\
    (forall r ft, In r (runners s) -> finish_time r = Some ft ->
       0 <= ft /\ ft < MAX_RACE_TIME) /\
    (forall r ft u, In r (runners s) -> finish_time r = Some ft ->
       finish_time u = None -> ft < sort_key u) /\
    (forall i j a b,
       nth_error (ordered (runners s)) i = Some a ->
       nth_error (ordered (runners s)) j = Some b ->
       finish_time a = None -> finish_time b <> None -> (j < i)%nat).
Proof.
  assert (H1 : 0 < DT) by reflexivity.
  assert (H2 : Forall initial create_runners)
    by (repeat constructor; reflexivity).
  assert (H3 : MAX_RACE_TIME <= 1e9) by (vm_compute; discriminate).
  split; [exact (conj H1 (conj H2 H3)) |].
  destruct (finish_times_below_cap RACE_DISTANCE DT MAX_RACE_TIME
              create_runners H1 H2)
    as (n & s & Hfuel & Hbound & Hsent).
  exists n, s. split; [exact Hfuel |]. split; [exact Hbound |].
  exact (Hsent H3).
Defined.

(* ================================================================== *)
(** * The solo scenario *)
(* ================================================================== *)

Lemma solo_trajectory_S (k : nat) :
  fst (solo_trajectory (S k)) == Qmin (fst (solo_trajectory k) + 0.5) 8 /\
  snd (solo_trajectory (S k)) ==
    snd (solo_trajectory k) + fst (solo_trajectory (S k)) * 0.1.
Proof.
  cbn [solo_trajectory]. destruct (solo_trajectory k) as [v x].
  cbn [fst snd]. rewrite !Qred_correct. split; reflexivity.
Qed.

Lemma solo_speed_range (k : nat) :
  0 <= fst (solo_trajectory k) /\ fst (solo_trajectory k) <= 8.
Proof.
  induction k as [| k [IH0 IH8]]; [cbn; lra|].
  destruct (solo_trajectory_S k) as [-> _].
  destruct (Q.min_spec (fst (solo_trajectory k) + 0.5) 8)
    as [[? ->] | [? ->]]; lra.
Qed.

(** The runner is short of 200 m after each of the first 257 ticks and past
    it after the 258th. *)
Lemma solo_short_of_finish (k : nat) :
  (k <= 257)%nat -> snd (solo_trajectory k) < RACE_DISTANCE.
Proof.
  intros Hk.
  assert (H : forallb (fun k => snd (solo_trajectory k) <? RACE_DISTANCE)
                (seq 0 258) = true) by (vm_compute; reflexivity).
  rewrite forallb_forall in H. apply Qltb_true, H, in_seq. lia.
Qed.

Lemma solo_reaches_finish : RACE_DISTANCE <= snd (solo_trajectory 258).
Proof. vm_compute. discriminate. Qed.

Lemma same_static_physics (a r r' : BodySystemRunner) :
  same_static r r' -> same_physics a r -> same_physics a r'.
Proof.
  unfold same_static, same_physics.
  intros (_ & _ & _ & -> & -> & -> & -> & -> & -> & -> & ->) H. exact H.
Qed.

(** One tick of a competitor with the physics of [solo_runner]: the speed
    climbs by 0.5, capped at 8. *)
Lemma solo_update (r : BodySystemRunner) (gt p : Q) :
  same_physics solo_runner r -> finished r = false ->
  0 <= speed r -> speed r <= 8 ->
  exists r',
    update RACE_DISTANCE r DT gt p = Ok r' /\
    same_physics solo_runner r' /\
    speed r' == Qmin (speed r + 0.5) 8 /\
    (position r + speed r' * DT < RACE_DISTANCE ->
     finished r' = false /\ finish_time r' = finish_time r /\
     position r' = position r + speed r' * DT) /\
    (RACE_DISTANCE <= position r + speed r' * DT ->
     finished r' = true /\ finish_time r' = Some gt).
Proof.
  intros Hs Hf Hv0 Hv8.
  run_update RACE_DISTANCE r DT gt p Hf.
  eexists. split; [exact Hup|].
  pose proof Hs as (Ea & Et & Em & Eg & Eb & Ef & Ep & Eab).
  cbn in Ea, Et, Em, Eg, Eb, Ef, Ep, Eab.
  assert (Htg : base_target_speed r p = 0.8 * 10).
  { unfold base_target_speed. rewrite Ep, Et. scases. reflexivity. }
  assert (Hab : snd (abilities r DT gt p (base_target_speed r p)) = 0.8 * 10).
  { unfold abilities. rewrite Eab. scases. exact Htg. }
  rewrite Hab in *.
  assert (Heff : fatigue r (0.8 * 10) stf == 8).
  { unfold fatigue. rewrite Eab, Ef. scases. pym; lra. }
  set (eff := fatigue r (0.8 * 10) stf) in *.
  assert (Hsp : move_toward r eff DT == Qmin (speed r + 0.5) 8).
  { unfold move_toward, DT. rewrite Ea.
    destruct (Q.min_spec (speed r + 0.5) 8) as [[? ->] | [? ->]];
      qcases; pym; lra. }
  set (sp := move_toward r eff DT) in *.
  split.
  { qcase; (eapply same_static_physics;
            [apply same_static_set_state | exact Hs]). }
  split; [qcase; cbn; exact Hsp|].
  split; intros Hpos; qcase; cbn in *; try lra; repeat split.
Qed.

(** The same tick, along the trajectory. *)
Lemma solo_tick (k : nat) (r r' : BodySystemRunner) (gt p : Q) :
  on_the_way k r ->
  update RACE_DISTANCE r DT gt p = Ok r' ->
  (snd (solo_trajectory (S k)) < RACE_DISTANCE -> on_the_way (S k) r') /\
  (RACE_DISTANCE <= snd (solo_trajectory (S k)) ->
   finished r' = true /\ finish_time r' = Some gt).
Proof.
  intros (Hs & Hf & Hft & Hv & Hx) Hcall.
  pose proof (solo_speed_range k) as [Hv0 Hv8].
  destruct (solo_update r gt p Hs Hf) as (r1 & Hr1 & Hs1 & Hv1 & Hgo & Hend);
    [lra | lra |].
  rewrite Hr1 in Hcall. inversion Hcall; subst r1; clear Hcall.
  destruct (solo_trajectory_S k) as [Ev Ex].
  assert (Hv1' : speed r' == fst (solo_trajectory (S k))).
  { rewrite Hv1, Ev. now apply Qmin_eq_l; rewrite Hv. }
  assert (Hx1 : position r + speed r' * DT == snd (solo_trajectory (S k))).
  { rewrite Ex, Hx, Hv1'. reflexivity. }
  split; intros Hpos.
  - destruct Hgo as (G1 & G2 & G3); [rewrite Hx1; exact Hpos|].
    repeat split; try assumption; try apply Hs1.
    + congruence.
    + rewrite G3. exact Hx1.
  - apply Hend. rewrite Hx1. exact Hpos.
Qed.

(** The body of the loop in a race between such competitors. *)
Lemma solo_loop_body (k : nat) (s : LoopState) :
  (k <= 257)%nat -> solo_state k s ->
  loop_cond MAX_RACE_TIME s = true /\
  exists s1,
    loop_body RACE_DISTANCE DT s = Ok s1 /\
    length (runners s1) = length (runners s) /\
    t s1 == ticks_time (S k) DT /\
    (snd (solo_trajectory (S k)) < RACE_DISTANCE ->
     Forall (on_the_way (S k)) (runners s1)) /\
    (RACE_DISTANCE <= snd (solo_trajectory (S k)) ->
     Forall (fun r => finished r = true /\ finish_time r = Some (t s))
       (runners s1)).
Proof.
  intros Hk (Hne & Hrs & Ht).
  assert (Hc : loop_cond MAX_RACE_TIME s = true).
  { apply loop_cond_true. rewrite Ht. split.
    - pose proof (ticks_time_le k 257 DT ltac:(unfold DT; lra) Hk) as Hle.
      assert (ticks_time 257 DT == 25.7) by reflexivity.
      unfold MAX_RACE_TIME. lra.
    - destruct (runners s) as [| r rs]; [contradiction|].
      inversion Hrs as [| ? ? (_ & Hf & _) _]; subst.
      cbn. now rewrite Hf. }
  split; [exact Hc|].
  destruct (loop_body_total RACE_DISTANCE DT s Hne)
    as (p & rs & f & Hb & _ & Hup).
  eexists. split; [exact Hb|]. cbn [runners t].
  split; [symmetry; eapply Forall2_length; exact Hup|].
  split; [rewrite ticks_time_S, Ht; reflexivity|].
  split; intros Hpos;
    (eapply Forall2_Forall; [| exact Hup | exact Hrs]);
    cbv beta; intros a b Hab Ha;
    destruct (solo_tick k a b (t s) p Ha Hab) as [Hgo Hend]; auto.
Qed.

(** From the state after [k] ticks the race runs on until tick 258, on which
    every competitor finishes, and the loop exits; the common finish time is
    the clock of that tick, 25.7. *)
Lemma solo_race_from (m : nat) :
  forall (k : nat) (s : LoopState),
    (k + m = 257)%nat -> solo_state k s ->
    exists s' ft,
      loop_runs RACE_DISTANCE DT MAX_RACE_TIME (S m) s s' /\
      length (runners s') = length (runners s) /\
      ft == 25.7 /\
      Forall (fun r => finished r = true /\ finish_time r = Some ft)
        (runners s').
Proof.
  induction m as [| m IH]; intros k s Hk Hs.
  - assert (k = 257)%nat by lia. subst k.
    destruct (solo_loop_body 257 s (Nat.le_refl _) Hs)
      as (Hc & s1 & Hb & Hlen & _ & _ & Hend).
    specialize (Hend solo_reaches_finish).
    exists s1, (t s). split.
    + econstructor; [exact Hc | exact Hb |]. constructor.
      apply loop_cond_false. right.
      clear - Hend. induction Hend as [| r rs [Hf _] _ IHf]; [reflexivity|].
      cbn. rewrite Hf. exact IHf.
    + split; [exact Hlen|]. split; [| exact Hend].
      destruct Hs as (_ & _ & Ht). rewrite Ht. reflexivity.
  - destruct (solo_loop_body k s ltac:(lia) Hs)
      as (Hc & s1 & Hb & Hlen & Ht1 & Hgo & _).
    specialize (Hgo (solo_short_of_finish (S k) ltac:(lia))).
    destruct (IH (S k) s1 ltac:(lia)) as (s' & ft & Hruns & Hlen' & Hrest).
    { split; [| split; assumption].
      destruct Hs as (Hne & _). intros E. rewrite E in Hlen.
      destruct (runners s); [contradiction | discriminate]. }
    exists s', ft. split; [econstructor; eassumption|].
    split; [congruence | exact Hrest].
Qed.

Lemma solo_race (roster : list BodySystemRunner) :
  roster <> [] ->
  Forall (fun r => same_physics solo_runner r /\ initial r) roster ->
  exists s ft,
    loop_runs RACE_DISTANCE DT MAX_RACE_TIME 258
      (initial_loop_state roster) s /\
    length (runners s) = length roster /\
    ft == 25.7 /\
    Forall (fun r => finished r = true /\ finish_time r = Some ft)
      (runners s).
Proof.
  intros Hne Hinit.
  apply (solo_race_from 257 0 (initial_loop_state roster)); [reflexivity|].
  split; [exact Hne|]. split; [| reflexivity].
  eapply Forall_impl; [| exact Hinit]. cbv beta.
  intros r (Hs & Hx & Hv & _ & Hf & Hft). repeat split; try assumption;
    apply Hs.
Qed.

(** C2, as the code has it.  The roster of the single competitor
    [solo_runner] (acceleration 5, top speed 10, stamina 100, regeneration
    10, burst multiplier 1, fatigue factor 0, calm, no ability), run with
    dt = 0.1 over 200 m, returns after 258 ticks with [finished] true and
    finish time 25.7 s: the clock of the 258th tick, seven ticks later than
    200 / (0.8 * 10) = 25.0 s. *)
Theorem solo_race_finish_time :
  exists s r ft,
    (forall fuel, (258 < fuel)%nat ->
       run_race RACE_DISTANCE DT MAX_RACE_TIME fuel [solo_runner]
         = Some (Ok s)) /\
    length (frames s) = 258%nat /\
    runners s = [r] /\ finished r = true /\
    finish_time r = Some ft /\ ft == 25.7 /\
    ft - 200 / (0.8 * 10) == 7 * DT.
Proof.
  destruct (solo_race [solo_runner]) as (s & ft & Hruns & Hlen & Heq & Hfin).
  { discriminate. }
  { repeat constructor; reflexivity. }
  destruct (runners s) as [| r [| r2 rs]] eqn:Ers; try discriminate.
  inversion Hfin as [| ? ? [Hf Hft] _]; subst.
  exists s, r, ft.
  split; [intros fuel Hfuel; now apply (loop_runs_while _ _ _ 258)|].
  pose proof (loop_runs_clock _ _ _ _ _ _ Hruns) as (_ & Hfr & _).
  split; [exact Hfr|]. repeat split; try assumption.
  rewrite Heq. reflexivity.
Qed.

(** C2, as stated, fails: the finish time of the solo race is not within
    two ticks (0.2 s) of 25.0 s. *)
Lemma solo_finish_time_not_within_two_ticks :
  exists s r ft,
    run_race RACE_DISTANCE DT MAX_RACE_TIME 259 [solo_runner]
      = Some (Ok s) /\
    runners s = [r] /\ finish_time r = Some ft /\
    ~ (25.0 - 2 * DT <= ft /\ ft <= 25.0 + 2 * DT).
Proof.
  destruct (solo_race [solo_runner]) as (s & ft & Hruns & Hlen & Heq & Hfin).
  { discriminate. }
  { repeat constructor; reflexivity. }
  destruct (runners s) as [| r [| r2 rs]] eqn:Ers; try discriminate.
  inversion Hfin as [| ? ? [Hf Hft] _]; subst.
  exists s, r, ft.
  split; [apply (loop_runs_while _ _ _ 258); [assumption | lia]|].
  repeat split; try assumption.
  rewrite Heq. unfold DT. intros [_ H]. lra.
Qed.

(* ================================================================== *)
(** * Result ranking *)
(* ================================================================== *)

(** C3, as the code has it.  The ranking is a permutation of the final
    competitor states.  For finished competitors A at place i and B at place
    j: if A.finish_time < B.finish_time then A is placed before B, and if A
    is placed before B then A.finish_time <= B.finish_time.  An unfinished
    competitor is placed after every finished competitor whose finish time
    is below the sentinel 1e9.  Competitors of equal sort key (tied
    finishers, and the unfinished among themselves) keep their roster
    order. *)
Theorem ranking_law (rs : list BodySystemRunner) :
  Permutation (ordered rs) rs /\
  (forall i j a b fa fb,
     nth_error (ordered rs) i = Some a -> nth_error (ordered rs) j = Some b ->
     finish_time a = Some fa -> finish_time b = Some fb ->
     (fa < fb -> (i < j)%nat) /\ ((i < j)%nat -> fa <= fb)) /\
  (forall i j a b fb,
     nth_error (ordered rs) i = Some a -> nth_error (ordered rs) j = Some b ->
     finish_time a = None -> finish_time b = Some fb -> fb < 1e9 ->
     (j < i)%nat) /\
  (forall k,
     filter (fun r => Qeq_bool (sort_key r) k) (ordered rs) =
     filter (fun r => Qeq_bool (sort_key r) k) rs).
Proof.
  split; [apply sorted_perm|]. split; [| split].
  - intros i j a b fa fb Hi Hj Ha Hb. split.
    + intros Hlt.
      destruct (Nat.lt_trichotomy i j) as [H | [H | H]]; [assumption | |].
      * subst j. rewrite Hi in Hj. inversion Hj; subst.
        rewrite Ha in Hb. inversion Hb; subst. lra.
      * pose proof (ranking_keys_ordered rs j i b a H Hj Hi) as Hk.
        unfold sort_key in Hk. rewrite Ha, Hb in Hk. lra.
    + intros Hij.
      pose proof (ranking_keys_ordered rs i j a b Hij Hi Hj) as Hk.
      unfold sort_key in Hk. rewrite Ha, Hb in Hk. exact Hk.
  - apply unfinished_after_finished.
  - intros k. apply sorted_stable.
Qed.

Lemma ranking_law_witness :
  ordered [straggler; twin_1; twin_2] = [twin_1; twin_2; straggler] /\
  (nth_error (ordered [straggler; twin_1; twin_2]) 2 = Some straggler /\
   nth_error (ordered [straggler; twin_1; twin_2]) 1 = Some twin_2 /\
   finish_time straggler = None /\ finish_time twin_2 = Some 25.7 /\
   25.7 < 1e9) /\
  (1 < 2)%nat.
Proof.
  split; [reflexivity |].
  split; [repeat split |].
  exact (proj1 (proj2 (proj2 (ranking_law [straggler; twin_1; twin_2])))
           2%nat 1%nat straggler twin_2 25.7
           eq_refl eq_refl eq_refl eq_refl eq_refl).
Defined.

(** C3, as stated, fails on a tie.  Two identical competitors that differ in
    the lane only race each other; both finish on the same tick with the
    same finish time, the ranking places the first before the second, and
    yet the first's finish time is not smaller than the second's. *)
Lemma tied_finishers_refute_the_iff :
  exists s a b fa fb,
    run_race RACE_DISTANCE DT MAX_RACE_TIME 259 [solo_runner; solo_twin]
      = Some (Ok s) /\
    finish_time a = Some fa /\ finish_time b = Some fb /\
    nth_error (ordered (runners s)) 0 = Some a /\
    nth_error (ordered (runners s)) 1 = Some b /\
    ~ ((0 < 1)%nat <-> fa < fb).
Proof.
  destruct (solo_race [solo_runner; solo_twin])
    as (s & ft & Hruns & Hlen & Heq & Hfin).
  { discriminate. }
  { repeat constructor; reflexivity. }
  destruct (runners s) as [| a [| b [| c rs]]] eqn:Ers; try discriminate.
  inversion Hfin as [| ? ? [_ Ha] Hfin']; subst.
  inversion Hfin' as [| ? ? [_ Hb] _]; subst.
  exists s, a, b, ft, ft.
  split; [apply (loop_runs_while _ _ _ 258); [assumption | lia]|].
  split; [exact Ha|]. split; [exact Hb|].
  assert (Hord : ordered [a; b] = [a; b]).
  { unfold ordered, sorted. cbn [fold_right insert_by].
    unfold sort_key. rewrite Ha, Hb.
    destruct (ft <? ft) eqn:E; [| reflexivity].
    apply Qltb_true in E. lra. }
  rewrite Ers, Hord. split; [reflexivity|]. split; [reflexivity|].
  intros [H _]. specialize (H ltac:(lia)). lra.
Qed.

(* ================================================================== *)
(** * One call of [update], further properties *)
(* ================================================================== *)

Lemma sum_from (xs : list Q) (a : Q) :
  fold_left Qplus xs a == a + fold_left Qplus xs 0.
Proof.
  revert a. induction xs as [| x xs IH]; intros a; cbn.
  - lra.
  - rewrite (IH (a + x)), (IH (0 + x)). lra.
Qed.

Lemma sum_cons (x : Q) (xs : list Q) : sum (x :: xs) == x + sum xs.
Proof. unfold sum. cbn. rewrite sum_from. lra. Qed.

Lemma elapsed_cons (c : call) (cs : list call) :
  elapsed (c :: cs) == call_dt c + elapsed cs.
Proof. unfold elapsed. cbn [map]. apply sum_cons. Qed.

(** ** What one call does to the finish record *)

(** The two outcomes of one call on an unfinished competitor. *)
Lemma update_cases (rd : Q) (r : BodySystemRunner) (dt gt p : Q) :
  finished r = false ->
  exists r', update rd r dt gt p = Ok r' /\
    ((rd <= position r + speed r' * dt /\
      finished r' = true /\ position r' = rd /\ finish_time r' = Some gt) \/
     (position r + speed r' * dt < rd /\
      finished r' = false /\ position r' = position r + speed r' * dt /\
      finish_time r' = finish_time r)).
Proof.
  intros Hf. run_update rd r dt gt p Hf.
  eexists. split; [exact Hup |].
  qcase; cbn; [left | right]; repeat split; assumption.
Qed.

(** The finish record along a sequence of calls. *)
Lemma updates_finish_record (rd : Q) (cs : list call) :
  forall (seen : list call) (r : BodySystemRunner),
    0 <= position r -> position r <= rd ->
    (finished r = true ->
       position r == rd /\
       exists c, In c seen /\ finish_time r = Some (call_gt c)) ->
    (finished r = false -> position r < rd /\ finish_time r = None) ->
    Forall (fun c => 0 < call_dt c) cs ->
    exists r', updates rd r cs = Ok r' /\
      (0 <= position r' /\ position r' <= rd) /\
      (finished r' = true ->
         position r' == rd /\
         exists c, In c (seen ++ cs)%list /\
                   finish_time r' = Some (call_gt c)) /\
      (finished r' = false -> position r' < rd /\ finish_time r' = None).
Proof.
  induction cs as [| [[dt gt] p] cs IH]; intros seen r H0 H1 Hfin Hun Hcs.
  - exists r. rewrite app_nil_r. cbn. repeat split; try assumption;
      try (apply Hfin; assumption); try (apply Hun; assumption).
  - inversion Hcs as [| c cs' Hdt Hcs']; subst. cbn in Hdt.
    cbn [updates].
    destruct (finished r) eqn:Hf.
    + rewrite update_finished by assumption. cbn [bind].
      destruct (IH (seen ++ [(dt, gt, p)])%list r H0 H1) as (r' & Hr' & Hrest);
        try assumption.
      * intros _. destruct (Hfin eq_refl) as (Hp & c & Hc & Hft).
        split; [assumption |]. exists c. split; [| assumption].
        apply in_or_app. now left.
      * intros E. congruence.
      * exists r'. rewrite <- app_assoc in Hrest. cbn in Hrest.
        split; assumption.
    + destruct (Hun eq_refl) as [Hlt Hnone].
      run_update rd r dt gt p Hf. rewrite Hup. cbn [bind].
      set (sp := move_toward r _ dt) in *.
      pose proof (move_toward_nonneg r
        (fatigue r (snd (abilities r dt gt p (base_target_speed r p))) stf)
        dt) as Hsp.
      fold sp in Hsp. assert (0 <= sp * dt) by nra.
      match goal with
      | |- context [updates rd ?x cs] =>
          destruct (IH (seen ++ [(dt, gt, p)])%list x) as (r' & Hr' & Hrest);
            try assumption
      end.
      * qcase; cbn; lra.
      * qcase; cbn; lra.
      * qcase; cbn; intros E; try discriminate E.
        split; [lra |]. exists (dt, gt, p). split; [| reflexivity].
        apply in_or_app. right. now left.
      * qcase; cbn; intros E; try discriminate E. split; [lra | assumption].
      * exists r'. rewrite <- app_assoc in Hrest. cbn in Hrest.
        split; assumption.
Qed.

(** X1.  From the initial state on a track of positive length, after every
    sequence of calls with dt > 0 the finish record is consistent: the
    position is in [0, race_distance]; a finished competitor is exactly on
    the line and its finish time is the global_time of one of the calls; an
    unfinished competitor is short of the line and has no finish time. *)
Theorem finish_record_is_consistent
    (rd : Q) (r : BodySystemRunner) (cs : list call) :
  0 < rd -> initial r -> Forall (fun c => 0 < call_dt c) cs ->
  exists r', updates rd r cs = Ok r' /\
    (0 <= position r' /\ position r' <= rd) /\
    (finished r' = true ->
       position r' == rd /\
       exists c, In c cs /\ finish_time r' = Some (call_gt c)) /\
    (finished r' = false -> position r' < rd /\ finish_time r' = None).
Proof.
  intros Hrd (Hx & _ & _ & Hf & Hft) Hcs.
  apply (updates_finish_record rd cs [] r); try assumption; try lra.
  - intros E. congruence.
  - intros _. split; [lra | assumption].
Qed.

Lemma finish_record_is_consistent_witness :
  (0 < 0.05 /\ initial solo_runner /\
   Forall (fun c => 0 < call_dt c) [(0.1, 0, 0); (0.1, 0.1, 0)]) /\
  exists r', updates 0.05 solo_runner [(0.1, 0, 0); (0.1, 0.1, 0)] = Ok r' /\
    (0 <= position r' /\ position r' <= 0.05) /\
    (finished r' = true ->
       position r' == 0.05 /\
       exists c, In c [(0.1, 0, 0); (0.1, 0.1, 0)] /\
                 finish_time r' = Some (call_gt c)) /\
    (finished r' = false -> position r' < 0.05 /\ finish_time r' = None).
Proof.
  assert (H1 : 0 < 0.05) by reflexivity.
  assert (H2 : initial solo_runner) by (vm_compute; repeat split).
  assert (H3 : Forall (fun c => 0 < call_dt c) [(0.1, 0, 0); (0.1, 0.1, 0)])
    by (repeat constructor).
  split; [exact (conj H1 (conj H2 H3)) |].
  exact (finish_record_is_consistent 0.05 solo_runner _ H1 H2 H3).
Defined.

(** ** Speed *)

(** X2.  In one call the speed of an unfinished competitor with
    acceleration >= 0 and speed >= 0 rises by at most acceleration * dt and
    falls by at most 1.3 * acceleration * dt, whatever the target. *)
Theorem speed_change_is_bounded
    (rd : Q) (r : BodySystemRunner) (dt gt p : Q) :
  finished r = false -> 0 <= acceleration r -> 0 <= dt -> 0 <= speed r ->
  exists r', update rd r dt gt p = Ok r' /\
    speed r - acceleration r * 1.3 * dt <= speed r' /\
    speed r' <= speed r + acceleration r * dt.
Proof.
  intros Hf Ha Hdt Hv. run_update rd r dt gt p Hf.
  eexists. split; [exact Hup |].
  set (eff := fatigue r _ stf) in *.
  assert (Hmv : speed r - acceleration r * 1.3 * dt <= move_toward r eff dt /\
                move_toward r eff dt <= speed r + acceleration r * dt).
  { assert (0 <= acceleration r * dt) by nra.
    unfold move_toward. qcases; pym; lra. }
  destruct (_ >=? rd); cbn; exact Hmv.
Qed.

Lemma speed_change_is_bounded_witness :
  (finished solo_runner = false /\ 0 <= acceleration solo_runner /\
   0 <= 0.1 /\ 0 <= speed solo_runner) /\
  exists r', update 200 solo_runner 0.1 0 0 = Ok r' /\
    speed solo_runner - acceleration solo_runner * 1.3 * 0.1 <= speed r' /\
    speed r' <= speed solo_runner + acceleration solo_runner * 0.1.
Proof.
  assert (H1 : finished solo_runner = false) by reflexivity.
  assert (H2 : 0 <= acceleration solo_runner) by (vm_compute; discriminate).
  assert (H3 : 0 <= 0.1) by (vm_compute; discriminate).
  assert (H4 : 0 <= speed solo_runner) by (vm_compute; discriminate).
  split; [exact (conj H1 (conj H2 (conj H3 H4))) |].
  exact (speed_change_is_bounded 200 solo_runner 0.1 0 0 H1 H2 H3 H4).
Defined.

(** One call advances the position by at most the new speed times dt. *)
Lemma update_advance (rd : Q) (r r' : BodySystemRunner) (dt gt p : Q) :
  position r <= rd -> 0 <= dt ->
  update rd r dt gt p = Ok r' ->
  position r' <= position r + speed r' * dt /\ 0 <= speed r' * dt \/
  r' = r.
Proof.
  intros Hx Hdt H. destruct (finished r) eqn:Hf.
  - rewrite update_finished in H by assumption. inversion H. now right.
  - left. run_update rd r dt gt p Hf. rewrite Hup in H.
    set (sp := move_toward r _ dt) in *.
    pose proof (move_toward_nonneg r
      (fatigue r (snd (abilities r dt gt p (base_target_speed r p))) stf)
      dt) as Hsp.
    fold sp in Hsp. assert (0 <= sp * dt) by nra.
    destruct (position r + sp * dt >=? rd) eqn:C;
      [apply Qgeb_true in C | apply Qgeb_false in C];
      injection H as <-; cbn [position speed set_state]; split; lra.
Qed.

Lemma updates_distance (rd : Q) (cs : list call) :
  forall r, declared_constraints r -> in_range r -> position r <= rd ->
    Forall (fun c => 0 < call_dt c) cs ->
    exists r', updates rd r cs = Ok r' /\
               position r' <= position r + speed_bound r * elapsed cs.
Proof.
  induction cs as [| [[dt gt] p] cs IH]; intros r Hc Hr Hx Hcs.
  - exists r. split; [reflexivity |]. unfold elapsed, sum. cbn. lra.
  - inversion Hcs as [| c cs' Hdt Hcs']; subst. cbn in Hdt.
    destruct (update_in_range rd r dt gt p (conj Hc Hr) Hdt)
      as (r1 & Hr1 & Hc1 & Hin1).
    destruct (update_position rd r dt gt p Hx Hdt) as (r1' & Hr1' & _ & Hx1).
    rewrite Hr1 in Hr1'. inversion Hr1'; subst r1'.
    destruct (IH r1 Hc1 Hin1 Hx1 Hcs') as (r' & Hr' & Hle).
    exists r'. cbn [updates]. rewrite Hr1. cbn [bind].
    split; [assumption |].
    pose proof (update_same_static rd r r1 dt gt p Hr1) as Hs.
    rewrite (speed_bound_same_static r r1 Hs) in Hle.
    rewrite elapsed_cons. cbn [call_dt fst].
    assert (Hel : 0 <= speed_bound r).
    { destruct Hr as [_ [A B]]. lra. }
    destruct (update_advance rd r r1 dt gt p Hx (Qlt_le_weak _ _ Hdt) Hr1)
      as [[Hadv _] | ->].
    + destruct Hin1 as [_ [_ Hv1]].
      rewrite (speed_bound_same_static r r1 Hs) in Hv1.
      assert (speed r1 * dt <= speed_bound r * dt) by nra.
      lra.
    + assert (0 <= speed_bound r * dt) by nra. lra.
Qed.

(** X3.  A competitor cannot outrun its speed bound: from the initial state,
    with the declared constraints and acceleration >= 0, on a track of
    non-negative length, the position after any sequence of calls with
    dt > 0 is at most top_speed * max(burst_multiplier, 1.1) times the sum
    of the dt. *)
Theorem distance_is_bounded_by_elapsed_time
    (rd : Q) (r : BodySystemRunner) (cs : list call) :
  0 <= rd -> declared_constraints r -> initial r ->
  Forall (fun c => 0 < call_dt c) cs ->
  exists r', updates rd r cs = Ok r' /\
             position r' <= speed_bound r * elapsed cs.
Proof.
  intros Hrd Hc Hi Hcs.
  destruct (updates_distance rd cs r Hc (initial_in_range r Hc Hi))
    as (r' & Hr' & Hle); try assumption.
  - destruct Hi as (Hx & _). lra.
  - exists r'. split; [assumption |]. destruct Hi as (Hx & _). lra.
Qed.

Lemma distance_is_bounded_by_elapsed_time_witness :
  (0 <= 200 /\ declared_constraints solo_runner /\ initial solo_runner /\
   Forall (fun c => 0 < call_dt c) [(0.1, 0, 0); (0.1, 0.1, 0)]) /\
  exists r', updates 200 solo_runner [(0.1, 0, 0); (0.1, 0.1, 0)] = Ok r' /\
             position r' <=
               speed_bound solo_runner * elapsed [(0.1, 0, 0); (0.1, 0.1, 0)].
Proof.
  assert (H1 : 0 <= 200) by (vm_compute; discriminate).
  assert (H2 : declared_constraints solo_runner)
    by (vm_compute; repeat split; congruence).
  assert (H3 : initial solo_runner) by (vm_compute; repeat split).
  assert (H4 : Forall (fun c => 0 < call_dt c) [(0.1, 0, 0); (0.1, 0.1, 0)])
    by (repeat constructor).
  split; [exact (conj H1 (conj H2 (conj H3 H4))) |].
  exact (distance_is_bounded_by_elapsed_time 200 solo_runner _ H1 H2 H3 H4).
Defined.

(** ** What [update] does not read *)

Lemma progress_blind_target (r : BodySystemRunner) (p p' : Q) :
  personality r <> "tactical" ->
  base_target_speed r p = base_target_speed r p'.
Proof.
  intros H. unfold base_target_speed.
  destruct (String.eqb_spec (personality r) "tactical") as [E | _];
    [contradiction |].
  reflexivity.
Qed.

Lemma progress_blind_abilities (r : BodySystemRunner) (dt gt p p' tgt : Q) :
  ability r <> "power_burst" -> ability r <> "adrenaline_surge" ->
  abilities r dt gt p tgt = abilities r dt gt p' tgt.
Proof.
  intros H1 H2. unfold abilities.
  destruct (String.eqb_spec (ability r) "power_burst") as [E | _];
    [contradiction |].
  destruct (String.eqb_spec (ability r) "adrenaline_surge") as [E | _];
    [contradiction |].
  reflexivity.
Qed.

Lemma update_progress_blind (rd : Q) (r : BodySystemRunner) (dt gt p p' : Q) :
  progress_blind r -> update rd r dt gt p = update rd r dt gt p'.
Proof.
  intros (H1 & H2 & H3). unfold update.
  rewrite (progress_blind_target r p p' H1).
  rewrite (progress_blind_abilities r dt gt p p' _ H2 H3).
  reflexivity.
Qed.

(** X4.  A competitor that is not "tactical" and has neither "power_burst"
    nor "adrenaline_surge" is updated without regard to race_progress: the
    call returns the same competitor for any two values of it. *)
Theorem update_ignores_race_progress
    (rd : Q) (r : BodySystemRunner) (dt gt p p' : Q) :
  personality r <> "tactical" -> ability r <> "power_burst" ->
  ability r <> "adrenaline_surge" ->
  update rd r dt gt p = update rd r dt gt p'.
Proof.
  intros H1 H2 H3. apply update_progress_blind. repeat split; assumption.
Qed.

Lemma update_ignores_race_progress_witness :
  (personality solo_runner <> "tactical" /\
   ability solo_runner <> "power_burst" /\
   ability solo_runner <> "adrenaline_surge") /\
  update 200 solo_runner 0.1 0 0 = update 200 solo_runner 0.1 0 0.9.
Proof.
  assert (H1 : personality solo_runner <> "tactical") by discriminate.
  assert (H2 : ability solo_runner <> "power_burst") by discriminate.
  assert (H3 : ability solo_runner <> "adrenaline_surge") by discriminate.
  split; [exact (conj H1 (conj H2 H3)) |].
  exact (update_ignores_race_progress 200 solo_runner 0.1 0 0 0.9 H1 H2 H3).
Defined.

(** X5.  Unless the ability is "reflex_start", global_time is only stamped
    into finish_time: two calls that differ in global_time alone agree on
    position, speed, stamina and the finished flag, and finish_time is in
    both the old one or in both the respective global_time. *)
Theorem global_time_is_only_a_stamp
    (rd : Q) (r : BodySystemRunner) (dt gt gt' p : Q) :
  ability r <> "reflex_start" ->
  exists r1 r2,
    update rd r dt gt p = Ok r1 /\ update rd r dt gt' p = Ok r2 /\
    position r1 = position r2 /\ speed r1 = speed r2 /\
    stamina r1 = stamina r2 /\ finished r1 = finished r2 /\
    ((finish_time r1 = finish_time r /\ finish_time r2 = finish_time r) \/
     (finish_time r1 = Some gt /\ finish_time r2 = Some gt')).
Proof.
  intros Hab. destruct (finished r) eqn:Hf.
  - exists r, r. rewrite !update_finished by assumption.
    repeat split. now left.
  - assert (Eab : forall tgt,
              abilities r dt gt p tgt = abilities r dt gt' p tgt).
    { intros tgt. unfold abilities.
      destruct (String.eqb_spec (ability r) "reflex_start") as [E | _];
        [contradiction |].
      reflexivity. }
    unfold update. rewrite Hf, <- Eab.
    destruct (abilities r dt gt p (base_target_speed r p)) as [s1 tg].
    destruct (speed_fraction_total r) as [sf Hsf]. rewrite Hsf. cbn [bind].
    destruct (stamina_fraction_unit r s1 sf dt) as [stf [Hstf _]].
    rewrite Hstf. cbn [bind].
    destruct (_ >=? rd); eexists; eexists;
      (split; [reflexivity |]); (split; [reflexivity |]); cbn;
      repeat split; auto.
Qed.

Lemma global_time_is_only_a_stamp_witness :
  ability solo_runner <> "reflex_start" /\
  exists r1 r2,
    update 200 solo_runner 0.1 0 0 = Ok r1 /\
    update 200 solo_runner 0.1 7 0 = Ok r2 /\
    position r1 = position r2 /\ speed r1 = speed r2 /\
    stamina r1 = stamina r2 /\ finished r1 = finished r2 /\
    ((finish_time r1 = finish_time solo_runner /\
      finish_time r2 = finish_time solo_runner) \/
     (finish_time r1 = Some 0 /\ finish_time r2 = Some 7)).
Proof.
  assert (H1 : ability solo_runner <> "reflex_start") by discriminate.
  split; [exact H1 |].
  exact (global_time_is_only_a_stamp 200 solo_runner 0.1 0 7 0 H1).
Defined.

(** ** Ranges from any state *)

(** X6.  Whatever values the dynamic fields hold, one call on an unfinished
    competitor leaves speed >= 0 and stamina >= 0, with
    stamina <= stamina_max when stamina_max >= 0 and stamina = 0 when
    stamina_max <= 0. *)
Theorem update_restores_ranges
    (rd : Q) (r : BodySystemRunner) (dt gt p : Q) :
  finished r = false ->
  exists r', update rd r dt gt p = Ok r' /\
    0 <= speed r' /\ 0 <= stamina r' /\
    (0 <= stamina_max r -> stamina r' <= stamina_max r) /\
    (stamina_max r <= 0 -> stamina r' == 0).
Proof.
  intros Hf. run_update rd r dt gt p Hf.
  eexists. split; [exact Hup |].
  set (ab := abilities r dt gt p (base_target_speed r p)) in *.
  pose proof (move_toward_nonneg r (fatigue r (snd ab) stf) dt) as Hsp.
  pose proof (stamina_mechanics_nonneg r (fst ab) sf dt) as Hst0.
  assert (Hst1 : 0 <= stamina_max r ->
                 stamina_mechanics r (fst ab) sf dt <= stamina_max r).
  { intros H. apply stamina_mechanics_range. assumption. }
  assert (Hst2 : stamina_max r <= 0 ->
                 stamina_mechanics r (fst ab) sf dt == 0).
  { intros H. unfold stamina_mechanics. pym; lra. }
  destruct (_ >=? rd); cbn; repeat split; assumption.
Qed.

Lemma update_restores_ranges_witness :
  finished overfull_runner = false /\
  exists r', update 200 overfull_runner 0.1 0 0 = Ok r' /\
    0 <= speed r' /\ 0 <= stamina r' /\
    (0 <= stamina_max overfull_runner ->
     stamina r' <= stamina_max overfull_runner) /\
    (stamina_max overfull_runner <= 0 -> stamina r' == 0).
Proof.
  split; [reflexivity |].
  exact (update_restores_ranges 200 overfull_runner 0.1 0 0 eq_refl).
Defined.

(** ** The floor of "structural_stability" *)

(** X7.  With the ability "structural_stability", fatigue cannot hold the
    competitor below 0.9 * 0.85 * top_speed: after one call with
    acceleration >= 0 and dt >= 0 the speed is at least the smaller of that
    floor and the old speed plus acceleration * dt. *)
Theorem structural_stability_floor
    (rd : Q) (r : BodySystemRunner) (dt gt p : Q) :
  ability r = "structural_stability" -> finished r = false ->
  0 <= acceleration r -> 0 <= dt ->
  exists r', update rd r dt gt p = Ok r' /\
    Qmin (speed r + acceleration r * dt) (0.9 * 0.85 * top_speed r)
      <= speed r'.
Proof.
  intros Hab Hf Ha Hdt. run_update rd r dt gt p Hf.
  eexists. split; [exact Hup |].
  set (ab := abilities r dt gt p (base_target_speed r p)) in *.
  assert (Hfl : 0.9 * 0.85 * top_speed r <= fatigue r (snd ab) stf).
  { unfold fatigue. rewrite Hab. cbn. apply pymax_lower. }
  assert (Hmv : Qmin (speed r + acceleration r * dt)
                     (0.9 * 0.85 * top_speed r)
                <= move_toward r (fatigue r (snd ab) stf) dt).
  { assert (0 <= acceleration r * dt) by nra.
    set (eff := fatigue r (snd ab) stf) in *.
    destruct (Q.min_spec (speed r + acceleration r * dt)
                (0.9 * 0.85 * top_speed r)) as [[Hm ->] | [Hm ->]];
      unfold move_toward; qcases; pym; lra. }
  destruct (_ >=? rd); cbn; exact Hmv.
Qed.

Lemma structural_stability_floor_witness :
  (ability bonestride_spent = "structural_stability" /\
   finished bonestride_spent = false /\
   0 <= acceleration bonestride_spent /\ 0 <= 0.1) /\
  exists r', update 200 bonestride_spent 0.1 20 0.7 = Ok r' /\
    Qmin (speed bonestride_spent + acceleration bonestride_spent * 0.1)
         (0.9 * 0.85 * top_speed bonestride_spent)
      <= speed r'.
Proof.
  assert (H1 : ability bonestride_spent = "structural_stability")
    by reflexivity.
  assert (H2 : finished bonestride_spent = false) by reflexivity.
  assert (H3 : 0 <= acceleration bonestride_spent)
    by (vm_compute; discriminate).
  assert (H4 : 0 <= 0.1) by (vm_compute; discriminate).
  split; [exact (conj H1 (conj H2 (conj H3 H4))) |].
  exact (structural_stability_floor 200 bonestride_spent 0.1 20 0.7
           H1 H2 H3 H4).
Defined.

(* ================================================================== *)
(** * The stages of [update], further properties *)
(* ================================================================== *)

(** X8.  Stage 5 never overshoots. With acceleration >= 0 and dt >= 0 the
    speed moves toward a target >= 0 and not past it: the new speed lies
    between the old speed and the target. *)
Theorem move_toward_never_overshoots
    (r : BodySystemRunner) (eff dt : Q) :
  0 <= acceleration r -> 0 <= dt -> 0 <= eff ->
  Qmin (speed r) eff <= move_toward r eff dt /\
  move_toward r eff dt <= Qmax (speed r) eff.
Proof.
  intros Ha Hdt He. assert (0 <= acceleration r * dt) by nra.
  destruct (Q.min_spec (speed r) eff) as [[Hm ->] | [Hm ->]];
    destruct (Q.max_spec (speed r) eff) as [[HM ->] | [HM ->]];
    unfold move_toward; qcases; pym; split; lra.
Qed.

Lemma move_toward_never_overshoots_witness :
  (0 <= acceleration solo_runner /\ 0 <= 0.1 /\ 0 <= 8) /\
  Qmin (speed solo_runner) 8 <= move_toward solo_runner 8 0.1 /\
  move_toward solo_runner 8 0.1 <= Qmax (speed solo_runner) 8.
Proof.
  assert (H1 : 0 <= acceleration solo_runner) by (vm_compute; discriminate).
  assert (H2 : 0 <= 0.1) by (vm_compute; discriminate).
  assert (H3 : 0 <= 8) by (vm_compute; discriminate).
  split; [exact (conj H1 (conj H2 H3)) |].
  exact (move_toward_never_overshoots solo_runner 8 0.1 H1 H2 H3).
Defined.



(** X10.  The lung ability fires in the first metre after every multiple of
    20, the start line included: the trigger holds exactly when the position
    is positive and lies in [20 m, 20 m + 1) for some integer m >= 0. *)
Theorem deep_inhale_fires_in_the_metre_after_each_multiple_of_20
    (r : BodySystemRunner) :
  deep_inhale_trigger r = true <->
  0 < position r /\
  exists m : Z, (0 <= m)%Z /\
    inject_Z (20 * m) <= position r /\ position r < inject_Z (20 * m) + 1.
Proof.
  rewrite deep_inhale_trigger_floor. unfold floor_trigger.
  rewrite andb_true_iff, Z.eqb_eq, Qltb_true.
  set (x := position r).
  pose proof (Qfloor_le x) as Hfl. pose proof (Qlt_floor x) as Hlt.
  rewrite inject_Z_plus in Hlt. change (inject_Z 1) with 1 in Hlt.
  split.
  - intros [Hmod Hpos]. split; [assumption |].
    exists (Qfloor x / 20)%Z.
    assert (Hf0 : (0 <= Qfloor x)%Z).
    { change 0%Z with (Qfloor 0). apply Qfloor_resp_le. lra. }
    assert (E : (20 * (Qfloor x / 20) = Qfloor x)%Z).
    { symmetry. apply Z_div_exact_full_2; [lia | assumption]. }
    rewrite E. split; [apply Z.div_pos; lia |]. split; lra.
  - intros [Hpos (m & Hm & Hlo & Hhi)]. split; [| assumption].
    assert (E : Qfloor x = (20 * m)%Z).
    { apply Z.le_antisymm.
      - assert (inject_Z (Qfloor x) < inject_Z (20 * m + 1)).
        { rewrite inject_Z_plus. change (inject_Z 1) with 1. lra. }
        rewrite <- Zlt_Qlt in H. lia.
      - rewrite <- (Qfloor_Z (20 * m)). now apply Qfloor_resp_le. }
    rewrite E, Z.mul_comm. apply Z_mod_mult.
Qed.

(* ================================================================== *)
(** * The race as a sequence of ticks *)
(* ================================================================== *)

Section RaceFacts.

Variables rd dt max : Q.

(** What one execution of the loop body leaves behind. *)
Lemma loop_body_inv (s s1 : LoopState) :
  loop_body rd dt s = Ok s1 ->
  exists p,
    race_progress rd (runners s) = Ok p /\
    Forall2 (fun r r' => update rd r dt (t s) p = Ok r')
      (runners s) (runners s1) /\
    t s1 = t s + dt /\
    frames s1 = (frames s ++ [snapshot (t s) (runners s1)])%list.
Proof.
  unfold loop_body. intros H.
  destruct (race_progress rd (runners s)) as [p | e] eqn:Hp;
    cbn [bind] in H; [| discriminate].
  unfold update_all in H.
  destruct (mapM (fun r => update rd r dt (t s) p) (runners s))
    as [rs | e] eqn:Hrs; cbn [bind] in H; [| discriminate].
  injection H as <-. exists p. cbn [runners t frames].
  split; [reflexivity |]. split; [now apply mapM_Forall2 |].
  split; reflexivity.
Qed.

(** The fuelled loop returns only what the loop relation describes. *)
Lemma while_loop_runs (fuel : nat) :
  forall s s', while_loop rd dt max fuel s = Some (Ok s') ->
    exists n, (n < fuel)%nat /\ loop_runs rd dt max n s s'.
Proof.
  induction fuel as [| fuel IH]; intros s s' H; cbn [while_loop] in H;
    [discriminate |].
  destruct (loop_cond max s) eqn:Hc.
  - destruct (loop_body rd dt s) as [s1 | e] eqn:Hb; [| discriminate].
    destruct (IH s1 s' H) as (n & Hn & Hruns).
    exists (S n). split; [lia |]. now apply (loop_iter rd dt max n s s1 s').
  - injection H as <-. exists 0%nat. split; [lia |]. now constructor.
Qed.


(** Tick [k] of a run of [n] ticks: the loop test holds in the state
    before it, the body returns, and the frame it appends stays at its
    place in the list. *)
Lemma loop_runs_tick (n : nat) (s s' : LoopState) :
  loop_runs rd dt max n s s' ->
  forall k, (k < n)%nat ->
    exists sk sk1,
      iter_body rd dt k s = Ok sk /\ loop_cond max sk = true /\
      loop_body rd dt sk = Ok sk1 /\
      iter_body rd dt (S k) s = Ok sk1 /\
      nth_error (frames s') (length (frames s) + k) =
        Some (snapshot (t sk) (runners sk1)).
Proof.
  induction 1 as [s Hc | n s s1 s' Hc Hb Hruns IH]; intros k Hk; [lia |].
  destruct (loop_body_inv s s1 Hb) as (p & _ & _ & _ & Hfr).
  destruct k as [| k].
  - exists s, s1. split; [reflexivity |]. split; [assumption |].
    split; [assumption |].
    split; [cbn [iter_body]; rewrite Hb; reflexivity |].
    destruct (loop_runs_clock rd dt max n s1 s' Hruns) as (_ & Hlen & _).
    assert (Hpre : exists fs, frames s' = (frames s1 ++ fs)%list).
    { clear - Hruns. induction Hruns as [s Hc | n s sa s' Hc Hb _ [fs IH]].
      - exists []. now rewrite app_nil_r.
      - destruct (loop_body_inv s sa Hb) as (p & _ & _ & _ & Hfr).
        rewrite Hfr in IH. rewrite <- app_assoc in IH. eauto. }
    destruct Hpre as [fs Hfs]. rewrite Hfs, Hfr, <- app_assoc.
    rewrite Nat.add_0_r, nth_error_app2 by lia.
    rewrite Nat.sub_diag. reflexivity.
  - destruct (IH k ltac:(lia)) as (sk & sk1 & H1 & H2 & H3 & H4 & H5).
    exists sk, sk1. cbn [iter_body]. rewrite Hb. cbn [bind].
    repeat split; try assumption.
    rewrite Hfr, length_app in H5. cbn [length] in H5.
    replace (length (frames s) + S k)%nat
      with (length (frames s) + 1 + k)%nat by lia.
    exact H5.
Qed.

(** An invariant of the loop body holds after any number of ticks. *)
Lemma iter_body_invariant (Inv : LoopState -> Prop) :
  (forall s s1, Inv s -> loop_body rd dt s = Ok s1 -> Inv s1) ->
  forall k s sk, Inv s -> iter_body rd dt k s = Ok sk -> Inv sk.
Proof.
  intros Hstep. induction k as [| k IH]; intros s sk Hs H;
    cbn [iter_body] in H.
  - injection H as <-. assumption.
  - destruct (loop_body rd dt s) as [s1 | e] eqn:Hb; cbn [bind] in H;
      [| discriminate].
    apply (IH s1 sk); [apply (Hstep s s1) |]; assumption.
Qed.

(** A relation between the roster and the runners that single calls keep
    is kept by the loop body. *)
Lemma loop_body_Forall2 (R : BodySystemRunner -> BodySystemRunner -> Prop)
    (roster : list BodySystemRunner) (s s1 : LoopState) :
  (forall r0 r r' gt p, R r0 r -> update rd r dt gt p = Ok r' -> R r0 r') ->
  Forall2 R roster (runners s) -> loop_body rd dt s = Ok s1 ->
  Forall2 R roster (runners s1).
Proof.
  intros Hstep HR Hb.
  destruct (loop_body_inv s s1 Hb) as (p & _ & Hup & _).
  revert HR Hup. generalize (runners s) (runners s1). clear Hb.
  intros l l1 HR. revert l1.
  induction HR as [| r0 r roster l Hr _ IH]; intros l1 Hup;
    inversion Hup; subst; constructor.
  - eapply Hstep; eassumption.
  - now apply IH.
Qed.

(** Every runner of the final state is the roster's runner at the same
    place after one [update] per tick. *)
Lemma loop_runs_members (n : nat) (s s' : LoopState) :
  loop_runs rd dt max n s s' ->
  exists ps, length ps = n /\
    Forall2 (fun r r' => updates rd r (tick_calls dt (t s) ps) = Ok r')
      (runners s) (runners s').
Proof.
  induction 1 as [s Hc | n s s1 s' Hc Hb _ (ps & Hlen & IH)].
  - exists []. split; [reflexivity |]. cbn [tick_calls updates].
    induction (runners s); constructor; auto.
  - destruct (loop_body_inv s s1 Hb) as (p & _ & Hup & Ht & _).
    exists (p :: ps). split; [cbn; lia |].
    cbn [tick_calls]. rewrite Ht in IH.
    revert Hup IH. generalize (runners s) (runners s1) (runners s').
    intros l. induction l as [| r l IHl]; intros l1 l' Hup Hrest;
      inversion Hup; subst; inversion Hrest; subst; constructor.
    + cbn [updates]. match goal with H : update rd r _ _ _ = _ |- _ =>
        rewrite H end. cbn [bind]. assumption.
    + eapply IHl; eassumption.
Qed.

End RaceFacts.

Lemma Forall2_impl {A B : Type} (R R' : A -> B -> Prop) (l : list A)
    (l' : list B) :
  (forall a b, R a b -> R' a b) -> Forall2 R l l' -> Forall2 R' l l'.
Proof. intros H. induction 1; constructor; auto. Qed.

Lemma tick_calls_dt (dt : Q) (ps : list Q) :
  forall t0, Forall (fun c => call_dt c = dt) (tick_calls dt t0 ps).
Proof.
  induction ps as [| p ps IH]; intros t0; cbn [tick_calls]; constructor;
    [reflexivity | apply IH].
Qed.

(** The runners a race returns, place by place. *)
Lemma race_members
    (rd dt max : Q) (fuel : nat) (roster : list BodySystemRunner)
    (s : LoopState) :
  run_race rd dt max fuel roster = Some (Ok s) ->
  exists ps,
    length ps = length (frames s) /\
    length (runners s) = length roster /\
    Forall2 (fun r r' => updates rd r (tick_calls dt 0.0 ps) = Ok r' /\
                         same_static r r')
      roster (runners s).
Proof.
  intros H. unfold run_race in H.
  destruct (while_loop_runs rd dt max fuel _ _ H) as (n & _ & Hruns).
  destruct (loop_runs_members rd dt max n _ _ Hruns) as (ps & Hlen & Hmem).
  destruct (loop_runs_clock rd dt max n _ _ Hruns) as (_ & Hfr & Hrs).
  cbn [initial_loop_state frames runners t length] in *.
  exists ps. split; [lia |]. split; [assumption |].
  eapply Forall2_impl; [| exact Hmem].
  intros r r' Hr. split; [assumption |].
  eapply updates_same_static. exact Hr.
Qed.

(* ================================================================== *)
(** * The frames of a race *)
(* ================================================================== *)

Lemma iter_body_clock (rd dt : Q) (k : nat) :
  forall s sk, iter_body rd dt k s = Ok sk ->
    t sk == t s + ticks_time k dt /\
    length (runners sk) = length (runners s).
Proof.
  induction k as [| k IH]; intros s sk H; cbn [iter_body] in H.
  - injection H as <-. unfold ticks_time. cbn. split; [ring | reflexivity].
  - destruct (loop_body rd dt s) as [s1 | e] eqn:Hb; cbn [bind] in H;
      [| discriminate].
    destruct (loop_body_inv rd dt s s1 Hb) as (p & _ & Hup & Ht & _).
    destruct (IH s1 sk H) as [IH1 IH2].
    rewrite ticks_time_S, IH1, Ht, IH2.
    split; [ring |]. symmetry. eapply Forall2_length. exact Hup.
Qed.

Lemma nth_error_lt {A : Type} (l : list A) (k : nat) (a : A) :
  nth_error l k = Some a -> (k < length l)%nat.
Proof. intros H. apply nth_error_Some. congruence. Qed.

(** The frame of tick [k] in the list a race returns. *)
Lemma race_frame (rd dt max : Q) (fuel : nat)
    (roster : list BodySystemRunner) (s : LoopState) (k : nat) (f : Frame) :
  run_race rd dt max fuel roster = Some (Ok s) ->
  nth_error (frames s) k = Some f ->
  exists sk sk1,
    iter_body rd dt k (initial_loop_state roster) = Ok sk /\
    loop_cond max sk = true /\
    loop_body rd dt sk = Ok sk1 /\
    iter_body rd dt (S k) (initial_loop_state roster) = Ok sk1 /\
    f = snapshot (t sk) (runners sk1).
Proof.
  intros H Hk. unfold run_race in H.
  destruct (while_loop_runs rd dt max fuel _ _ H) as (n & _ & Hruns).
  destruct (loop_runs_clock rd dt max n _ _ Hruns) as (_ & Hfr & _).
  cbn [initial_loop_state frames length] in Hfr.
  pose proof (nth_error_lt _ _ _ Hk) as Hlt.
  destruct (loop_runs_tick rd dt max n _ _ Hruns k ltac:(lia))
    as (sk & sk1 & H1 & H2 & H3 & H4 & H5).
  cbn [initial_loop_state frames length] in H5. cbn [Nat.add] in H5.
  exists sk, sk1. repeat split; try assumption. congruence.
Qed.

(** Time and size of a frame. *)
Lemma race_frame_shape
    (rd dt max : Q) (fuel : nat) (roster : list BodySystemRunner)
    (s : LoopState) (k : nat) (f : Frame) :
  run_race rd dt max fuel roster = Some (Ok s) ->
  nth_error (frames s) k = Some f ->
  frame_time f == ticks_time k dt /\
  length (frame_positions f) = length roster /\
  length (frame_stamina f) = length roster /\
  length (frame_speeds f) = length roster.
Proof.
  intros H Hk.
  destruct (race_frame rd dt max fuel roster s k f H Hk)
    as (sk & sk1 & H1 & _ & _ & H4 & ->).
  destruct (iter_body_clock rd dt k _ _ H1) as [Ht _].
  destruct (iter_body_clock rd dt (S k) _ _ H4) as [_ Hlen].
  cbn [initial_loop_state t runners] in *.
  unfold snapshot. cbn. rewrite !length_map, Hlen.
  split; [rewrite Ht; ring | repeat split].
Qed.

(** The last frame and the state on exit. *)
Lemma race_last_frame
    (rd dt max : Q) (fuel : nat) (roster : list BodySystemRunner)
    (s : LoopState) :
  run_race rd dt max fuel roster = Some (Ok s) ->
  (frames s = [] -> runners s = roster /\ t s = 0.0) /\
  (frames s <> [] ->
   exists f,
     nth_error (frames s) (length (frames s) - 1) = Some f /\
     frame_positions f = map position (runners s) /\
     frame_stamina f = map stamina (runners s) /\
     frame_speeds f = map speed (runners s) /\
     t s = frame_time f + dt).
Proof.
  intros H. pose proof H as Hrun. unfold run_race in H.
  destruct (while_loop_runs rd dt max fuel _ _ H) as (n & _ & Hruns).
  destruct (loop_runs_clock rd dt max n _ _ Hruns) as (_ & Hfr & _).
  cbn [initial_loop_state frames length] in Hfr. cbn [Nat.add] in Hfr.
  split.
  - intros E. rewrite E in Hfr. cbn in Hfr. subst n.
    inversion Hruns; subst. split; reflexivity.
  - intros Hne.
    assert (Hn : (0 < n)%nat).
    { destruct (frames s); [contradiction | cbn in Hfr; lia]. }
    destruct (nth_error (frames s) (length (frames s) - 1)) as [f |] eqn:Hf.
    2:{ apply nth_error_None in Hf. lia. }
    destruct (race_frame rd dt max fuel roster s _ f Hrun Hf)
      as (sk & sk1 & H1 & _ & H3 & H4 & ->).
    pose proof (loop_runs_iter rd dt max n _ _ Hruns) as Hit.
    replace (S (length (frames s) - 1)) with n in H4 by lia.
    rewrite Hit in H4. injection H4 as <-.
    destruct (loop_body_inv rd dt sk s H3) as (p & _ & _ & Ht & _).
    eexists. split; [reflexivity |].
    cbn [snapshot frame_positions frame_stamina frame_speeds frame_time].
    split; [reflexivity |]. split; [reflexivity |].
    split; [reflexivity | exact Ht].
Qed.

(** ** Positions in the frames *)

Lemma update_on_track (rd : Q) (r r' : BodySystemRunner) (dt gt p : Q) :
  0 < dt -> on_track rd r -> update rd r dt gt p = Ok r' ->
  on_track rd r' /\ position r <= position r'.
Proof.
  intros Hdt [H0 H1] H.
  destruct (update_position rd r dt gt p H1 Hdt) as (x & Hx & Ha & Hb).
  rewrite H in Hx. injection Hx as <-. unfold on_track.
  repeat split; lra.
Qed.

Lemma loop_body_Forall (P : BodySystemRunner -> Prop) (rd dt : Q)
    (s s1 : LoopState) :
  (forall r r' gt p, P r -> update rd r dt gt p = Ok r' -> P r') ->
  Forall P (runners s) -> loop_body rd dt s = Ok s1 ->
  Forall P (runners s1).
Proof.
  intros Hstep HP Hb.
  destruct (loop_body_inv rd dt s s1 Hb) as (p & _ & Hup & _).
  eapply Forall2_Forall; [| exact Hup | exact HP].
  intros a b Hab Ha. cbv beta in Hab. exact (Hstep a b _ _ Ha Hab).
Qed.

Lemma iter_body_Forall (P : BodySystemRunner -> Prop) (rd dt : Q) (k : nat)
    (s sk : LoopState) :
  (forall r r' gt p, P r -> update rd r dt gt p = Ok r' -> P r') ->
  Forall P (runners s) -> iter_body rd dt k s = Ok sk ->
  Forall P (runners sk).
Proof.
  intros Hstep HP H.
  apply (iter_body_invariant rd dt (fun x => Forall P (runners x))
           (fun a b Ha Hb => loop_body_Forall P rd dt a b Hstep Ha Hb)
           k s sk HP H).
Qed.

(** Positions in the frames of a race on the track. *)
Lemma race_frame_positions
    (rd dt max : Q) (fuel : nat) (roster : list BodySystemRunner)
    (s : LoopState) :
  0 < dt -> Forall (on_track rd) roster ->
  run_race rd dt max fuel roster = Some (Ok s) ->
  (forall k f, nth_error (frames s) k = Some f ->
     Forall (fun x => 0 <= x /\ x <= rd) (frame_positions f)) /\
  (forall k f g,
     nth_error (frames s) k = Some f ->
     nth_error (frames s) (S k) = Some g ->
     Forall2 Qle (frame_positions f) (frame_positions g)).
Proof.
  intros Hdt Hroster H.
  assert (Hstep : forall r r' gt p,
             on_track rd r -> update rd r dt gt p = Ok r' -> on_track rd r').
  { intros r r' gt p Hr Hup.
    now destruct (update_on_track rd r r' dt gt p Hdt Hr Hup). }
  split.
  - intros k f Hk.
    destruct (race_frame rd dt max fuel roster s k f H Hk)
      as (sk & sk1 & _ & _ & _ & H4 & ->).
    pose proof (iter_body_Forall (on_track rd) rd dt (S k)
                  (initial_loop_state roster) sk1 Hstep
                  Hroster H4) as Hon.
    unfold snapshot. cbn [frame_positions]. clear - Hon.
    induction Hon; cbn [map]; constructor; auto.
  - intros k f g Hf Hg.
    destruct (race_frame rd dt max fuel roster s k f H Hf)
      as (sk & sk1 & _ & _ & _ & H4 & ->).
    destruct (race_frame rd dt max fuel roster s (S k) g H Hg)
      as (sk' & sk2 & H1' & _ & H3' & _ & ->).
    rewrite H4 in H1'. injection H1' as <-.
    pose proof (iter_body_Forall (on_track rd) rd dt (S k)
                  (initial_loop_state roster) sk1 Hstep
                  Hroster H4) as Hon.
    destruct (loop_body_inv rd dt sk1 sk2 H3') as (p & _ & Hup & _).
    unfold snapshot. cbn [frame_positions]. clear - Hon Hup Hdt.
    induction Hup as [| r r' l l' Hr _ IH]; cbn [map]; constructor.
    + inversion Hon; subst.
      now destruct (update_on_track rd r r' dt _ _ Hdt H1 Hr).
    + apply IH. now inversion Hon.
Qed.

Lemma Forall2_nth_l {A B : Type} (R : A -> B -> Prop) (l : list A)
    (l' : list B) :
  Forall2 R l l' ->
  forall i a, nth_error l i = Some a ->
    exists b, nth_error l' i = Some b /\ R a b.
Proof.
  induction 1 as [| x y l l' Hxy _ IH]; intros i a Hi.
  - destruct i; discriminate.
  - destruct i as [| i]; cbn in *.
    + injection Hi as <-. eauto.
    + apply IH. assumption.
Qed.

Lemma Forall2_nth_r {A B : Type} (R : A -> B -> Prop) (l : list A)
    (l' : list B) :
  Forall2 R l l' ->
  forall i b, nth_error l' i = Some b ->
    exists a, nth_error l i = Some a /\ R a b.
Proof.
  induction 1 as [| x y l l' Hxy _ IH]; intros i b Hi.
  - destruct i; discriminate.
  - destruct i as [| i]; cbn in *.
    + injection Hi as <-. eauto.
    + apply IH. assumption.
Qed.

Lemma iter_body_Forall2 (R : BodySystemRunner -> BodySystemRunner -> Prop)
    (rd dt : Q) (roster : list BodySystemRunner) (k : nat)
    (s sk : LoopState) :
  (forall r0 r r' gt p, R r0 r -> update rd r dt gt p = Ok r' -> R r0 r') ->
  Forall2 R roster (runners s) -> iter_body rd dt k s = Ok sk ->
  Forall2 R roster (runners sk).
Proof.
  intros Hstep HR H.
  apply (iter_body_invariant rd dt (fun x => Forall2 R roster (runners x))
           (fun a b Ha Hb => loop_body_Forall2 rd dt R roster a b Hstep Ha Hb)
           k s sk HR H).
Qed.

(** Stamina and speeds in the frames of a race. *)
Lemma race_frame_ranges
    (rd dt max : Q) (fuel : nat) (roster : list BodySystemRunner)
    (s : LoopState) (k : nat) (f : Frame) :
  0 < dt -> Forall declared_constraints roster -> Forall initial roster ->
  run_race rd dt max fuel roster = Some (Ok s) ->
  nth_error (frames s) k = Some f ->
  Forall2 (fun r x => 0 <= x /\ x <= stamina_max r)
    roster (frame_stamina f) /\
  Forall2 (fun r v => 0 <= v /\ v <= speed_bound r)
    roster (frame_speeds f).
Proof.
  intros Hdt Hc Hi H Hk.
  destruct (race_frame rd dt max fuel roster s k f H Hk)
    as (sk & sk1 & _ & _ & _ & H4 & ->).
  set (R := fun r0 r : BodySystemRunner =>
              same_static r0 r /\ declared_constraints r /\ in_range r).
  assert (Hstep : forall r0 r r' gt p,
             R r0 r -> update rd r dt gt p = Ok r' -> R r0 r').
  { intros r0 r r' gt p (Hs & Hd & Hr) Hup.
    destruct (update_in_range rd r dt gt p (conj Hd Hr) Hdt)
      as (x & Hx & Hd' & Hr').
    rewrite Hup in Hx. injection Hx as <-.
    split; [| split; assumption].
    eapply same_static_trans; [exact Hs |].
    eapply update_same_static. exact Hup. }
  assert (H0 : Forall2 R roster (runners (initial_loop_state roster))).
  { cbn [initial_loop_state runners]. clear - Hc Hi.
    induction roster as [| r l IH]; constructor.
    - inversion Hc; inversion Hi; subst.
      split; [apply same_static_refl |].
      split; [assumption | now apply initial_in_range].
    - apply IH; [now inversion Hc | now inversion Hi]. }
  pose proof (iter_body_Forall2 R rd dt roster (S k) _ sk1 Hstep H0 H4)
    as HR.
  unfold snapshot. cbn [frame_stamina frame_speeds]. clear - HR.
  induction HR as [| r0 r l l' (Hs & _ & Hr) _ [IH1 IH2]]; cbn [map];
    split; constructor; try assumption.
  - destruct Hs as (_ & _ & _ & _ & _ & Hsm & _). rewrite <- Hsm.
    apply Hr.
  - rewrite <- (speed_bound_same_static r0 r Hs). apply Hr.
Qed.

(** ** Finish times and frames *)

Lemma updates_finished (rd : Q) (cs : list call) (r : BodySystemRunner) :
  finished r = true -> updates rd r cs = Ok r.
Proof.
  intros Hf. induction cs as [| [[dt gt] p] cs IH]; cbn [updates];
    [reflexivity |].
  rewrite update_finished by assumption. cbn [bind]. exact IH.
Qed.

(** A finished runner stays as it is for the rest of the race. *)
Lemma loop_runs_finished (rd dt max : Q) (n : nat) (s s' : LoopState)
    (i : nat) (r : BodySystemRunner) :
  loop_runs rd dt max n s s' ->
  nth_error (runners s) i = Some r -> finished r = true ->
  nth_error (runners s') i = Some r.
Proof.
  intros Hruns Hi Hf.
  destruct (loop_runs_members rd dt max n s s' Hruns) as (ps & _ & Hmem).
  destruct (Forall2_nth_l _ _ _ Hmem i r Hi) as (r' & Hr' & Hup).
  cbv beta in Hup. rewrite updates_finished in Hup by assumption.
  congruence.
Qed.

(** The tick on which a runner arrives, seen from the frames. *)
Lemma loop_runs_arrival (rd dt max : Q) (n : nat) (s s' : LoopState) :
  loop_runs rd dt max n s s' ->
  forall i r0 r ft,
    nth_error (runners s) i = Some r0 ->
    finished r0 = false -> finish_time r0 = None -> position r0 < rd ->
    nth_error (runners s') i = Some r -> finish_time r = Some ft ->
    exists k f,
      (k < n)%nat /\
      nth_error (frames s') (length (frames s) + k) = Some f /\
      ft = frame_time f /\
      nth_error (frame_positions f) i = Some rd /\
      forall j g, (j < k)%nat ->
        nth_error (frames s') (length (frames s) + j) = Some g ->
        exists x, nth_error (frame_positions g) i = Some x /\ x < rd.
Proof.
  induction 1 as [s Hc | n s s1 s' Hc Hb Hruns IH];
    intros i r0 r ft Hi Hf Hnone Hx Hi' Hft.
  - congruence.
  - assert (Hall : loop_runs rd dt max (S n) s s')
      by (now apply (loop_iter rd dt max n s s1 s')).
    destruct (loop_runs_tick rd dt max (S n) s s' Hall 0%nat ltac:(lia))
      as (sk & sk1 & E1 & _ & E3 & _ & Hfr0).
    cbn [iter_body] in E1. injection E1 as <-.
    rewrite Hb in E3. injection E3 as <-.
    destruct (loop_body_inv rd dt s s1 Hb) as (p & _ & Hup & _ & Hfr).
    destruct (Forall2_nth_l _ _ _ Hup i r0 Hi) as (r1 & Hr1 & Hu).
    cbv beta in Hu.
    destruct (update_cases rd r0 dt (t s) p Hf)
      as (x & Hx' & [(_ & Hf1 & Hp1 & Hft1) | (Hlt & Hf1 & Hp1 & Hft1)]);
      rewrite Hu in Hx'; injection Hx' as <-.
    + pose proof (loop_runs_finished rd dt max n s1 s' i r1 Hruns Hr1 Hf1)
        as Hsame.
      rewrite Hi' in Hsame. injection Hsame as ->.
      exists 0%nat. eexists. split; [lia |]. split; [exact Hfr0 |].
      cbn [snapshot frame_time frame_positions].
      split; [congruence |].
      split; [rewrite nth_error_map, Hr1; cbn; now rewrite Hp1 |].
      intros j g Hj. lia.
    + assert (Hx1 : position r1 < rd) by (rewrite Hp1; exact Hlt).
      assert (Hn1 : finish_time r1 = None) by congruence.
      destruct (IH i r1 r ft Hr1 Hf1 Hn1 Hx1 Hi' Hft)
        as (k & f & Hk & Hfk & Hftk & Hpos & Hbefore).
      rewrite Hfr, length_app in Hfk. cbn [length] in Hfk.
      exists (S k), f. split; [lia |].
      split.
      { replace (length (frames s) + S k)%nat
          with (length (frames s) + 1 + k)%nat by lia. exact Hfk. }
      split; [assumption |]. split; [assumption |].
      intros j g Hj Hg. destruct j as [| j].
      * rewrite Hfr0 in Hg. injection Hg as <-.
        cbn [snapshot frame_positions]. exists (position r1).
        split; [rewrite nth_error_map, Hr1; reflexivity |].
        rewrite Hp1. exact Hlt.
      * apply (Hbefore j g); [lia |].
        rewrite Hfr, length_app. cbn [length].
        replace (length (frames s) + 1 + j)%nat
          with (length (frames s) + S j)%nat by lia. exact Hg.
Qed.

(** The frame of the tick on which a finish time was set. *)
Lemma race_arrival_frame
    (rd dt max : Q) (fuel : nat) (roster : list BodySystemRunner)
    (s : LoopState) (i : nat) (r : BodySystemRunner) (ft : Q) :
  0 < rd -> Forall initial roster ->
  run_race rd dt max fuel roster = Some (Ok s) ->
  nth_error (runners s) i = Some r -> finish_time r = Some ft ->
  exists k f,
    nth_error (frames s) k = Some f /\
    ft = frame_time f /\ ft == ticks_time k dt /\
    nth_error (frame_positions f) i = Some rd /\
    forall j g, (j < k)%nat -> nth_error (frames s) j = Some g ->
      exists x, nth_error (frame_positions g) i = Some x /\ x < rd.
Proof.
  intros Hrd Hinit H Hi Hft. pose proof H as Hrun. unfold run_race in H.
  destruct (while_loop_runs rd dt max fuel _ _ H) as (n & _ & Hruns).
  destruct (loop_runs_members rd dt max n _ _ Hruns) as (ps & _ & Hmem).
  destruct (Forall2_nth_r _ _ _ Hmem i r Hi) as (r0 & Hr0 & _).
  cbn [initial_loop_state runners] in Hr0.
  assert (Hr0i : initial r0).
  { rewrite Forall_forall in Hinit. apply Hinit.
    eapply nth_error_In. exact Hr0. }
  destruct Hr0i as (Hx & _ & _ & Hf & Hnone).
  assert (Hx0 : position r0 < rd) by lra.
  destruct (loop_runs_arrival rd dt max n _ _ Hruns i r0 r ft
              Hr0 Hf Hnone Hx0 Hi Hft)
    as (k & f & Hk & Hfk & Hftk & Hpos & Hbefore).
  cbn [initial_loop_state frames length Nat.add] in Hfk, Hbefore.
  exists k, f. split; [assumption |]. split; [assumption |].
  split.
  { destruct (race_frame rd dt max fuel roster s k f Hrun Hfk)
      as (sk & sk1 & H1 & _ & _ & _ & ->).
    destruct (iter_body_clock rd dt k _ _ H1) as [Ht _].
    cbn [initial_loop_state t] in Ht. rewrite Hftk.
    cbn [snapshot frame_time]. rewrite Ht. ring. }
  split; assumption.
Qed.

(* ================================================================== *)
(** * The race progress *)
(* ================================================================== *)

Lemma inject_nat_S (n : nat) :
  inject_Z (Z.of_nat (S n)) == inject_Z (Z.of_nat n) + 1.
Proof.
  rewrite Nat2Z.inj_succ. unfold Z.succ. rewrite inject_Z_plus. reflexivity.
Qed.

Lemma sum_bounds (rd : Q) (xs : list Q) :
  Forall (fun x => 0 <= x /\ x <= rd) xs ->
  0 <= sum xs /\ sum xs <= inject_Z (Z.of_nat (length xs)) * rd.
Proof.
  induction 1 as [| x xs [H0 H1] _ [IH0 IH1]].
  - unfold sum. cbn [map fold_left length].
    change (inject_Z (Z.of_nat 0)) with 0. split; lra.
  - rewrite sum_cons. cbn [length]. rewrite inject_nat_S. split; lra.
Qed.

Lemma sum_strict (rd : Q) (xs : list Q) :
  Forall (fun x => 0 <= x /\ x <= rd) xs ->
  Exists (fun x => x < rd) xs ->
  sum xs < inject_Z (Z.of_nat (length xs)) * rd.
Proof.
  induction 1 as [| x xs [H0 H1] Hxs IH]; intros Hex;
    inversion Hex as [y ys Hy | y ys Hys]; subst;
    rewrite sum_cons; cbn [length]; rewrite inject_nat_S.
  - destruct (sum_bounds rd xs Hxs) as [_ Hs]. lra.
  - specialize (IH Hys). lra.
Qed.

Lemma update_short_of_line (rd : Q) (r r' : BodySystemRunner) (dt gt p : Q) :
  0 < dt -> short_of_line rd r -> update rd r dt gt p = Ok r' ->
  short_of_line rd r'.
Proof.
  intros Hdt [Hon Hsh] Hup.
  destruct (update_on_track rd r r' dt gt p Hdt Hon Hup) as [Hon' _].
  split; [assumption |]. intros Hf'.
  destruct (finished r) eqn:Hf.
  - rewrite update_finished in Hup by assumption. injection Hup as <-.
    congruence.
  - destruct (update_cases rd r dt gt p Hf)
      as (x & Hx & [(_ & Hf1 & _) | (Hlt & _ & Hp1 & _)]);
      rewrite Hup in Hx; injection Hx as <-; [congruence |].
    rewrite Hp1. exact Hlt.
Qed.

Lemma initial_short_of_line (rd : Q) (r : BodySystemRunner) :
  0 < rd -> initial r -> short_of_line rd r.
Proof.
  intros Hrd (Hx & _). unfold short_of_line, on_track.
  split; [split; lra | intros _; lra].
Qed.

Lemma some_unfinished (rs : list BodySystemRunner) :
  all (map finished rs) = false ->
  exists r, In r rs /\ finished r = false.
Proof.
  induction rs as [| r rs IH]; cbn; [discriminate |].
  destruct (finished r) eqn:Hf; cbn.
  - intros H. destruct (IH H) as (x & Hx & Hfx). eauto.
  - intros _. eauto.
Qed.

Lemma race_progress_fraction (rd : Q) (rs : list BodySystemRunner) :
  0 < rd -> Forall (short_of_line rd) rs ->
  all (map finished rs) = false ->
  exists p, race_progress rd rs = Ok p /\ 0 <= p /\ p < 1.
Proof.
  intros Hrd Hrs Hall.
  destruct (some_unfinished rs Hall) as (u & Hu & Hfu).
  assert (Hlen : 0 < inject_Z (Z.of_nat (length rs))).
  { apply inject_nat_pos. destruct rs; [contradiction | cbn; lia]. }
  assert (Hxs : Forall (fun x => 0 <= x /\ x <= rd) (map position rs)).
  { clear - Hrs. induction Hrs as [| r l [Hr _] _ IH]; cbn [map];
      constructor; [exact Hr | exact IH]. }
  assert (Hex : Exists (fun x => x < rd) (map position rs)).
  { apply Exists_exists. exists (position u). split.
    - apply in_map. assumption.
    - rewrite Forall_forall in Hrs. now apply (Hrs u Hu). }
  destruct (sum_bounds rd _ Hxs) as [Hs0 _].
  pose proof (sum_strict rd _ Hxs Hex) as Hs1.
  rewrite length_map in Hs1.
  unfold race_progress. rewrite pydiv_Ok by lra. cbn [bind].
  assert (Hgt : (rd >? 0) = true) by (unfold Qgtb; now apply Qltb_true).
  rewrite Hgt, pydiv_Ok by lra.
  eexists. split; [reflexivity |].
  set (S := sum (map position rs)) in *.
  set (L := inject_Z (Z.of_nat (length rs))) in *.
  assert (Ha0 : 0 <= S / L) by (apply Qle_shift_div_l; lra).
  assert (Ha1 : S / L < rd) by (apply Qlt_shift_div_r; lra).
  split; [apply Qle_shift_div_l; lra | apply Qlt_shift_div_r; lra].
Qed.

(** The race progress on an executed tick. *)
Lemma race_progress_in_race
    (rd dt max : Q) (fuel : nat) (roster : list BodySystemRunner)
    (s : LoopState) (k : nat) :
  0 < rd -> 0 < dt -> Forall initial roster ->
  run_race rd dt max fuel roster = Some (Ok s) ->
  (k < length (frames s))%nat ->
  exists sk p,
    iter_body rd dt k (initial_loop_state roster) = Ok sk /\
    race_progress rd (runners sk) = Ok p /\ 0 <= p /\ p < 1.
Proof.
  intros Hrd Hdt Hinit H Hk.
  destruct (nth_error (frames s) k) as [f |] eqn:Hf.
  2:{ apply nth_error_None in Hf. lia. }
  destruct (race_frame rd dt max fuel roster s k f H Hf)
    as (sk & sk1 & H1 & H2 & _).
  apply loop_cond_true in H2. destruct H2 as [_ Hall].
  assert (Hsh : Forall (short_of_line rd) (runners sk)).
  { apply (iter_body_Forall (short_of_line rd) rd dt k
             (initial_loop_state roster) sk); [| | assumption].
    - intros r r' gt p Hr Hup.
      exact (update_short_of_line rd r r' dt gt p Hdt Hr Hup).
    - cbn [initial_loop_state runners].
      eapply Forall_impl; [| exact Hinit].
      intros r Hr. now apply initial_short_of_line. }
  destruct (race_progress_fraction rd (runners sk) Hrd Hsh Hall)
    as (p & Hp & Hp0 & Hp1).
  exists sk, p. repeat split; assumption.
Qed.

(* ================================================================== *)
(** * Competitors and their opponents *)
(* ================================================================== *)

Lemma updates_app (rd : Q) (c1 c2 : list call) :
  forall r, updates rd r (c1 ++ c2)%list =
            (r1 <- updates rd r c1 ;; updates rd r1 c2).
Proof.
  induction c1 as [| [[dt gt] p] c1 IH]; intros r; cbn [app updates].
  - reflexivity.
  - destruct (update rd r dt gt p) as [r1 | e]; cbn [bind];
      [apply IH | reflexivity].
Qed.

Lemma tick_calls_app (dt : Q) (ps1 ps2 : list Q) :
  forall t0, exists t1,
    tick_calls dt t0 (ps1 ++ ps2)%list =
    (tick_calls dt t0 ps1 ++ tick_calls dt t1 ps2)%list.
Proof.
  induction ps1 as [| p ps1 IH]; intros t0; cbn [app tick_calls].
  - exists t0. reflexivity.
  - destruct (IH (t0 + dt)) as [t1 Ht1]. exists t1. now rewrite Ht1.
Qed.

Lemma progress_blind_same_static (r r' : BodySystemRunner) :
  same_static r r' -> progress_blind r -> progress_blind r'.
Proof.
  unfold same_static, progress_blind.
  intros (_ & _ & _ & _ & _ & _ & _ & _ & _ & -> & ->) H. exact H.
Qed.

Lemma updates_blind (rd dt : Q) (ps : list Q) :
  forall ps' t0 r, progress_blind r -> length ps = length ps' ->
    updates rd r (tick_calls dt t0 ps) = updates rd r (tick_calls dt t0 ps').
Proof.
  induction ps as [| p ps IH]; intros [| p' ps'] t0 r Hb Hlen;
    try discriminate Hlen; cbn [tick_calls updates]; [reflexivity |].
  rewrite (update_progress_blind rd r dt t0 p p' Hb).
  destruct (update rd r dt t0 p') as [r1 | e] eqn:Hup; cbn [bind];
    [| reflexivity].
  apply IH; [| now injection Hlen].
  eapply progress_blind_same_static; [| exact Hb].
  eapply update_same_static. exact Hup.
Qed.

Lemma all_finished (rs : list BodySystemRunner) (r : BodySystemRunner) :
  all (map finished rs) = true -> In r rs -> finished r = true.
Proof.
  unfold all. rewrite forallb_forall. intros H Hr.
  apply (H (finished r)). now apply in_map.
Qed.

(** Two races with the same constants, the shorter one first. *)
Lemma blind_runner_same_result (rd dt max : Q) (nA nB : nat)
    (sA0 sA sB0 sB : LoopState) (i j : nat) (r : BodySystemRunner) :
  (nA <= nB)%nat -> t sA0 = t sB0 ->
  loop_runs rd dt max nA sA0 sA -> loop_runs rd dt max nB sB0 sB ->
  nth_error (runners sA0) i = Some r -> nth_error (runners sB0) j = Some r ->
  progress_blind r ->
  nth_error (runners sA) i = nth_error (runners sB) j.
Proof.
  intros Hle Ht HA HB Hi Hj Hb.
  destruct (loop_runs_members rd dt max nA sA0 sA HA) as (psA & HlA & HmA).
  destruct (loop_runs_members rd dt max nB sB0 sB HB) as (psB & HlB & HmB).
  destruct (Forall2_nth_l _ _ _ HmA i r Hi) as (rA & HrA & HuA).
  destruct (Forall2_nth_l _ _ _ HmB j r Hj) as (rB & HrB & HuB).
  cbv beta in HuA, HuB. rewrite HrA, HrB. f_equal.
  rewrite <- (firstn_skipn nA psB) in HuB.
  destruct (tick_calls_app dt (firstn nA psB) (skipn nA psB) (t sB0))
    as [t1 Happ].
  rewrite Happ, updates_app in HuB.
  rewrite (updates_blind rd dt (firstn nA psB) psA (t sB0) r Hb) in HuB
    by (rewrite firstn_length_le; lia).
  rewrite <- Ht, HuA in HuB. cbn [bind] in HuB.
  destruct (Nat.eq_dec nA nB) as [-> | Hne].
  - rewrite skipn_all2 in HuB by lia. cbn [tick_calls updates] in HuB.
    congruence.
  - assert (Hf : finished rA = true).
    { pose proof (loop_runs_exit rd dt max nA sA0 sA HA) as Hex.
      apply loop_cond_false in Hex. destruct Hex as [Hcap | Hall].
      - exfalso.
        destruct (loop_runs_tick rd dt max nB sB0 sB HB nA ltac:(lia))
          as (sk & _ & Hk & Hc & _).
        apply loop_cond_true in Hc. destruct Hc as [Hc _].
        destruct (iter_body_clock rd dt nA _ _ Hk) as [Hk' _].
        destruct (loop_runs_clock rd dt max nA _ _ HA) as (HA' & _).
        rewrite Ht in HA'. lra.
      - apply (all_finished (runners sA)); [assumption |].
        eapply nth_error_In. exact HrA. }
    rewrite updates_finished in HuB by assumption. congruence.
Qed.

(** A competitor that does not read the race progress, in two races. *)
Lemma race_blind_runner
    (rd dt max : Q) (fuelA fuelB : nat) (A B : list BodySystemRunner)
    (sA sB : LoopState) (i j : nat) (r : BodySystemRunner) :
  personality r <> "tactical" -> ability r <> "power_burst" ->
  ability r <> "adrenaline_surge" ->
  nth_error A i = Some r -> nth_error B j = Some r ->
  run_race rd dt max fuelA A = Some (Ok sA) ->
  run_race rd dt max fuelB B = Some (Ok sB) ->
  nth_error (runners sA) i = nth_error (runners sB) j.
Proof.
  intros H1 H2 H3 Hi Hj HA HB.
  assert (Hb : progress_blind r) by (repeat split; assumption).
  unfold run_race in HA, HB.
  destruct (while_loop_runs rd dt max fuelA _ _ HA) as (nA & _ & HrA).
  destruct (while_loop_runs rd dt max fuelB _ _ HB) as (nB & _ & HrB).
  destruct (Nat.le_ge_cases nA nB) as [Hle | Hge].
  - exact (blind_runner_same_result rd dt max nA nB
             (initial_loop_state A) sA (initial_loop_state B) sB i j r
             Hle eq_refl HrA HrB Hi Hj Hb).
  - symmetry.
    exact (blind_runner_same_result rd dt max nB nA
             (initial_loop_state B) sB (initial_loop_state A) sA j i r
             Hge eq_refl HrB HrA Hj Hi Hb).
Qed.



(* ================================================================== *)
(** * Races that do not start, and how races end *)
(* ================================================================== *)

(** X11.  Races that do not start. If the time cap is not positive or every
    competitor of the roster is already finished, as in an empty roster, the
    race returns at once: no frame, clock 0.0, the roster as it was. The
    average position of an empty roster would raise ZeroDivisionError; the
    loop test keeps the body from computing it. *)
Theorem degenerate_races_return_at_once
    (rd dt max : Q) (fuel : nat) :
  (forall roster,
     max <= 0 \/ all (map finished roster) = true ->
     run_race rd dt max (S fuel) roster =
       Some (Ok {| runners := roster; t := 0.0; frames := [] |})) /\
  run_race rd dt max (S fuel) [] =
    Some (Ok {| runners := []; t := 0.0; frames := [] |}) /\
  race_progress rd [] = Raise ZeroDivisionError.
Proof.
  assert (H : forall roster,
             max <= 0 \/ all (map finished roster) = true ->
             run_race rd dt max (S fuel) roster =
               Some (Ok {| runners := roster; t := 0.0; frames := [] |})).
  { intros roster Hdeg. unfold run_race. cbn [while_loop].
    assert (Hc : loop_cond max (initial_loop_state roster) = false).
    { apply loop_cond_false. cbn [initial_loop_state t runners].
      destruct Hdeg as [Hm | Ha]; [left; lra | right; assumption]. }
    rewrite Hc. reflexivity. }
  split; [exact H |]. split; [apply H; right; reflexivity |].
  reflexivity.
Qed.

(** The last tick of a race that everybody finishes. *)
Lemma race_last_arrival
    (rd dt max : Q) (fuel : nat) (roster : list BodySystemRunner)
    (s : LoopState) :
  run_race rd dt max fuel roster = Some (Ok s) ->
  all (map finished (runners s)) = true -> frames s <> [] ->
  exists f r,
    nth_error (frames s) (length (frames s) - 1) = Some f /\
    In r (runners s) /\ finish_time r = Some (frame_time f).
Proof.
  intros H Hall Hne. pose proof H as Hrun. unfold run_race in H.
  destruct (while_loop_runs rd dt max fuel _ _ H) as (n & _ & Hruns).
  destruct (loop_runs_clock rd dt max n _ _ Hruns) as (_ & Hfr & _).
  cbn [initial_loop_state frames length Nat.add] in Hfr.
  assert (Hn : (0 < n)%nat).
  { destruct (frames s); [contradiction | cbn in Hfr; lia]. }
  destruct (nth_error (frames s) (length (frames s) - 1)) as [f |] eqn:Hf.
  2:{ apply nth_error_None in Hf. lia. }
  destruct (race_frame rd dt max fuel roster s _ f Hrun Hf)
    as (sk & sk1 & H1 & H2 & H3 & H4 & ->).
  pose proof (loop_runs_iter rd dt max n _ _ Hruns) as Hit.
  replace (S (length (frames s) - 1)) with n in H4 by lia.
  rewrite Hit in H4. injection H4 as <-.
  apply loop_cond_true in H2. destruct H2 as [_ Hsome].
  destruct (some_unfinished (runners sk) Hsome) as (u & Hu & Hfu).
  destruct (loop_body_inv rd dt sk s H3) as (p & _ & Hup & _).
  destruct (In_nth_error _ _ Hu) as [i Hi].
  destruct (Forall2_nth_l _ _ _ Hup i u Hi) as (r & Hr & Hur).
  cbv beta in Hur.
  assert (Hin : In r (runners s)) by (eapply nth_error_In; exact Hr).
  exists (snapshot (t sk) (runners s)), r.
  split; [reflexivity |]. split; [assumption |].
  cbn [snapshot frame_time].
  destruct (update_cases rd u dt (t sk) p Hfu)
    as (x & Hx & [(_ & _ & _ & Hft) | (_ & Hf1 & _)]);
    rewrite Hur in Hx; injection Hx as <-; [exact Hft |].
  pose proof (all_finished (runners s) r Hall Hin). congruence.
Qed.

(** ** Finish times and the speed bound *)

(** The runners after [k] ticks, place by place. *)
Lemma iter_body_members (rd dt : Q) (k : nat) :
  forall s sk, iter_body rd dt k s = Ok sk ->
    exists ps, length ps = k /\
      Forall2 (fun r r' => updates rd r (tick_calls dt (t s) ps) = Ok r')
        (runners s) (runners sk).
Proof.
  induction k as [| k IH]; intros s sk H; cbn [iter_body] in H.
  - injection H as <-. exists []. split; [reflexivity |].
    cbn [tick_calls updates]. induction (runners s); constructor; auto.
  - destruct (loop_body rd dt s) as [s1 | e] eqn:Hb; cbn [bind] in H;
      [| discriminate].
    destruct (IH s1 sk H) as (ps & Hlen & Hrest).
    destruct (loop_body_inv rd dt s s1 Hb) as (p & _ & Hup & Ht & _).
    exists (p :: ps). split; [cbn; lia |].
    cbn [tick_calls]. rewrite Ht in Hrest.
    revert Hup Hrest. generalize (runners s) (runners s1) (runners sk).
    intros l. induction l as [| r l IHl]; intros l1 l' Hup Hrest;
      inversion Hup; subst; inversion Hrest; subst; constructor.
    + cbn [updates]. match goal with E : update rd r _ _ _ = _ |- _ =>
        rewrite E end. cbn [bind]. assumption.
    + eapply IHl; eassumption.
Qed.

Lemma elapsed_tick_calls (dt : Q) (ps : list Q) :
  forall t0,
    elapsed (tick_calls dt t0 ps) == inject_Z (Z.of_nat (length ps)) * dt.
Proof.
  induction ps as [| p ps IH]; intros t0; cbn [tick_calls length].
  - unfold elapsed, sum. cbn [map fold_left].
    change (inject_Z (Z.of_nat 0)) with 0. ring.
  - rewrite elapsed_cons, IH, inject_nat_S. cbn [call_dt fst]. ring.
Qed.

(** A finish time and the distance the speed bound allows by then. *)
Lemma race_finish_time_bound
    (rd dt max : Q) (fuel : nat) (roster : list BodySystemRunner)
    (s : LoopState) (i : nat) (r0 r : BodySystemRunner) (ft : Q) :
  0 < rd -> 0 < dt ->
  Forall declared_constraints roster -> Forall initial roster ->
  run_race rd dt max fuel roster = Some (Ok s) ->
  nth_error roster i = Some r0 ->
  nth_error (runners s) i = Some r -> finish_time r = Some ft ->
  rd <= speed_bound r0 * (ft + dt).
Proof.
  intros Hrd Hdt Hc Hi Hrun Hr0 Hr Hft.
  destruct (race_arrival_frame rd dt max fuel roster s i r ft Hrd Hi Hrun
              Hr Hft) as (k & f & Hf & _ & Hk & Hpos & _).
  destruct (race_frame rd dt max fuel roster s k f Hrun Hf)
    as (sk & sk1 & _ & _ & _ & Hit & ->).
  cbn [snapshot frame_positions] in Hpos.
  rewrite nth_error_map in Hpos.
  destruct (nth_error (runners sk1) i) as [r1 |] eqn:Hr1;
    cbn [option_map] in Hpos; [| discriminate].
  injection Hpos as Hp1.
  destruct (iter_body_members rd dt (S k) _ _ Hit) as (ps & Hlen & Hmem).
  cbn [initial_loop_state runners t] in Hmem.
  destruct (Forall2_nth_l _ _ _ Hmem i r0 Hr0) as (x & Hx & Hup).
  rewrite Hr1 in Hx. injection Hx as <-. cbv beta in Hup.
  rewrite Forall_forall in Hc, Hi.
  pose proof (Hc r0 (nth_error_In _ _ Hr0)) as Hc0.
  pose proof (Hi r0 (nth_error_In _ _ Hr0)) as Hi0.
  destruct (updates_distance rd (tick_calls dt 0.0 ps) r0 Hc0
              (initial_in_range r0 Hc0 Hi0)) as (y & Hy & Hle).
  - destruct Hi0 as (E & _). lra.
  - eapply Forall_impl; [| apply tick_calls_dt].
    intros c E. cbv beta in E. rewrite E. exact Hdt.
  - rewrite Hup in Hy. injection Hy as <-.
    rewrite elapsed_tick_calls, Hlen, inject_nat_S in Hle.
    destruct Hi0 as (E & _). rewrite Hp1, E in Hle.
    rewrite Hk. unfold ticks_time. lra.
Qed.

(* ================================================================== *)
(** * Properties of every race *)
(* ================================================================== *)

(** With dt > 0 every race returns. *)
Lemma race_result (rd dt max : Q) (roster : list BodySystemRunner) :
  0 < dt -> exists s, returns rd dt max roster s.
Proof.
  intros Hdt.
  destruct (loop_terminates rd dt max roster Hdt) as (n & s & Hn & Hruns).
  exists s. intros fuel Hfuel.
  apply (loop_runs_while rd dt max n); [assumption | lia].
Qed.

Lemma returns_run (rd dt max : Q) (roster : list BodySystemRunner)
    (s : LoopState) :
  returns rd dt max roster s ->
  run_race rd dt max (S (max_ticks dt max)) roster = Some (Ok s).
Proof. intros H. apply H. lia. Qed.

(** X12.  A race is one sequence of [update] calls per competitor. A race
    with dt > 0 returns, and for the state [s] it returns there is one
    race_progress per tick such that the runner at each place of [s] is the
    roster's competitor at that place after the calls (dt, 0.0, p0),
    (dt, 0.0 + dt, p1), ... in this order; it has the static parameters it
    started with, and [s] holds as many runners as the roster. *)
Theorem race_is_one_update_sequence_per_competitor
    (rd dt max : Q) (roster : list BodySystemRunner) :
  0 < dt ->
  exists s ps,
    returns rd dt max roster s /\
    length ps = length (frames s) /\
    length (runners s) = length roster /\
    Forall2 (fun r r' => updates rd r (tick_calls dt 0.0 ps) = Ok r' /\
                         same_static r r')
      roster (runners s).
Proof.
  intros Hdt. destruct (race_result rd dt max roster Hdt) as [s Hs].
  destruct (race_members rd dt max _ roster s (returns_run _ _ _ _ _ Hs))
    as (ps & H).
  exists s, ps. split; assumption.
Qed.

Lemma race_is_one_update_sequence_per_competitor_witness :
  0 < DT /\
  exists s ps,
    returns RACE_DISTANCE DT MAX_RACE_TIME create_runners s /\
    length ps = length (frames s) /\
    length (runners s) = length create_runners /\
    Forall2 (fun r r' =>
               updates RACE_DISTANCE r (tick_calls DT 0.0 ps) = Ok r' /\
               same_static r r')
      create_runners (runners s).
Proof.
  assert (H : 0 < DT) by reflexivity.
  split; [exact H |].
  exact (race_is_one_update_sequence_per_competitor
           RACE_DISTANCE DT MAX_RACE_TIME create_runners H).
Defined.

(** X13.  Frames are taken once per tick. A race with dt > 0 returns, and in
    the list of frames it returns the frame at index k carries the time
    k * dt and its lists of positions, stamina and speeds have one entry
    per competitor of the roster. *)
Theorem frames_are_taken_once_per_tick
    (rd dt max : Q) (roster : list BodySystemRunner) :
  0 < dt ->
  exists s,
    returns rd dt max roster s /\
    forall k f, nth_error (frames s) k = Some f ->
      frame_time f == ticks_time k dt /\
      length (frame_positions f) = length roster /\
      length (frame_stamina f) = length roster /\
      length (frame_speeds f) = length roster.
Proof.
  intros Hdt. destruct (race_result rd dt max roster Hdt) as [s Hs].
  exists s. split; [assumption |]. intros k f Hf.
  exact (race_frame_shape rd dt max _ roster s k f
           (returns_run _ _ _ _ _ Hs) Hf).
Qed.

Lemma frames_are_taken_once_per_tick_witness :
  0 < DT /\
  exists s,
    returns RACE_DISTANCE DT MAX_RACE_TIME create_runners s /\
    forall k f, nth_error (frames s) k = Some f ->
      frame_time f == ticks_time k DT /\
      length (frame_positions f) = length create_runners /\
      length (frame_stamina f) = length create_runners /\
      length (frame_speeds f) = length create_runners.
Proof.
  assert (H : 0 < DT) by reflexivity.
  split; [exact H |].
  exact (frames_are_taken_once_per_tick
           RACE_DISTANCE DT MAX_RACE_TIME create_runners H).
Defined.

(** X14.  The last frame shows the final state. A race with dt > 0 returns.
    If it returns at least one frame, the positions, stamina and speeds of
    the last frame are those of the runners it returns, and the clock it
    stops at is the time of that frame plus dt. If it returns no frame, the
    runners are the roster as it was passed and the clock is 0.0. *)
Theorem last_frame_shows_the_final_state
    (rd dt max : Q) (roster : list BodySystemRunner) :
  0 < dt ->
  exists s,
    returns rd dt max roster s /\
    (frames s = [] -> runners s = roster /\ t s = 0.0) /\
    (frames s <> [] ->
     exists f,
       nth_error (frames s) (length (frames s) - 1) = Some f /\
       frame_positions f = map position (runners s) /\
       frame_stamina f = map stamina (runners s) /\
       frame_speeds f = map speed (runners s) /\
       t s = frame_time f + dt).
Proof.
  intros Hdt. destruct (race_result rd dt max roster Hdt) as [s Hs].
  exists s. split; [assumption |].
  exact (race_last_frame rd dt max _ roster s (returns_run _ _ _ _ _ Hs)).
Qed.

Lemma last_frame_shows_the_final_state_witness :
  0 < DT /\
  exists s,
    returns RACE_DISTANCE DT MAX_RACE_TIME create_runners s /\
    (frames s = [] -> runners s = create_runners /\ t s = 0.0) /\
    (frames s <> [] ->
     exists f,
       nth_error (frames s) (length (frames s) - 1) = Some f /\
       frame_positions f = map position (runners s) /\
       frame_stamina f = map stamina (runners s) /\
       frame_speeds f = map speed (runners s) /\
       t s = frame_time f + DT).
Proof.
  assert (H : 0 < DT) by reflexivity.
  split; [exact H |].
  exact (last_frame_shows_the_final_state
           RACE_DISTANCE DT MAX_RACE_TIME create_runners H).
Defined.

(** X15.  No marker moves backwards. A race with dt > 0 whose roster is on
    the track (0 <= position <= race_distance) returns, and in what it
    returns every position in every frame lies between 0 and the race
    distance, and from one frame to the next no competitor's position
    decreases. *)
Theorem frame_positions_never_go_back
    (rd dt max : Q) (roster : list BodySystemRunner) :
  0 < dt -> Forall (on_track rd) roster ->
  exists s,
    returns rd dt max roster s /\
    (forall k f, nth_error (frames s) k = Some f ->
       Forall (fun x => 0 <= x /\ x <= rd) (frame_positions f)) /\
    (forall k f g,
       nth_error (frames s) k = Some f ->
       nth_error (frames s) (S k) = Some g ->
       Forall2 Qle (frame_positions f) (frame_positions g)).
Proof.
  intros Hdt Hon. destruct (race_result rd dt max roster Hdt) as [s Hs].
  exists s. split; [assumption |].
  exact (race_frame_positions rd dt max _ roster s Hdt Hon
           (returns_run _ _ _ _ _ Hs)).
Qed.

Lemma frame_positions_never_go_back_witness :
  (0 < DT /\ Forall (on_track RACE_DISTANCE) create_runners) /\
  exists s,
    returns RACE_DISTANCE DT MAX_RACE_TIME create_runners s /\
    (forall k f, nth_error (frames s) k = Some f ->
       Forall (fun x => 0 <= x /\ x <= RACE_DISTANCE) (frame_positions f)) /\
    (forall k f g,
       nth_error (frames s) k = Some f ->
       nth_error (frames s) (S k) = Some g ->
       Forall2 Qle (frame_positions f) (frame_positions g)).
Proof.
  assert (H1 : 0 < DT) by reflexivity.
  assert (H2 : Forall (on_track RACE_DISTANCE) create_runners)
    by (repeat constructor; vm_compute; discriminate).
  split; [exact (conj H1 H2) |].
  exact (frame_positions_never_go_back
           RACE_DISTANCE DT MAX_RACE_TIME create_runners H1 H2).
Defined.

(** X16.  Every frame of a race is within the ranges. A race with dt > 0
    from a roster of competitors in their initial state whose static
    parameters satisfy the declared constraints and acceleration >= 0
    returns, and every frame it returns shows, competitor by competitor, a
    stamina between 0 and stamina_max and a speed between 0 and top_speed *
    max(burst_multiplier, 1.1). *)
Theorem frames_stay_in_range
    (rd dt max : Q) (roster : list BodySystemRunner) :
  0 < dt -> Forall declared_constraints roster -> Forall initial roster ->
  exists s,
    returns rd dt max roster s /\
    forall k f, nth_error (frames s) k = Some f ->
      Forall2 (fun r x => 0 <= x /\ x <= stamina_max r)
        roster (frame_stamina f) /\
      Forall2 (fun r v => 0 <= v /\ v <= speed_bound r)
        roster (frame_speeds f).
Proof.
  intros Hdt Hc Hi. destruct (race_result rd dt max roster Hdt) as [s Hs].
  exists s. split; [assumption |]. intros k f Hf.
  exact (race_frame_ranges rd dt max _ roster s k f Hdt Hc Hi
           (returns_run _ _ _ _ _ Hs) Hf).
Qed.

Lemma frames_stay_in_range_witness :
  (0 < DT /\ Forall declared_constraints create_runners /\
   Forall initial create_runners) /\
  exists s,
    returns RACE_DISTANCE DT MAX_RACE_TIME create_runners s /\
    forall k f, nth_error (frames s) k = Some f ->
      Forall2 (fun r x => 0 <= x /\ x <= stamina_max r)
        create_runners (frame_stamina f) /\
      Forall2 (fun r v => 0 <= v /\ v <= speed_bound r)
        create_runners (frame_speeds f).
Proof.
  assert (H1 : 0 < DT) by reflexivity.
  assert (H2 : Forall declared_constraints create_runners)
    by (repeat constructor; vm_compute; congruence).
  assert (H3 : Forall initial create_runners)
    by (repeat constructor; reflexivity).
  split; [exact (conj H1 (conj H2 H3)) |].
  exact (frames_stay_in_range
           RACE_DISTANCE DT MAX_RACE_TIME create_runners H1 H2 H3).
Defined.

(** X17.  A finish time is the time of the arrival frame. A race with dt > 0
    on a track of positive length from a roster in the initial state
    returns, and a competitor whose finish_time is set in the result has as
    finish time the time k * dt of a frame k; that frame shows the
    competitor at the race distance, and every earlier frame shows it short
    of it. *)
Theorem finish_time_is_the_time_of_the_arrival_frame
    (rd dt max : Q) (roster : list BodySystemRunner) :
  0 < rd -> 0 < dt -> Forall initial roster ->
  exists s,
    returns rd dt max roster s /\
    forall i r ft,
      nth_error (runners s) i = Some r -> finish_time r = Some ft ->
      exists k f,
        nth_error (frames s) k = Some f /\
        ft = frame_time f /\ ft == ticks_time k dt /\
        nth_error (frame_positions f) i = Some rd /\
        forall j g, (j < k)%nat -> nth_error (frames s) j = Some g ->
          exists x, nth_error (frame_positions g) i = Some x /\ x < rd.
Proof.
  intros Hrd Hdt Hi. destruct (race_result rd dt max roster Hdt) as [s Hs].
  exists s. split; [assumption |]. intros i r ft Hr Hft.
  exact (race_arrival_frame rd dt max _ roster s i r ft Hrd Hi
           (returns_run _ _ _ _ _ Hs) Hr Hft).
Qed.

Lemma finish_time_is_the_time_of_the_arrival_frame_witness :
  (0 < RACE_DISTANCE /\ 0 < DT /\ Forall initial create_runners) /\
  exists s,
    returns RACE_DISTANCE DT MAX_RACE_TIME create_runners s /\
    forall i r ft,
      nth_error (runners s) i = Some r -> finish_time r = Some ft ->
      exists k f,
        nth_error (frames s) k = Some f /\
        ft = frame_time f /\ ft == ticks_time k DT /\
        nth_error (frame_positions f) i = Some RACE_DISTANCE /\
        forall j g, (j < k)%nat -> nth_error (frames s) j = Some g ->
          exists x, nth_error (frame_positions g) i = Some x /\
                    x < RACE_DISTANCE.
Proof.
  assert (H1 : 0 < RACE_DISTANCE) by reflexivity.
  assert (H2 : 0 < DT) by reflexivity.
  assert (H3 : Forall initial create_runners)
    by (repeat constructor; reflexivity).
  split; [exact (conj H1 (conj H2 H3)) |].
  exact (finish_time_is_the_time_of_the_arrival_frame
           RACE_DISTANCE DT MAX_RACE_TIME create_runners H1 H2 H3).
Defined.

(** X18.  The race progress is a fraction. A race with dt > 0 on a track of
    positive length from a roster in the initial state returns, and on every
    tick it executes the race_progress it computes from the runners is at
    least 0 and strictly below 1. *)
Theorem race_progress_is_a_fraction
    (rd dt max : Q) (roster : list BodySystemRunner) :
  0 < rd -> 0 < dt -> Forall initial roster ->
  exists s,
    returns rd dt max roster s /\
    forall k, (k < length (frames s))%nat ->
      exists sk p,
        iter_body rd dt k (initial_loop_state roster) = Ok sk /\
        race_progress rd (runners sk) = Ok p /\ 0 <= p /\ p < 1.
Proof.
  intros Hrd Hdt Hi. destruct (race_result rd dt max roster Hdt) as [s Hs].
  exists s. split; [assumption |]. intros k Hk.
  exact (race_progress_in_race rd dt max _ roster s k Hrd Hdt Hi
           (returns_run _ _ _ _ _ Hs) Hk).
Qed.

Lemma race_progress_is_a_fraction_witness :
  (0 < RACE_DISTANCE /\ 0 < DT /\ Forall initial create_runners) /\
  exists s,
    returns RACE_DISTANCE DT MAX_RACE_TIME create_runners s /\
    forall k, (k < length (frames s))%nat ->
      exists sk p,
        iter_body RACE_DISTANCE DT k (initial_loop_state create_runners)
          = Ok sk /\
        race_progress RACE_DISTANCE (runners sk) = Ok p /\ 0 <= p /\ p < 1.
Proof.
  assert (H1 : 0 < RACE_DISTANCE) by reflexivity.
  assert (H2 : 0 < DT) by reflexivity.
  assert (H3 : Forall initial create_runners)
    by (repeat constructor; reflexivity).
  split; [exact (conj H1 (conj H2 H3)) |].
  exact (race_progress_is_a_fraction
           RACE_DISTANCE DT MAX_RACE_TIME create_runners H1 H2 H3).
Defined.

(** X19.  The result of a competitor that does not read the race progress
    does not depend on its opponents. Take a competitor that is not
    "tactical" and has neither "power_burst" nor "adrenaline_surge", and two
    races under the same constants, dt > 0, whose rosters both contain it,
    at place i in one and at place j in the other. Both races return, and
    the runner at place i of the one result and the runner at place j of the
    other are the same record: same position, speed, stamina, finished flag
    and finish time. *)
Theorem result_does_not_depend_on_opponents
    (rd dt max : Q) (A B : list BodySystemRunner) (i j : nat)
    (r : BodySystemRunner) :
  0 < dt ->
  personality r <> "tactical" -> ability r <> "power_burst" ->
  ability r <> "adrenaline_surge" ->
  nth_error A i = Some r -> nth_error B j = Some r ->
  exists sA sB,
    returns rd dt max A sA /\ returns rd dt max B sB /\
    nth_error (runners sA) i = nth_error (runners sB) j /\
    nth_error (runners sA) i <> None.
Proof.
  intros Hdt H1 H2 H3 Hi Hj.
  destruct (race_result rd dt max A Hdt) as [sA HA].
  destruct (race_result rd dt max B Hdt) as [sB HB].
  exists sA, sB. split; [assumption |]. split; [assumption |].
  split.
  - exact (race_blind_runner rd dt max _ _ A B sA sB i j r H1 H2 H3 Hi Hj
             (returns_run _ _ _ _ _ HA) (returns_run _ _ _ _ _ HB)).
  - destruct (race_members rd dt max _ A sA (returns_run _ _ _ _ _ HA))
      as (ps & _ & Hlen & _).
    apply nth_error_Some. rewrite Hlen. apply nth_error_Some. congruence.
Qed.

Lemma result_does_not_depend_on_opponents_witness :
  (0 < DT /\ personality solo_runner <> "tactical" /\
   ability solo_runner <> "power_burst" /\
   ability solo_runner <> "adrenaline_surge" /\
   nth_error [solo_runner] 0 = Some solo_runner /\
   nth_error (create_runners ++ [solo_runner])%list 8 = Some solo_runner) /\
  exists sA sB,
    returns RACE_DISTANCE DT MAX_RACE_TIME [solo_runner] sA /\
    returns RACE_DISTANCE DT MAX_RACE_TIME
      (create_runners ++ [solo_runner])%list sB /\
    nth_error (runners sA) 0 = nth_error (runners sB) 8 /\
    nth_error (runners sA) 0 <> None.
Proof.
  assert (H0 : 0 < DT) by reflexivity.
  assert (H1 : personality solo_runner <> "tactical") by discriminate.
  assert (H2 : ability solo_runner <> "power_burst") by discriminate.
  assert (H3 : ability solo_runner <> "adrenaline_surge") by discriminate.
  assert (H4 : nth_error [solo_runner] 0 = Some solo_runner) by reflexivity.
  assert (H5 : nth_error (create_runners ++ [solo_runner])%list 8
               = Some solo_runner) by reflexivity.
  split; [exact (conj H0 (conj H1 (conj H2 (conj H3 (conj H4 H5))))) |].
  exact (result_does_not_depend_on_opponents
           RACE_DISTANCE DT MAX_RACE_TIME [solo_runner]
           (create_runners ++ [solo_runner])%list 0 8 solo_runner
           H0 H1 H2 H3 H4 H5).
Defined.



(** X21.  A race that everybody finishes ends on the last arrival. A race
    with dt > 0 returns; if it returns with every competitor finished and at
    least one frame, some competitor has as finish time the time of the last
    frame. *)
Theorem race_ends_on_the_last_arrival
    (rd dt max : Q) (roster : list BodySystemRunner) :
  0 < dt ->
  exists s,
    returns rd dt max roster s /\
    (all (map finished (runners s)) = true -> frames s <> [] ->
     exists f r,
       nth_error (frames s) (length (frames s) - 1) = Some f /\
       In r (runners s) /\ finish_time r = Some (frame_time f)).
Proof.
  intros Hdt. destruct (race_result rd dt max roster Hdt) as [s Hs].
  exists s. split; [assumption |].
  exact (race_last_arrival rd dt max _ roster s (returns_run _ _ _ _ _ Hs)).
Qed.

Lemma race_ends_on_the_last_arrival_witness :
  0 < DT /\
  exists s,
    returns RACE_DISTANCE DT MAX_RACE_TIME create_runners s /\
    (all (map finished (runners s)) = true -> frames s <> [] ->
     exists f r,
       nth_error (frames s) (length (frames s) - 1) = Some f /\
       In r (runners s) /\ finish_time r = Some (frame_time f)).
Proof.
  assert (H : 0 < DT) by reflexivity.
  split; [exact H |].
  exact (race_ends_on_the_last_arrival
           RACE_DISTANCE DT MAX_RACE_TIME create_runners H).
Defined.

(** X22.  Nobody beats the speed bound.  A race with dt > 0 on a track of
    positive length from a roster of competitors in their initial state
    whose static parameters satisfy the declared constraints and
    acceleration >= 0 returns, and every finish time ft it records leaves
    room for the distance: race_distance is at most
    top_speed * max(burst_multiplier, 1.1) * (ft + dt). *)
Theorem nobody_beats_the_speed_bound
    (rd dt max : Q) (roster : list BodySystemRunner) :
  0 < rd -> 0 < dt ->
  Forall declared_constraints roster -> Forall initial roster ->
  exists s,
    returns rd dt max roster s /\
    forall i r0 r ft,
      nth_error roster i = Some r0 ->
      nth_error (runners s) i = Some r -> finish_time r = Some ft ->
      rd <= speed_bound r0 * (ft + dt).
Proof.
  intros Hrd Hdt Hc Hi. destruct (race_result rd dt max roster Hdt) as [s Hs].
  exists s. split; [assumption |]. intros i r0 r ft Hr0 Hr Hft.
  exact (race_finish_time_bound rd dt max _ roster s i r0 r ft Hrd Hdt Hc Hi
           (returns_run _ _ _ _ _ Hs) Hr0 Hr Hft).
Qed.

Lemma nobody_beats_the_speed_bound_witness :
  (0 < RACE_DISTANCE /\ 0 < DT /\
   Forall declared_constraints create_runners /\
   Forall initial create_runners) /\
  exists s,
    returns RACE_DISTANCE DT MAX_RACE_TIME create_runners s /\
    forall i r0 r ft,
      nth_error create_runners i = Some r0 ->
      nth_error (runners s) i = Some r -> finish_time r = Some ft ->
      RACE_DISTANCE <= speed_bound r0 * (ft + DT).
Proof.
  assert (H1 : 0 < RACE_DISTANCE) by reflexivity.
  assert (H2 : 0 < DT) by reflexivity.
  assert (H3 : Forall declared_constraints create_runners)
    by (repeat constructor; vm_compute; congruence).
  assert (H4 : Forall initial create_runners)
    by (repeat constructor; reflexivity).
  split; [exact (conj H1 (conj H2 (conj H3 H4))) |].
  exact (nobody_beats_the_speed_bound
           RACE_DISTANCE DT MAX_RACE_TIME create_runners H1 H2 H3 H4).
Defined.

(* ================================================================== *)
(** * Ranking and results table *)
(* ================================================================== *)

Lemma sorted_fixed {A : Type} (key : A -> Q) (l : list A) :
  StronglySorted (fun a b => key a <= key b) l -> sorted l key = l.
Proof.
  induction 1 as [| x l Hl IH Hx]; [reflexivity |].
  unfold sorted in *. cbn [fold_right]. rewrite IH.
  destruct l as [| y l]; [reflexivity |]. cbn [insert_by].
  inversion Hx; subst.
  assert (E : (key y <? key x) = false) by (apply Qltb_false; assumption).
  now rewrite E.
Qed.

(** X23.  Ranking a ranked list changes nothing: ordering the result of
    [sorted(runners, key=sort_key)] once more returns it as it is. *)
Theorem ranking_is_idempotent (rs : list BodySystemRunner) :
  ordered (ordered rs) = ordered rs.
Proof. unfold ordered. apply sorted_fixed. apply sorted_sorted. Qed.

Lemma filter_head {A : Type} (p : A -> bool) (l : list A) (w : A)
    (rest : list A) :
  filter p l = w :: rest ->
  exists i, nth_error l i = Some w /\
    forall j a, (j < i)%nat -> nth_error l j = Some a -> p a = false.
Proof.
  induction l as [| x l IH]; cbn [filter]; [discriminate |].
  destruct (p x) eqn:Hx; intros H.
  - injection H as -> _. exists 0%nat. split; [reflexivity |].
    intros j a Hj. lia.
  - destruct (IH H) as (i & Hi & Hbefore). exists (S i).
    split; [exact Hi |]. intros [| j] a Hj Ha; cbn in Ha.
    + injection Ha as <-. exact Hx.
    + apply (Hbefore j a); [lia | exact Ha].
Qed.

(** X24.  First place goes to the earliest of the fastest. The competitor at
    the head of the ranking has the least sort key of the list, and it is
    the first competitor in roster order with that key: every competitor
    before it in the roster has a strictly larger key. *)
Theorem first_place_is_the_earliest_of_the_fastest
    (rs : list BodySystemRunner) (w : BodySystemRunner) :
  nth_error (ordered rs) 0 = Some w ->
  (forall r, In r rs -> sort_key w <= sort_key r) /\
  exists i, nth_error rs i = Some w /\
    forall j r, (j < i)%nat -> nth_error rs j = Some r ->
      sort_key w < sort_key r.
Proof.
  intros Hw. unfold ordered in Hw.
  pose proof (sorted_sorted sort_key rs) as Hs.
  pose proof (sorted_perm sort_key rs) as Hp.
  pose proof (sorted_stable sort_key (sort_key w) rs) as Hst.
  destruct (sorted rs sort_key) as [| x l] eqn:E; [discriminate |].
  cbn in Hw. injection Hw as ->.
  assert (Hmin : forall r, In r rs -> sort_key w <= sort_key r).
  { intros r Hr. apply (Permutation_in _ (Permutation_sym Hp)) in Hr.
    destruct Hr as [<- | Hr]; [lra |].
    inversion Hs as [| ? ? _ Hall]; subst.
    rewrite Forall_forall in Hall. now apply Hall. }
  split; [exact Hmin |].
  cbn [filter] in Hst. rewrite Qeq_bool_refl in Hst. symmetry in Hst.
  destruct (filter_head _ rs w _ Hst) as (i & Hi & Hbefore).
  exists i. split; [exact Hi |]. intros j r Hj Hr.
  specialize (Hbefore j r Hj Hr). cbv beta in Hbefore.
  assert (Hne : ~ sort_key r == sort_key w).
  { intros Heq. apply Qeq_bool_iff in Heq. congruence. }
  assert (Hle : sort_key w <= sort_key r).
  { apply Hmin. eapply nth_error_In. exact Hr. }
  destruct (Qlt_le_dec (sort_key w) (sort_key r)) as [Hlt | Hge];
    [exact Hlt |].
  exfalso. apply Hne. lra.
Qed.

Lemma first_place_is_the_earliest_of_the_fastest_witness :
  nth_error (ordered [straggler; twin_1; twin_2]) 0 = Some twin_1 /\
  (forall r, In r [straggler; twin_1; twin_2] ->
     sort_key twin_1 <= sort_key r) /\
  exists i, nth_error [straggler; twin_1; twin_2] i = Some twin_1 /\
    forall j r, (j < i)%nat ->
      nth_error [straggler; twin_1; twin_2] j = Some r ->
      sort_key twin_1 < sort_key r.
Proof.
  assert (H : nth_error (ordered [straggler; twin_1; twin_2]) 0 = Some twin_1)
    by reflexivity.
  split; [exact H |].
  exact (first_place_is_the_earliest_of_the_fastest
           [straggler; twin_1; twin_2] twin_1 H).
Defined.

Lemma filter_perm {A : Type} (p : A -> bool) (l l' : list A) :
  Permutation l l' -> Permutation (filter p l) (filter p l').
Proof.
  induction 1 as [| x l l' _ IH | x y l | l l' l'' _ IH1 _ IH2];
    cbn [filter].
  - constructor.
  - destruct (p x); [now constructor | assumption].
  - destruct (p x), (p y); try reflexivity. apply perm_swap.
  - now transitivity (filter p l').
Qed.

Lemma no_ties_filter (rs : list BodySystemRunner) (k : Q) :
  no_ties rs ->
  (length (filter (fun a => Qeq_bool (sort_key a) k) rs) <= 1)%nat.
Proof.
  induction 1 as [| a l Ha _ IH]; cbn [filter]; [cbn; lia |].
  destruct (Qeq_bool (sort_key a) k) eqn:Ea; [| exact IH].
  apply Qeq_bool_iff in Ea.
  assert (E : filter (fun b => Qeq_bool (sort_key b) k) l = []).
  { clear IH. induction Ha as [| b l Hb _ IHl]; cbn [filter];
      [reflexivity |].
    destruct (Qeq_bool (sort_key b) k) eqn:Eb; [| exact IHl].
    apply Qeq_bool_iff in Eb. exfalso. apply Hb. lra. }
  rewrite E. cbn. lia.
Qed.

(** X25.  Without ties the roster order does not matter: two lists that hold
    the same competitors in any order, no two of them with the same sort
    key, have the same ranking. *)
Theorem ranking_ignores_roster_order_without_ties
    (rs rs' : list BodySystemRunner) :
  Permutation rs rs' -> no_ties rs -> ordered rs = ordered rs'.
Proof.
  intros Hp Hnt. unfold ordered.
  apply stable_sort_unique with (key := sort_key);
    try apply sorted_sorted.
  intros k. rewrite !sorted_stable.
  pose proof (filter_perm (fun a => Qeq_bool (sort_key a) k) rs rs' Hp)
    as Hf.
  pose proof (no_ties_filter rs k Hnt) as Hlen.
  destruct (filter (fun a => Qeq_bool (sort_key a) k) rs) as [| a [| b l]].
  - apply Permutation_nil in Hf. now rewrite Hf.
  - apply Permutation_length_1_inv in Hf. now rewrite Hf.
  - cbn in Hlen. lia.
Qed.

Lemma ranking_ignores_roster_order_without_ties_witness :
  (Permutation [straggler; twin_1] [twin_1; straggler] /\
   no_ties [straggler; twin_1]) /\
  ordered [straggler; twin_1] = ordered [twin_1; straggler].
Proof.
  assert (H1 : Permutation [straggler; twin_1] [twin_1; straggler])
    by apply perm_swap.
  assert (H2 : no_ties [straggler; twin_1]).
  { repeat constructor. vm_compute. discriminate. }
  split; [exact (conj H1 H2) |].
  exact (ranking_ignores_roster_order_without_ties _ _ H1 H2).
Defined.

(** ** The table *)

Lemma enumerate_nth {A : Type} (xs : list A) :
  forall start k,
    nth_error (enumerate xs start) k =
    option_map (fun x => ((start + Z.of_nat k)%Z, x)) (nth_error xs k).
Proof.
  induction xs as [| x xs IH]; intros start k; cbn [enumerate].
  - destruct k; reflexivity.
  - destruct k as [| k]; cbn [nth_error option_map].
    + now rewrite Z.add_0_r.
    + rewrite IH. destruct (nth_error xs k); cbn [option_map];
        [| reflexivity].
      do 2 f_equal. lia.
Qed.

Lemma enumerate_map {A : Type} (xs : list A) :
  forall start,
    map fst (enumerate xs start) =
      map (fun k => (start + Z.of_nat k)%Z) (seq 0 (length xs)) /\
    map snd (enumerate xs start) = xs.
Proof.
  induction xs as [| x xs IH]; intros start; cbn [enumerate map length seq].
  - split; reflexivity.
  - destruct (IH (start + 1)%Z) as [IH1 IH2]. rewrite IH1, IH2.
    split; [| reflexivity]. rewrite Z.add_0_r. f_equal.
    rewrite <- seq_shift, map_map. apply map_ext. intros k. lia.
Qed.

(** X26.  One row per competitor, places 1 to n. The results table has, from
    the top, the places 1, 2, ..., n with n the number of competitors, also
    when finish times are equal, and its Runner column holds the names of
    the competitors, each as often as in the list, in the order of the
    ranking. *)
Theorem results_table_has_one_row_per_competitor
    (rs : list BodySystemRunner) :
  map Place (table_data rs) =
    map (fun k => (1 + Z.of_nat k)%Z) (seq 0 (length rs)) /\
  map Runner (table_data rs) = map name (ordered rs) /\
  Permutation (map Runner (table_data rs)) (map name rs).
Proof.
  unfold table_data. rewrite !map_map.
  destruct (enumerate_map (ordered rs) 1) as [E1 E2].
  assert (Hlen : length (ordered rs) = length rs).
  { apply Permutation_length. apply sorted_perm. }
  assert (HP : map (fun x : Z * BodySystemRunner =>
                      Place (let '(idx, r) := x in
                             {| Place := idx; Runner := name r;
                                System := system r;
                                Finish_Time := time_str r;
                                Personality := personality r;
                                Ability := ability r |}))
                 (enumerate (ordered rs) 1) =
               map fst (enumerate (ordered rs) 1)).
  { apply map_ext. intros [idx r]. reflexivity. }
  assert (HR : map (fun x : Z * BodySystemRunner =>
                      Runner (let '(idx, r) := x in
                              {| Place := idx; Runner := name r;
                                 System := system r;
                                 Finish_Time := time_str r;
                                 Personality := personality r;
                                 Ability := ability r |}))
                 (enumerate (ordered rs) 1) =
               map name (map snd (enumerate (ordered rs) 1))).
  { rewrite map_map. apply map_ext. intros [idx r]. reflexivity. }
  rewrite HP, HR, E1, E2, Hlen.
  split; [reflexivity |]. split; [reflexivity |].
  apply Permutation_map. apply sorted_perm.
Qed.

Lemma string_length_app (a b : string) :
  String.length (a ++ b) = (String.length a + String.length b)%nat.
Proof. induction a as [| c a IH]; cbn; [reflexivity | now rewrite IH]. Qed.

Lemma decimal_nonempty (n : Z) : (1 <= String.length (decimal n))%nat.
Proof.
  unfold decimal. destruct (N.to_uint (Z.to_N n)); cbn; lia.
Qed.

Lemma format_2f_length (x : Q) : (3 <= String.length (format_2f x))%nat.
Proof.
  unfold format_2f. rewrite !string_length_app.
  pose proof (decimal_nonempty (round_half_even (Qabs x * 100) / 100)).
  pose proof (decimal_nonempty (round_half_even (Qabs x * 100) mod 100)).
  destruct (x <? 0), (Z.ltb _ 10); cbn [String.length]; lia.
Qed.

(** X27.  "DNF" marks exactly the unfinished. The row at place k + 1 of the
    results table describes the competitor at index k of the ranking, and
    its Finish Time reads "DNF" if and only if that competitor has no finish
    time. *)
Theorem dnf_marks_exactly_the_unfinished
    (rs : list BodySystemRunner) (k : nat) (row : TableRow) :
  nth_error (table_data rs) k = Some row ->
  exists r, nth_error (ordered rs) k = Some r /\
    Place row = (Z.of_nat k + 1)%Z /\
    Runner row = name r /\ System row = system r /\
    Personality row = personality r /\ Ability row = ability r /\
    (Finish_Time row = "DNF" <-> finish_time r = None).
Proof.
  unfold table_data. rewrite nth_error_map, enumerate_nth.
  destruct (nth_error (ordered rs) k) as [r |]; cbn [option_map];
    [| discriminate].
  intros H. injection H as <-. exists r.
  cbn [Place Runner System Personality Ability Finish_Time].
  split; [reflexivity |].
  split; [symmetry; exact (Z.add_comm (Z.of_nat k) 1) |].
  repeat (split; [reflexivity |]).
  unfold time_str. destruct (finish_time r) as [ft |].
  - split; [| discriminate]. intros E.
    apply (f_equal String.length) in E.
    rewrite string_length_app in E.
    pose proof (format_2f_length ft). cbn in E. lia.
  - split; reflexivity.
Qed.

Lemma dnf_marks_exactly_the_unfinished_witness :
  exists row,
    nth_error (table_data [straggler; twin_1; twin_2]) 2 = Some row /\
    exists r, nth_error (ordered [straggler; twin_1; twin_2]) 2 = Some r /\
      Place row = (Z.of_nat 2 + 1)%Z /\
      Runner row = name r /\ System row = system r /\
      Personality row = personality r /\ Ability row = ability r /\
      (Finish_Time row = "DNF" <-> finish_time r = None).
Proof.
  assert (H : exists row,
             nth_error (table_data [straggler; twin_1; twin_2]) 2 = Some row)
    by (vm_compute; eexists; reflexivity).
  destruct H as [row H]. exists row. split; [exact H |].
  exact (dnf_marks_exactly_the_unfinished
           [straggler; twin_1; twin_2] 2 row H).
Defined.

(* ================================================================== *)
(** * The clock in binary64 *)
(* ================================================================== *)

(** After 257 additions of 0.1 the binary64 clock shows
    25.700000000000095; the loop test [t < 40.0] holds for the first 400
    clock values and fails for the next.  The agreement with exact
    arithmetic is a property of these constants: ten additions of 0.1 give
    0.99999999999999989, still below 1.0. *)
Lemma clock64_values :
  clock64 257 = 25.700000000000095%float /\
  forallb (fun k => (clock64 k <? 40.0)%float) (seq 0 400) = true /\
  (clock64 400 <? 40.0)%float = false /\
  (clock64 10 <? 1.0)%float = true.
Proof. repeat split; vm_compute; reflexivity. Qed.

(** With the module constants the loop over the binary64 clock executes its
    body at most 400 = ceil(40.0 / 0.1) times, whatever the competitors
    do. *)
Lemma while64_at_most_400_ticks {State : Type}
    (all_finished : State -> bool) (body : float -> State -> State)
    (s : State) :
  exists n t' s',
    (n <= 400)%nat /\
    while64 all_finished body 401 0.0%float s = Some (n, t', s').
Proof.
  enough (H : forall m k s,
             (k + m = 400)%nat ->
             exists n t' s',
               (n <= m)%nat /\
               while64 all_finished body (S m) (clock64 k) s
                 = Some (n, t', s'))
    by exact (H 400%nat 0%nat s eq_refl).
  induction m as [| m IH]; intros k s0 Hk.
  - assert (k = 400)%nat by lia. subst k. cbn [while64].
    destruct clock64_values as (_ & _ & -> & _). cbn [andb].
    exists 0%nat. eauto.
  - cbn [while64]. fold (@while64 State all_finished body).
    destruct ((clock64 k <? 40.0)%float && negb (all_finished s0));
      [| exists 0%nat; eexists; eexists; split; [lia | reflexivity]].
    destruct (IH (S k) (body (clock64 k) s0) ltac:(lia))
      as (n & t' & s' & Hn & Hrun).
    cbn [clock64] in Hrun. cbn [while64] in Hrun. cbn [while64].
    rewrite Hrun. exists (S n), t', s'. split; [lia | reflexivity].
Qed.
